(** * Calendar diff engine of [src/calendar_analyzer.py]

    A shallow embedding of the event matcher, the change classifier, the
    property differ, the chronological sorter and the AWS canonicalization
    adapter of [ICSAnalyzer], with the properties the specification states
    about them. *)

From Stdlib Require Import ZArith List Bool Ascii String Lia Permutation Sorted.
Import ListNotations.

Set Warnings "-register-all".

Local Open Scope string_scope.
Local Open Scope Z_scope.

(** ** Exceptions

    Python code either returns a value or raises.  The exception classes
    below are the ones the analysed methods can meet; [ImportError] is the
    one a missing [dateutil] raises. *)

Inductive exn : Type :=
| KeyError
| TypeError
| AttributeError
| ValueError
| ImportError
| ICSAnalysisError.

Inductive result (A : Type) : Type :=
| Ok (a : A)
| Raise (e : exn).

Arguments Ok {A} a.
Arguments Raise {A} e.

Definition bind {A B : Type} (m : result A) (k : A -> result B) : result B :=
  match m with
  | Ok a => k a
  | Raise e => Raise e
  end.

Notation "x <- m ;; k" := (bind m (fun x => k))
  (at level 61, m at next level, right associativity).

(** [try: body except Exception: handler] *)
Definition try_except {A : Type} (body : result A) (handler : exn -> result A)
  : result A :=
  match body with
  | Ok a => Ok a
  | Raise e => handler e
  end.

(** ** Printing of numbers, as [%0Nd] does *)

Definition digit (n : Z) : string :=
  String (ascii_of_nat (48 + Z.to_nat (n mod 10))) EmptyString.

(** [zero_pad w n] is ["%0wd" % n] for [0 <= n < 10^w]. *)
Fixpoint zero_pad (w : nat) (n : Z) : string :=
  match w with
  | O => EmptyString
  | S w' => zero_pad w' (n / 10) ++ digit n
  end.

(** ** [datetime.datetime]

    The fields of the Python object; [utcoffset] is [None] for a naive
    value and the offset east of UTC, in minutes, for an aware one (a
    fixed-offset [tzinfo]).  Values are meant to be valid calendar dates,
    as the Python constructor enforces. *)

Record datetime : Type := mkDatetime {
  year : Z;
  month : Z;
  day : Z;
  hour : Z;
  minute : Z;
  second : Z;
  microsecond : Z;
  utcoffset : option Z
}.

Definition is_leap (y : Z) : bool :=
  (y mod 4 =? 0) && (negb (y mod 100 =? 0) || (y mod 400 =? 0)).

Definition days_before_year (y : Z) : Z :=
  let p := y - 1 in p * 365 + p / 4 - p / 100 + p / 400.

Definition days_before_month (y m : Z) : Z :=
  nth (Z.to_nat m) [0; 0; 31; 59; 90; 120; 151; 181; 212; 243; 273; 304; 334] 0
  + (if (2 <? m) && is_leap y then 1 else 0).

Definition toordinal (d : datetime) : Z :=
  days_before_year (year d) + days_before_month (year d) (month d) + day d.

(** Microseconds of the wall-clock reading since 0001-01-01T00:00:00. *)
Definition wall_us (d : datetime) : Z :=
  ((toordinal d - 1) * 86400 + hour d * 3600 + minute d * 60 + second d)
  * 1000000 + microsecond d.

(** [a - b]: a [timedelta], here its total number of microseconds.
    Subtracting a naive and an aware value raises [TypeError]. *)
Definition dt_sub (a b : datetime) : result Z :=
  match utcoffset a, utcoffset b with
  | None, None => Ok (wall_us a - wall_us b)
  | Some oa, Some ob => Ok (wall_us a - wall_us b + (ob - oa) * 60000000)
  | _, _ => Raise TypeError
  end.

(** [a == b]: a naive and an aware value are never equal (no exception).
    Two naive values, or two aware values of one offset, are compared field
    by field in Python; on valid dates that is the comparison of [wall_us]. *)
Definition dt_eq (a b : datetime) : bool :=
  match dt_sub a b with
  | Ok d => d =? 0
  | Raise _ => false
  end.

(** [a < b]: ordering a naive against an aware value raises [TypeError]. *)
Definition dt_lt (a b : datetime) : result bool :=
  d <- dt_sub a b ;; Ok (d <? 0).

(** [datetime.min] *)
Definition datetime_min : datetime := mkDatetime 1 1 1 0 0 0 0 None.

Definition format_offset (o : option Z) : string :=
  match o with
  | None => ""
  | Some m =>
      (if m <? 0 then "-" else "+")
      ++ zero_pad 2 (Z.abs m / 60) ++ ":" ++ zero_pad 2 (Z.abs m mod 60)
  end.

(** [d.isoformat(sep)] *)
Definition isoformat_sep (sep : string) (d : datetime) : string :=
  zero_pad 4 (year d) ++ "-" ++ zero_pad 2 (month d) ++ "-" ++ zero_pad 2 (day d)
  ++ sep
  ++ zero_pad 2 (hour d) ++ ":" ++ zero_pad 2 (minute d) ++ ":"
  ++ zero_pad 2 (second d)
  ++ (if microsecond d =? 0 then "" else "." ++ zero_pad 6 (microsecond d))
  ++ format_offset (utcoffset d).

Definition isoformat : datetime -> string := isoformat_sep "T".

(** ** Python values held by an event dictionary *)

Inductive pyval : Type :=
| PNone
| PStr (s : string)
| PDatetime (d : datetime).

(** Truth value, as [if v] tests it. *)
Definition truthy (v : pyval) : bool :=
  match v with
  | PNone => false
  | PStr s => negb (String.eqb s "")
  | PDatetime _ => true
  end.

(** [v != w] *)
Definition py_ne (v w : pyval) : bool :=
  match v, w with
  | PNone, PNone => false
  | PStr s, PStr t => negb (String.eqb s t)
  | PDatetime a, PDatetime b => negb (dt_eq a b)
  | _, _ => true
  end.

(** [str(v)] *)
Definition py_str (v : pyval) : string :=
  match v with
  | PNone => "None"
  | PStr s => s
  | PDatetime d => isoformat_sep " " d
  end.

(** [v - w] *)
Definition py_sub (v w : pyval) : result Z :=
  match v, w with
  | PDatetime a, PDatetime b => dt_sub a b
  | _, _ => Raise TypeError
  end.

(** ** Event dictionaries

    An event is the [dict] that [extract_events] builds.  A key other than
    ['uid'] can be missing, hold [None], or hold a value; ['uid'] is read by
    subscript and is always there, holding [None] or a string. *)

Inductive field (A : Type) : Type :=
| Missing
| PyNone
| Val (a : A).

Arguments Missing {A}.
Arguments PyNone {A}.
Arguments Val {A} a.

Record event : Type := mkEvent {
  uid : option string;
  summary : field string;
  description : field string;
  categories : field string;
  dtstart : field datetime;
  dtend : field datetime
}.

Inductive prop : Type := Summary | Description | Categories | Dtstart | Dtend.

Definition lookup (e : event) (p : prop) : option pyval :=
  let text (f : field string) :=
    match f with Missing => None | PyNone => Some PNone | Val s => Some (PStr s) end in
  let date (f : field datetime) :=
    match f with Missing => None | PyNone => Some PNone | Val d => Some (PDatetime d) end in
  match p with
  | Summary => text (summary e)
  | Description => text (description e)
  | Categories => text (categories e)
  | Dtstart => date (dtstart e)
  | Dtend => date (dtend e)
  end.

(** [event.get(p, default)] *)
Definition get_default (e : event) (p : prop) (default : pyval) : pyval :=
  match lookup e p with Some v => v | None => default end.

(** [event.get(p)] *)
Definition get (e : event) (p : prop) : pyval := get_default e p PNone.

(** [event[p]] *)
Definition getitem (e : event) (p : prop) : result pyval :=
  match lookup e p with Some v => Ok v | None => Raise KeyError end.

(** [event['uid']] is truthy *)
Definition has_uid (e : event) : bool :=
  match uid e with
  | Some s => negb (String.eqb s "")
  | None => false
  end.

(** The text of a truthy uid. *)
Definition uid_key (e : event) : string :=
  match uid e with Some s => s | None => "" end.

(** ** Change classifier: [classify_event_changes] *)

Inductive change_type : Type :=
| Added | Deleted | Modified | Moved | DurationChanged | Unchanged.

Definition properties_to_check : list prop := [Summary; Description; Categories].

(** The body of the [try] block. *)
Definition classify_body (event1 event2 : event) : result change_type :=
  let dtstart_changed := py_ne (get event1 Dtstart) (get event2 Dtstart) in
  let dtend_changed := py_ne (get event1 Dtend) (get event2 Dtend) in
  if dtstart_changed || dtend_changed then
    if truthy (get event1 Dtstart) && truthy (get event1 Dtend)
       && truthy (get event2 Dtstart) && truthy (get event2 Dtend)
    then
      end1 <- getitem event1 Dtend ;;
      start1 <- getitem event1 Dtstart ;;
      duration1 <- py_sub end1 start1 ;;
      end2 <- getitem event2 Dtend ;;
      start2 <- getitem event2 Dtstart ;;
      duration2 <- py_sub end2 start2 ;;
      if negb (duration1 =? duration2) then Ok DurationChanged else Ok Moved
    else Ok Moved
  else if existsb
            (fun p => negb (String.eqb (py_str (get_default event1 p (PStr "")))
                                       (py_str (get_default event2 p (PStr "")))))
            properties_to_check
       then Ok Modified
       else Ok Unchanged.

(** The [except Exception] clause answers ['modified']. *)
Definition classify_event_changes (event1 event2 : event) : change_type :=
  match classify_body event1 event2 with
  | Ok t => t
  | Raise _ => Modified
  end.

(** ** Property differ: [_get_detailed_property_changes] *)

Inductive value_kind : Type := KString | KDatetime.

(** One entry of the list the differ returns; [kind] is the
    ['change_type'] key of the entry, and an [old_value] or [new_value] of
    [None] is Python's [None]. *)
Record property_change : Type := mkPropertyChange {
  property : prop;
  old_value : option string;
  new_value : option string;
  kind : value_kind
}.

Definition compare_props : list prop :=
  [Summary; Description; Categories; Dtstart; Dtend].

(** The body of the loop for one property: the entries it appends.  The
    first case is the one where both values pass the [isinstance] test. *)
Definition property_entry (event1 event2 : event) (p : prop)
  : list property_change :=
  let value1 := get event1 p in
  let value2 := get event2 p in
  match value1, value2 with
  | PDatetime d1, PDatetime d2 =>
      if py_ne value1 value2 then
        [mkPropertyChange p
           (if truthy value1 then Some (isoformat d1) else None)
           (if truthy value2 then Some (isoformat d2) else None)
           KDatetime]
      else []
  | _, _ =>
      let str_value1 := if truthy value1 then py_str value1 else "" in
      let str_value2 := if truthy value2 then py_str value2 else "" in
      if negb (String.eqb str_value1 str_value2) then
        [mkPropertyChange p (Some str_value1) (Some str_value2) KString]
      else []
  end.

Definition _get_detailed_property_changes (event1 event2 : event)
  : list property_change :=
  flat_map (property_entry event1 event2) compare_props.

(** ** Dictionaries keyed by uid

    A Python [dict] keeps its keys in insertion order; writing to a key
    that is already there keeps the key's position and replaces its value. *)

Definition dict : Type := list (string * event).

Fixpoint dict_set (d : dict) (k : string) (v : event) : dict :=
  match d with
  | [] => [(k, v)]
  | (k', v') :: d' =>
      if String.eqb k k' then (k, v) :: d' else (k', v') :: dict_set d' k v
  end.

Fixpoint dict_get (d : dict) (k : string) : option event :=
  match d with
  | [] => None
  | (k', v) :: d' => if String.eqb k k' then Some v else dict_get d' k
  end.

Definition dict_keys (d : dict) : list string := map fst d.

(** [{event['uid']: event for event in events if event['uid']}] *)
Definition events_by_uid (events : list event) : dict :=
  fold_left (fun d e => if has_uid e then dict_set d (uid_key e) e else d)
            events [].

(** ** Event matcher: [detect_event_changes_detailed] *)

(** An entry of [changes['added']] or [changes['deleted']]. *)
Record event_change : Type := mkEventChange {
  ec_event : event;
  ec_change_type : change_type;
  ec_uid : string
}.

(** An entry of [changes['modified']], [changes['moved']] or
    [changes['duration_changed']]. *)
Record pair_change : Type := mkPairChange {
  pc_event1 : event;
  pc_event2 : event;
  pc_changes : list property_change;
  pc_change_type : change_type;
  pc_uid : string
}.

(** The [changes] dictionary, its five keys in the order of the literal. *)
Record changes : Type := mkChanges {
  added : list event_change;
  deleted : list event_change;
  modified : list pair_change;
  moved : list pair_change;
  duration_changed : list pair_change
}.

Definition no_changes : changes := mkChanges [] [] [] [] [].

(** [changes[change_type].append(r)] for the three keys the classifier can
    name; the caller never reaches it with another one. *)
Definition append_pair (ch : changes) (t : change_type) (r : pair_change)
  : changes :=
  match t with
  | Modified =>
      mkChanges (added ch) (deleted ch) (modified ch ++ [r])%list (moved ch)
                (duration_changed ch)
  | Moved =>
      mkChanges (added ch) (deleted ch) (modified ch) (moved ch ++ [r])%list
                (duration_changed ch)
  | DurationChanged =>
      mkChanges (added ch) (deleted ch) (modified ch) (moved ch)
                (duration_changed ch ++ [r])%list
  | _ => ch
  end.

Definition is_unchanged (t : change_type) : bool :=
  match t with Unchanged => true | _ => false end.

(** Body of the loop over [events2_by_uid.items()]; [dict_get] answering
    [None] is [uid not in events1_by_uid]. *)
Definition check_event2 (events1_by_uid : dict) (ch : changes)
           (item : string * event) : changes :=
  let '(uid, event2) := item in
  match dict_get events1_by_uid uid with
  | None =>
      mkChanges (added ch ++ [mkEventChange event2 Added uid])%list (deleted ch)
                (modified ch) (moved ch) (duration_changed ch)
  | Some event1 =>
      let change_type := classify_event_changes event1 event2 in
      if negb (is_unchanged change_type) then
        let change_details := _get_detailed_property_changes event1 event2 in
        append_pair ch change_type
          (mkPairChange event1 event2 change_details change_type uid)
      else ch
  end.

(** Body of the loop over [events1_by_uid.items()]. *)
Definition check_event1 (events2_by_uid : dict) (ch : changes)
           (item : string * event) : changes :=
  let '(uid, event1) := item in
  match dict_get events2_by_uid uid with
  | None =>
      mkChanges (added ch) (deleted ch ++ [mkEventChange event1 Deleted uid])%list
                (modified ch) (moved ch) (duration_changed ch)
  | Some _ => ch
  end.

(** Nothing in the body raises on these events, so the [except] clause,
    which turns any exception into [ICSAnalysisError], is left out. *)
Definition detect_event_changes_detailed (events1 events2 : list event)
  : changes :=
  let events1_by_uid := events_by_uid events1 in
  let events2_by_uid := events_by_uid events2 in
  let ch := fold_left (check_event2 events1_by_uid) events2_by_uid no_changes in
  fold_left (check_event1 events2_by_uid) events1_by_uid ch.

(** The pairs the matcher hands to the classifier: one for every uid of
    [events2_by_uid] that is also a key of [events1_by_uid]. *)
Definition matched_pairs (events1 events2 : list event) : list (event * event) :=
  let events1_by_uid := events_by_uid events1 in
  flat_map (fun item : string * event =>
              match dict_get events1_by_uid (fst item) with
              | Some event1 => [(event1, snd item)]
              | None => []
              end)
           (events_by_uid events2).

(** ** Chronological sorter: [_sort_changes_chronologically] *)

Inductive change_data : Type :=
| OfEvent (c : event_change)
| OfPair (c : pair_change).

(** An entry of [all_changes]; [sort_date] is [None] when the event holds
    [None] under ['dtstart']. *)
Record sorted_change : Type := mkSortedChange {
  sc_change_type : change_type;
  sort_date : option datetime;
  sc_change_data : change_data
}.

(** [ev.get('dtstart', datetime.min)] *)
Definition dtstart_or_min (ev : event) : option datetime :=
  match dtstart ev with
  | Missing => Some datetime_min
  | PyNone => None
  | Val d => Some d
  end.

Definition collect_events (t : change_type) (l : list event_change)
  : list sorted_change :=
  map (fun c => mkSortedChange t (dtstart_or_min (ec_event c)) (OfEvent c)) l.

Definition collect_pairs (t : change_type) (l : list pair_change)
  : list sorted_change :=
  map (fun c => mkSortedChange t (dtstart_or_min (pc_event2 c)) (OfPair c)) l.

(** [all_changes] before the sort: the lists of [changes.items()], in the
    order of the keys. *)
Definition all_changes (ch : changes) : list sorted_change :=
  (collect_events Added (added ch)
   ++ collect_events Deleted (deleted ch)
   ++ collect_pairs Modified (modified ch)
   ++ collect_pairs Moved (moved ch)
   ++ collect_pairs DurationChanged (duration_changed ch))%list.

(** [x['sort_date'] if x['sort_date'] else datetime.min] *)
Definition sort_key (x : sorted_change) : datetime :=
  match sort_date x with
  | Some d => d
  | None => datetime_min
  end.

(** [list.sort(key=...)]: a stable sort that only asks [<] of two keys and
    lets the exception of a comparison through. *)
Section ListSort.
Context {A : Type} (key : A -> datetime).

Fixpoint sort_insert (x : A) (l : list A) : result (list A) :=
  match l with
  | [] => Ok [x]
  | y :: l' =>
      b <- dt_lt (key y) (key x) ;;
      if b then (r <- sort_insert x l' ;; Ok (y :: r)) else Ok (x :: y :: l')
  end.

Fixpoint list_sort (l : list A) : result (list A) :=
  match l with
  | [] => Ok []
  | x :: l' => s <- list_sort l' ;; sort_insert x s
  end.
End ListSort.

Definition _sort_changes_chronologically (ch : changes)
  : result (list sorted_change) :=
  list_sort sort_key (all_changes ch).

(** ** Semantic diff: [generate_event_semantic_diff], from the two parsed
    event lists on *)

Record statistics : Type := mkStatistics {
  st_added : Z;
  st_deleted : Z;
  st_modified : Z;
  st_moved : Z;
  st_duration_changed : Z;
  st_unchanged : Z
}.

Record semantic_diff : Type := mkSemanticDiff {
  sd_statistics : statistics;
  sd_changes : changes;
  sd_sorted_changes : list sorted_change
}.

Definition len {A : Type} (l : list A) : Z := Z.of_nat (List.length l).

Definition compute_statistics (events1 events2 : list event) (ch : changes)
  : statistics :=
  mkStatistics
    (len (added ch)) (len (deleted ch)) (len (modified ch)) (len (moved ch))
    (len (duration_changed ch))
    (len events1 + len events2 - len (added ch) - len (deleted ch)
     - len (modified ch) - len (moved ch) - len (duration_changed ch)).

Definition generate_event_semantic_diff (events1 events2 : list event)
  : result semantic_diff :=
  try_except
    (let ch := detect_event_changes_detailed events1 events2 in
     let stats := compute_statistics events1 events2 ch in
     sorted <- _sort_changes_chronologically ch ;;
     Ok (mkSemanticDiff stats ch sorted))
    (fun _ => Raise ICSAnalysisError).

(** ** Simple matcher: [detect_event_changes] and its helpers *)

Fixpoint foldM {A B : Type} (f : A -> B -> result A) (l : list B) (a : A)
  : result A :=
  match l with
  | [] => Ok a
  | x :: l' => a' <- f a x ;; foldM f l' a'
  end.

Fixpoint mapM {A B : Type} (f : A -> result B) (l : list A) : result (list B) :=
  match l with
  | [] => Ok []
  | x :: l' => y <- f x ;; ys <- mapM f l' ;; Ok (y :: ys)
  end.

(** [d[k]] *)
Definition subscript (d : dict) (k : string) : result event :=
  match dict_get d k with
  | Some v => Ok v
  | None => Raise KeyError
  end.

(** [v.isoformat()] *)
Definition py_isoformat (v : pyval) : result string :=
  match v with
  | PDatetime d => Ok (isoformat d)
  | _ => Raise AttributeError
  end.

(** [prop.upper()] *)
Definition prop_upper (p : prop) : string :=
  match p with
  | Summary => "SUMMARY"
  | Description => "DESCRIPTION"
  | Categories => "CATEGORIES"
  | Dtstart => "DTSTART"
  | Dtend => "DTEND"
  end.

Definition arrow : string := " → ".

(** [compare_event_properties]: one line of text per property that differs.
    Nothing in its body raises on these events, so its [except] clause is
    left out. *)
Definition compare_event_properties (event1 event2 : event) : list string :=
  flat_map
    (fun p =>
       let value1 := get event1 p in
       let value2 := get event2 p in
       match value1, value2 with
       | PDatetime d1, PDatetime d2 =>
           if py_ne value1 value2
           then [prop_upper p ++ ": " ++ isoformat d1 ++ arrow ++ isoformat d2]
           else []
       | _, _ =>
           if negb (String.eqb (py_str value1) (py_str value2))
           then [prop_upper p ++ ": " ++ py_str value1 ++ arrow ++ py_str value2]
           else []
       end)
    compare_props.

(** An entry of [changes['added']], [changes['deleted']] or
    [changes['unchanged']]. *)
Record listed_event : Type := mkListed {
  le_event : event;
  le_change_type : change_type
}.

(** An entry of [changes['modified']]. *)
Record modified_event : Type := mkModifiedEvent {
  me_event1 : event;
  me_event2 : event;
  me_property_changes : list string;
  me_change_type : change_type
}.

Record simple_changes : Type := mkSimpleChanges {
  s_added : list listed_event;
  s_deleted : list listed_event;
  s_modified : list modified_event;
  s_unchanged : list listed_event
}.

(** Sets of keys.  Python fixes no iteration order for a [set]; here a set
    is listed in the order of the dictionary it was taken from, and the
    statements about the result speak of membership only. *)
Definition set_mem (k : string) (s : list string) : bool :=
  existsb (String.eqb k) s.

Definition set_diff (s t : list string) : list string :=
  filter (fun k => negb (set_mem k t)) s.

Definition set_inter (s t : list string) : list string :=
  filter (fun k => set_mem k t) s.

(** [event['dtstart'].isoformat() if event['dtstart'] else ''] *)
Definition dtstart_key (e : event) : result string :=
  v <- getitem e Dtstart ;;
  if truthy v then py_isoformat v else Ok "".

(** [{key(event): event for event in events}] over the events without uid. *)
Definition dtstart_dict (events : list event) : result dict :=
  foldM (fun d e => k <- dtstart_key e ;; Ok (dict_set d k e)) events [].

(** [_get_event_sort_key] *)
Definition event_sort_key (ev : event) : datetime :=
  match dtstart ev with
  | Val d => d
  | _ => datetime_min
  end.

Definition detect_event_changes_body (events1 events2 : list event)
  : result simple_changes :=
  let events1_dict := events_by_uid events1 in
  let events2_dict := events_by_uid events2 in
  let events1_no_uid := filter (fun e => negb (has_uid e)) events1 in
  let events2_no_uid := filter (fun e => negb (has_uid e)) events2 in
  let uid1_set := dict_keys events1_dict in
  let uid2_set := dict_keys events2_dict in
  let added_uids := set_diff uid2_set uid1_set in
  let deleted_uids := set_diff uid1_set uid2_set in
  let common_uids := set_inter uid1_set uid2_set in
  added <- mapM (fun uid => ev <- subscript events2_dict uid ;;
                            Ok (mkListed ev Added)) added_uids ;;
  deleted <- mapM (fun uid => ev <- subscript events1_dict uid ;;
                              Ok (mkListed ev Deleted)) deleted_uids ;;
  common <- mapM (fun uid => event1 <- subscript events1_dict uid ;;
                             event2 <- subscript events2_dict uid ;;
                             Ok (event1, event2)) common_uids ;;
  let modified :=
    flat_map (fun '(event1, event2) =>
                match compare_event_properties event1 event2 with
                | [] => []
                | property_changes =>
                    [mkModifiedEvent event1 event2 property_changes Modified]
                end) common in
  let unchanged :=
    flat_map (fun '(event1, event2) =>
                match compare_event_properties event1 event2 with
                | [] => [mkListed event1 Unchanged]
                | _ => []
                end) common in
  dtstart1_dict <- dtstart_dict events1_no_uid ;;
  dtstart2_dict <- dtstart_dict events2_no_uid ;;
  let dtstart1_set := dict_keys dtstart1_dict in
  let dtstart2_set := dict_keys dtstart2_dict in
  added' <- mapM (fun k => ev <- subscript dtstart2_dict k ;;
                           Ok (mkListed ev Added))
                 (filter (fun k => negb (String.eqb k ""))
                         (set_diff dtstart2_set dtstart1_set)) ;;
  deleted' <- mapM (fun k => ev <- subscript dtstart1_dict k ;;
                             Ok (mkListed ev Deleted))
                   (filter (fun k => negb (String.eqb k ""))
                           (set_diff dtstart1_set dtstart2_set)) ;;
  added_sorted <- list_sort (fun x => event_sort_key (le_event x))
                            (added ++ added')%list ;;
  deleted_sorted <- list_sort (fun x => event_sort_key (le_event x))
                              (deleted ++ deleted')%list ;;
  modified_sorted <- list_sort (fun x => event_sort_key (me_event2 x)) modified ;;
  Ok (mkSimpleChanges added_sorted deleted_sorted modified_sorted unchanged).

Definition detect_event_changes (events1 events2 : list event)
  : result simple_changes :=
  try_except (detect_event_changes_body events1 events2)
             (fun _ => Raise ICSAnalysisError).

(** ** Canonicalization adapter: [normalize_aws_calendar_to_ics] and
    [_parse_aws_datetime] *)

(** A decoded JSON document ([json.loads]); numbers are the integers. *)
Inductive json : Type :=
| JNull
| JBool (b : bool)
| JNum (n : Z)
| JStr (s : string)
| JArr (l : list json)
| JObj (l : list (string * json)).

Definition json_truthy (j : json) : bool :=
  match j with
  | JNull => false
  | JBool b => b
  | JNum n => negb (n =? 0)
  | JStr s => negb (String.eqb s "")
  | JArr l => match l with [] => false | _ => true end
  | JObj l => match l with [] => false | _ => true end
  end.

Fixpoint assoc (k : string) (l : list (string * json)) : option json :=
  match l with
  | [] => None
  | (k', v) :: l' => if String.eqb k k' then Some v else assoc k l'
  end.

(** [j.get(k, default)]; only a [dict] has the method. *)
Definition json_get (j : json) (k : string) (default : json) : result json :=
  match j with
  | JObj l => Ok (match assoc k l with Some v => v | None => default end)
  | _ => Raise AttributeError
  end.

Fixpoint chars (s : string) : list json :=
  match s with
  | EmptyString => []
  | String c s' => JStr (String c EmptyString) :: chars s'
  end.

(** [for x in j] *)
Definition json_iter (j : json) : result (list json) :=
  match j with
  | JArr l => Ok l
  | JObj l => Ok (map (fun kv => JStr (fst kv)) l)
  | JStr s => Ok (chars s)
  | _ => Raise TypeError
  end.

(** The canonical event the adapter builds.  ['uid'], ['summary'] and
    ['description'] pass the JSON value through. *)
Record normalized_event : Type := mkNormalized {
  n_uid : json;
  n_summary : json;
  n_dtstart : option datetime;
  n_dtend : option datetime;
  n_description : json;
  n_categories : string
}.

Definition formats : list string :=
  ["%Y-%m-%dT%H:%M:%SZ"; "%Y-%m-%dT%H:%M:%S.%fZ"; "%Y-%m-%d";
   "%Y-%m-%dT%H:%M:%S"; "%Y/%m/%d %H:%M:%S"].

Definition uid_prefix : string := "aws-change-calendar-".

Section Adapter.
(** What the adapter takes from outside the repository:
    [datetime.strptime], [dateutil.parser.parse] ([None] when the package
    is not installed), the text of the n-th value [uuid.uuid4()] returns,
    and [str()] on a decoded JSON value. *)
Variable strptime : string -> string -> result datetime.
Variable dateutil_parse : option (string -> result datetime).
Variable uuid4 : nat -> string.
Variable py_format : json -> string.

(** [datetime.strptime(v, fmt)]: the first argument must be a [str]. *)
Definition strptime_py (v : json) (fmt : string) : result datetime :=
  match v with
  | JStr s => strptime s fmt
  | _ => Raise TypeError
  end.

(** The loop over [formats]: [ValueError] moves on to the next format. *)
Fixpoint try_formats (v : json) (fmts : list string)
  : result (option datetime) :=
  match fmts with
  | [] => Ok None
  | fmt :: rest =>
      match strptime_py v fmt with
      | Ok d => Ok (Some d)
      | Raise ValueError => try_formats v rest
      | Raise e => Raise e
      end
  end.

(** [parser.parse(v)] after [from dateutil import parser]: [ImportError]
    is passed over and falls through to [return None]. *)
Definition dateutil_fallback (v : json) : result (option datetime) :=
  match dateutil_parse with
  | None => Ok None
  | Some parse =>
      match v with
      | JStr s => d <- parse s ;; Ok (Some d)
      | _ => Raise TypeError
      end
  end.

Definition parse_aws_datetime_body (v : json) : result (option datetime) :=
  if negb (json_truthy v) then Ok None
  else
    r <- try_formats v formats ;;
    match r with
    | Some d => Ok (Some d)
    | None => dateutil_fallback v
    end.

(** The outer [except Exception] logs and returns [None]. *)
Definition _parse_aws_datetime (v : json) : result (option datetime) :=
  try_except (parse_aws_datetime_body v) (fun _ => Ok None).

(** Body of the loop over [events]; the state is the number of
    [uuid.uuid4()] calls made so far.  The default of [event.get('id', ...)]
    is evaluated on every turn. *)
Definition normalize_event (st : nat * list normalized_event) (ev : json)
  : result (nat * list normalized_event) :=
  let '(n, acc) := st in
  uid <- json_get ev "id" (JStr (uid_prefix ++ uuid4 n)) ;;
  summary <- json_get ev "summary" (JStr "AWS Change Calendar Event") ;;
  start <- json_get ev "start" JNull ;;
  dtstart <- _parse_aws_datetime start ;;
  end_ <- json_get ev "end" JNull ;;
  dtend <- _parse_aws_datetime end_ ;;
  description <- json_get ev "description" (JStr "") ;;
  Ok (S n, (acc ++ [mkNormalized uid summary dtstart dtend description
                                 "AWS-Change-Calendar"])%list).

(** Body of the loop over [schedule.get('periods', [])]. *)
Definition normalize_period (calendar_data : json)
           (st : nat * list normalized_event) (period : json)
  : result (nat * list normalized_event) :=
  let '(n, acc) := st in
  start_time <- json_get period "start" JNull ;;
  end_time <- json_get period "end" JNull ;;
  if json_truthy start_time && json_truthy end_time then
    name <- json_get calendar_data "name" (JStr "Unknown") ;;
    dtstart <- _parse_aws_datetime start_time ;;
    dtend <- _parse_aws_datetime end_time ;;
    description <- json_get period "description" (JStr "") ;;
    Ok (S n,
        (acc ++ [mkNormalized
                   (JStr (uid_prefix ++ uuid4 n))
                   (JStr ("AWS Change Calendar: " ++ py_format name))
                   dtstart dtend
                   (JStr ("AWS Change Calendar period: " ++ py_format description))
                   "AWS-Change-Calendar"])%list)
  else Ok (n, acc).

Definition normalize_body (calendar_data : json)
  : result (list normalized_event) :=
  events <- json_get calendar_data "events" (JArr []) ;;
  if negb (json_truthy events) then
    schedule <- json_get calendar_data "schedule" (JObj []) ;;
    if json_truthy schedule then
      periods_value <- json_get schedule "periods" (JArr []) ;;
      periods <- json_iter periods_value ;;
      st <- foldM (normalize_period calendar_data) periods (O, []) ;;
      Ok (snd st)
    else Ok []
  else
    items <- json_iter events ;;
    st <- foldM normalize_event items (O, []) ;;
    Ok (snd st).

(** From the decoded document on; every exception leaves as
    [ICSAnalysisError]. *)
Definition normalize_aws_calendar_to_ics (calendar_data : json)
  : result (list normalized_event) :=
  try_except (normalize_body calendar_data) (fun _ => Raise ICSAnalysisError).
End Adapter.

(** * Further methods of [ICSAnalyzer] *)

(** ** File comparison: [compare_ics_files], from the two parsed event
    lists on *)

Record comparison_summary : Type := mkComparisonSummary {
  cs_added : Z;
  cs_deleted : Z;
  cs_modified : Z;
  cs_unchanged : Z
}.

Record comparison : Type := mkComparison {
  cmp_total_events1 : Z;
  cmp_total_events2 : Z;
  cmp_summary : comparison_summary;
  cmp_changes : simple_changes
}.

(** An [ICSAnalysisError] is raised again as it is, any other exception as
    an [ICSAnalysisError]. *)
Definition compare_ics_files (events1 events2 : list event) : result comparison :=
  try_except
    (ch <- detect_event_changes events1 events2 ;;
     Ok (mkComparison (len events1) (len events2)
           (mkComparisonSummary (len (s_added ch)) (len (s_deleted ch))
                                (len (s_modified ch)) (len (s_unchanged ch)))
           ch))
    (fun _ => Raise ICSAnalysisError).

(** ** Comparison with the AWS calendar: [compare_with_aws_change_calendar],
    from the two event lists on, and [_generate_aws_recommendations] *)

From Stdlib Require DecimalString.

(** [f"{n}"] for an [int] *)
Definition py_int_str (n : Z) : string :=
  DecimalString.NilZero.string_of_int (Z.to_int n).

(** The [statistics] dictionary of the comparison. *)
Record aws_statistics : Type := mkAwsStatistics {
  as_local_only : Z;
  as_aws_only : Z;
  as_different : Z;
  as_moved : Z;
  as_identical : Z
}.

Definition synchronized_message : string :=
  "ローカルファイルとAWS Change Calendarは同期されています".

Definition follow_up_messages : list string :=
  ["AWS Change Calendarの更新後、状態確認を実施してください";
   "次回比較: 1ヶ月後（推奨）"].

(** [_generate_aws_recommendations]; it does not read [changes]. *)
Definition _generate_aws_recommendations (ch : changes)
           (statistics : aws_statistics) : list string :=
  ((if 0 <? as_local_only statistics
    then [(py_int_str (as_local_only statistics)
           ++ "件のローカルイベントをAWS Change Calendarに追加することを推奨します")%string]
    else [])
   ++ (if 0 <? as_aws_only statistics
       then [(py_int_str (as_aws_only statistics)
              ++ "件のAWSイベントがローカルファイルに不足しています")%string]
       else [])
   ++ (if 0 <? as_different statistics
       then [(py_int_str (as_different statistics)
              ++ "件のイベントに差異があります。内容を確認してください")%string]
       else [])
   ++ (if 0 <? as_moved statistics
       then [(py_int_str (as_moved statistics)
              ++ "件のイベントが移動されています。日時を確認してください")%string]
       else [])
   ++ (if (as_local_only statistics =? 0) && (as_aws_only statistics =? 0)
          && (as_different statistics =? 0)
       then [synchronized_message]
       else follow_up_messages))%list.

(** The result of the comparison, without the names, the calendar state and
    the date of the run.  The events of the AWS calendar are the dictionaries
    the adapter builds; they are taken here as events whose ['uid'] holds
    [None] or a text. *)
Record aws_comparison : Type := mkAwsComparison {
  ac_local_events : Z;
  ac_aws_events : Z;
  ac_statistics : aws_statistics;
  ac_local_only : list event_change;
  ac_aws_only : list event_change;
  ac_different : list pair_change;
  ac_moved : list pair_change;
  ac_recommendations : list string
}.

Definition compare_with_aws_change_calendar (local_events aws_events : list event)
  : aws_comparison :=
  let ch := detect_event_changes_detailed local_events aws_events in
  let statistics :=
    mkAwsStatistics
      (len (added ch)) (len (deleted ch)) (len (modified ch)) (len (moved ch))
      (len local_events + len aws_events - len (added ch) - len (deleted ch)
       - len (modified ch) - len (moved ch)) in
  let recommendations := _generate_aws_recommendations ch statistics in
  mkAwsComparison (len local_events) (len aws_events) statistics
                  (added ch) (deleted ch) (modified ch) (moved ch)
                  recommendations.

(** ** Printing the period of an event: [_format_event_period] *)

(** [d.time() == datetime.min.time()] *)
Definition at_midnight (d : datetime) : bool :=
  (hour d =? 0) && (minute d =? 0) && (second d =? 0) && (microsecond d =? 0).

(** [d.date().isoformat()] *)
Definition date_isoformat (d : datetime) : string :=
  zero_pad 4 (year d) ++ "-" ++ zero_pad 2 (month d) ++ "-" ++ zero_pad 2 (day d).

(** [(b.date() - a.date()).days] *)
Definition days_between (a b : datetime) : Z := toordinal b - toordinal a.

(** The text of the [except] clause, [f"期間フォーマットエラー: {e}"], for the
    [KeyError] of a missing key. *)
Definition period_error (key : string) : string :=
  "期間フォーマットエラー: '" ++ key ++ "'".

(** [_format_event_period].  The two subscripts are the only places that
    raise on an event dictionary: ['dtstart'] and ['dtend'] hold [None] or a
    [datetime]. *)
Definition _format_event_period (ev : event) : string :=
  match dtstart ev with
  | Missing => period_error "dtstart"
  | start_field =>
      match dtend ev with
      | Missing => period_error "dtend"
      | end_field =>
          match start_field with
          | Val start_dt =>
              let is_all_day :=
                match end_field with
                | Val end_dt =>
                    at_midnight start_dt && at_midnight end_dt
                    && (days_between start_dt end_dt =? 1)
                | _ => false
                end in
              if is_all_day then date_isoformat start_dt
              else
                match end_field with
                | Val end_dt => isoformat start_dt ++ " - " ++ isoformat end_dt
                | _ => isoformat start_dt
                end
          | _ => "期間不明"
          end
      end
  end.

(** ** Dates of ICS date-time texts: [_extract_date_from_ics]

    A text is held as its UTF-8 bytes.  A character is a byte that is no
    continuation byte ([10xxxxxx]) together with the continuation bytes
    that follow it, so that [len] and the slices below count characters, as
    Python does, and not bytes. *)

Definition is_continuation (c : ascii) : bool :=
  (128 <=? nat_of_ascii c)%nat && (nat_of_ascii c <? 192)%nat.

(** [len(s)] *)
Fixpoint py_len (s : string) : nat :=
  match s with
  | EmptyString => O
  | String c s' => if is_continuation c then py_len s' else S (py_len s')
  end.

(** [s[:n]] *)
Fixpoint take_chars (n : nat) (s : string) : string :=
  match s with
  | EmptyString => EmptyString
  | String c s' =>
      if is_continuation c then String c (take_chars n s')
      else match n with
           | O => EmptyString
           | S n' => String c (take_chars n' s')
           end
  end.

(** [s[n:]] *)
Fixpoint drop_chars (n : nat) (s : string) : string :=
  match s with
  | EmptyString => EmptyString
  | String c s' =>
      if is_continuation c then drop_chars n s'
      else match n with
           | O => s
           | S n' => drop_chars n' s'
           end
  end.

(** ['T' in s] *)
Fixpoint contains_T (s : string) : bool :=
  match s with
  | EmptyString => false
  | String c s' => Ascii.eqb c "T" || contains_T s'
  end.

(** [s.split('T')[0]] *)
Fixpoint before_T (s : string) : string :=
  match s with
  | EmptyString => EmptyString
  | String c s' => if Ascii.eqb c "T" then EmptyString else String c (before_T s')
  end.

(** [s[a:b]] for [0 <= a <= b] *)
Definition slice (a b : nat) (s : string) : string :=
  take_chars (b - a) (drop_chars a s).

(** [f"{year}-{month}-{day}"] of [s[:4]], [s[4:6]] and [s[6:8]] *)
Definition dashed (s : string) : string :=
  take_chars 4 s ++ "-" ++ slice 4 6 s ++ "-" ++ slice 6 8 s.

Definition _extract_date_from_ics (ics_datetime : string) : option string :=
  if contains_T ics_datetime then
    let date_part := before_T ics_datetime in
    if Nat.eqb (py_len date_part) 8 then Some (dashed date_part) else None
  else if Nat.eqb (py_len ics_datetime) 8 then Some (dashed ics_datetime)
  else None.

(** ** Statistics of a list of events: [analyze_events] *)

(** [needle in hay] for two texts *)
Definition contains (needle hay : string) : bool :=
  match index 0 needle hay with
  | Some _ => true
  | None => false
  end.

(** [needle in v]: [None] is not iterable. *)
Definition py_in (needle : string) (v : pyval) : result bool :=
  match v with
  | PStr s => Ok (contains needle s)
  | _ => Raise TypeError
  end.

(** A [Counter], its keys in the order of their first increment. *)
Fixpoint increment {K : Type} (eqb : K -> K -> bool) (c : list (K * Z)) (k : K)
  : list (K * Z) :=
  match c with
  | [] => [(k, 1)]
  | (k', n) :: c' =>
      if eqb k k' then (k', n + 1) :: c' else (k', n) :: increment eqb c' k
  end.

(** [datetime.date]: the values of [dt.date()]. *)
Record date : Type := mkDate {
  date_year : Z;
  date_month : Z;
  date_day : Z
}.

Definition date_of (d : datetime) : date := mkDate (year d) (month d) (day d).

Definition date_toordinal (d : date) : Z :=
  days_before_year (date_year d) + days_before_month (date_year d) (date_month d)
  + date_day d.

Record date_range : Type := mkDateRange {
  range_start : date;
  range_end : date;
  span_days : Z
}.

Record event_statistics : Type := mkEventStatistics {
  total_events : Z;
  es_date_range : option date_range;
  holiday_types : list (string * Z);
  yearly_distribution : list (Z * Z);
  monthly_distribution : list (Z * Z)
}.

(** The key of [holiday_types] an event is counted under. *)
Definition holiday_type (ev : event) : result string :=
  let categories := get_default ev Categories (PStr "") in
  let summary := get_default ev Summary (PStr "") in
  is_holiday <- py_in "Japanese-Holiday" categories ;;
  if is_holiday then Ok "国民の祝日"
  else
    is_substitute <- py_in "振替休日" summary ;;
    if is_substitute then Ok "振替休日"
    else
      is_citizens <- py_in "国民の休日" summary ;;
      if is_citizens then Ok "国民の休日" else Ok "その他".

(** The state of the loop over the events. *)
Record tally : Type := mkTally {
  t_holiday_types : list (string * Z);
  t_yearly : list (Z * Z);
  t_monthly : list (Z * Z);
  t_valid_dates : list datetime
}.

Definition tally_event (t : tally) (ev : event) : result tally :=
  label <- holiday_type ev ;;
  let types := increment String.eqb (t_holiday_types t) label in
  start <- getitem ev Dtstart ;;
  if truthy start then
    match start with
    | PDatetime dt =>
        Ok (mkTally types
                    (increment Z.eqb (t_yearly t) (year dt))
                    (increment Z.eqb (t_monthly t) (month dt))
                    (t_valid_dates t ++ [dt])%list)
    | _ => Raise AttributeError
    end
  else Ok (mkTally types (t_yearly t) (t_monthly t) (t_valid_dates t)).

Definition range_of (sorted : list datetime) : option date_range :=
  match sorted with
  | [] => None
  | first :: _ =>
      let final := last sorted first in
      Some (mkDateRange (date_of first) (date_of final)
                        (date_toordinal (date_of final)
                         - date_toordinal (date_of first)))
  end.

Definition analyze_events (events : list event) : result event_statistics :=
  try_except
    (let total := len events in
     if total =? 0 then Ok (mkEventStatistics 0 None [] [] [])
     else
       t <- foldM tally_event events (mkTally [] [] [] []) ;;
       range <- match t_valid_dates t with
                | [] => Ok None
                | valid_dates =>
                    sorted <- list_sort (fun d => d) valid_dates ;;
                    Ok (range_of sorted)
                end ;;
       Ok (mkEventStatistics total range (t_holiday_types t) (t_yearly t)
                             (t_monthly t)))
    (fun _ => Raise ICSAnalysisError).

(** ** Coverage of a year: [_find_gaps] and [_find_busy_periods]

    The two methods use of a [date] its order, the number of days between
    two dates, the day before and the day after, and its year.  A date is
    taken here by its ordinal ([date.toordinal()]), so that the days between
    two dates are the difference and the next day is the successor; the year
    of a date is the one the [datetime] library gives.  The set of dates is
    the list of its members, in any order; the records hold the dates the
    dictionaries print with [isoformat()]. *)

(** [sorted(dates)] *)
Fixpoint insert_date (d : Z) (l : list Z) : list Z :=
  match l with
  | [] => [d]
  | x :: l' => if d <=? x then d :: l else x :: insert_date d l'
  end.

Definition sorted_dates (l : list Z) : list Z := fold_right insert_date [] l.

Record gap : Type := mkGap {
  gap_start_date : Z;
  gap_end_date : Z;
  gap_days : Z
}.

Record busy_period : Type := mkBusyPeriod {
  busy_start_date : Z;
  busy_end_date : Z;
  duration_days : Z
}.

(** The loop [for i in range(len(year_dates) - 1)] over the neighbours
    [year_dates[i]] and [year_dates[i + 1]]. *)
Fixpoint gaps_between (year_dates : list Z) : list gap :=
  match year_dates with
  | [] => []
  | current_date :: rest =>
      match rest with
      | [] => []
      | next_date :: _ =>
          let days := next_date - current_date - 1 in
          ((if 7 <? days
            then [mkGap (current_date + 1) (next_date - 1) days]
            else []) ++ gaps_between rest)%list
      end
  end.

(** What the loop of [_find_busy_periods] and the lines after it append. *)
Definition close_period (busy_periods : list busy_period)
           (current_period_start current_period_end : Z) : list busy_period :=
  let period_days := current_period_end - current_period_start + 1 in
  if 3 <? period_days
  then (busy_periods
        ++ [mkBusyPeriod current_period_start current_period_end period_days])%list
  else busy_periods.

(** The loop [for i in range(1, len(year_dates))], with the state
    [current_period_start], [current_period_end], [busy_periods]. *)
Fixpoint busy_loop (rest : list Z) (current_period_start current_period_end : Z)
         (busy_periods : list busy_period) : list busy_period :=
  match rest with
  | [] => close_period busy_periods current_period_start current_period_end
  | d :: rest' =>
      if d - current_period_end <=? 1
      then busy_loop rest' current_period_start d busy_periods
      else busy_loop rest' d d
             (close_period busy_periods current_period_start current_period_end)
  end.

Section Coverage.
(** [d.year] *)
Variable year_of : Z -> Z.

Definition in_year (year : Z) (event_dates : list Z) : list Z :=
  filter (fun d => year_of d =? year) event_dates.

Definition _find_gaps (event_dates : list Z) (year : Z) : list gap :=
  match in_year year event_dates with
  | [] => []
  | year_dates => firstn 5 (gaps_between (sorted_dates year_dates))
  end.

Definition _find_busy_periods (event_dates : list Z) (year : Z)
  : list busy_period :=
  match sorted_dates (in_year year event_dates) with
  | [] => []
  | first :: rest => firstn 5 (busy_loop rest first first [])
  end.
End Coverage.

(** * Statements of the specification *)

(** ** Notions the statements use *)

(** [before.start != after.start or before.end != after.end] *)
Definition dates_differ (event1 event2 : event) : bool :=
  py_ne (get event1 Dtstart) (get event2 Dtstart)
  || py_ne (get event1 Dtend) (get event2 Dtend).

(** All of [before.start], [before.end], [after.start], [after.end] are
    present. *)
Definition all_present (event1 event2 : event) : bool :=
  truthy (get event1 Dtstart) && truthy (get event1 Dtend)
  && truthy (get event2 Dtstart) && truthy (get event2 Dtend).

(** [end - start] of one event. *)
Definition duration (ev : event) : result Z :=
  py_sub (get ev Dtend) (get ev Dtstart).


(** The text of a property with [None] (and a missing key) read as the
    empty string. *)
Definition text_or_empty (ev : event) (p : prop) : string :=
  match lookup ev p with
  | Some (PStr s) => s
  | _ => ""
  end.

(** One of [summary], [description], [categories] differs under that
    reading. *)
Definition texts_differ (event1 event2 : event) : bool :=
  existsb (fun p => negb (String.eqb (text_or_empty event1 p)
                                     (text_or_empty event2 p)))
          properties_to_check.

(** No text property holds [None]. *)
Definition no_none_text (ev : event) : Prop :=
  summary ev <> PyNone /\ description ev <> PyNone /\ categories ev <> PyNone.

(** The same test as the classifier makes it. *)
Definition code_texts_differ (event1 event2 : event) : bool :=
  existsb (fun p => negb (String.eqb (py_str (get_default event1 p (PStr "")))
                                     (py_str (get_default event2 p (PStr "")))))
          properties_to_check.


(** Lists in which every event has a non-empty uid of its own. *)
Definition unique_uids (events : list event) : Prop :=
  Forall (fun e => has_uid e = true) events /\ NoDup (map uid_key events).

(** Every entry of the uid dictionary is an event of the list, filed under
    its own non-empty uid. *)
Definition keyed_entry (events : list event) (item : string * event) : Prop :=
  In (snd item) events /\ has_uid (snd item) = true /\ uid_key (snd item) = fst item.

(** What one entry of a uid dictionary adds to [changes['added']] and to
    [changes['deleted']]. *)
Definition added_entry (events1_by_uid : dict) (item : string * event)
  : list event_change :=
  match dict_get events1_by_uid (fst item) with
  | None => [mkEventChange (snd item) Added (fst item)]
  | Some _ => []
  end.

Definition deleted_entry (events2_by_uid : dict) (item : string * event)
  : list event_change :=
  match dict_get events2_by_uid (fst item) with
  | None => [mkEventChange (snd item) Deleted (fst item)]
  | Some _ => []
  end.

(** The entries for matched pairs, and the pair of events of an entry. *)
Definition classified (ch : changes) : list pair_change :=
  (modified ch ++ moved ch ++ duration_changed ch)%list.

Definition pair_of (c : pair_change) : event * event :=
  (pc_event1 c, pc_event2 c).

Definition changed (p : event * event) : bool :=
  negb (is_unchanged (classify_event_changes (fst p) (snd p))).

(** Partition completeness as the specification words it: each event of
    [before] occurs once among the deleted events and the before-sides of
    the pairs, each event of [after] once among the added events and the
    after-sides. *)
Definition partition_complete (before after : list event) : Prop :=
  let ch := detect_event_changes_detailed before after in
  let pairs := matched_pairs before after in
  Permutation before (map ec_event (deleted ch) ++ map fst pairs)
  /\ Permutation after (map ec_event (added ch) ++ map snd pairs).

Definition unkeyed (e : event) : bool := negb (has_uid e).

(** A datetime is aware when it carries an offset; [instant] is its
    reading in microseconds, brought to UTC when it is aware. *)
Definition aware (d : datetime) : bool :=
  match utcoffset d with Some _ => true | None => false end.

Definition instant (d : datetime) : Z :=
  wall_us d - match utcoffset d with Some o => o * 60000000 | None => 0 end.

(** [x] is not after [y]: the comparison [key y < key x] answers [False]. *)
Definition not_after {A : Type} (key : A -> datetime) (x y : A) : Prop :=
  dt_lt (key y) (key x) = Ok false.

Definition same_key {A : Type} (key : A -> datetime) (x y : A) : bool :=
  dt_eq (key x) (key y).

(** The sequence is in ascending order of the sort date. *)
Definition ascending (out : list sorted_change) : Prop :=
  StronglySorted (not_after sort_key) out.

(** The sort is stable: the entries of one sort date keep the order they
    had in [l]. *)
Definition stable (l out : list sorted_change) : Prop :=
  forall x, filter (same_key sort_key x) out = filter (same_key sort_key x) l.

(** [x] stands before [y] in [l]. *)
Definition precedes {A : Type} (l : list A) (x y : A) : Prop :=
  exists l1 l2 l3, l = (l1 ++ x :: l2 ++ y :: l3)%list.

(** Entries of one sort date stand in the order of [rank]. *)
Definition tie_order (rank : change_type -> nat) (out : list sorted_change)
  : Prop :=
  forall x y, precedes out x y -> same_key sort_key x y = true ->
              (rank (sc_change_type x) <= rank (sc_change_type y))%nat.

(** The tie order the specification names, and the order of the keys of
    the [changes] literal. *)
Definition claimed_tie_rank (t : change_type) : nat :=
  match t with
  | Deleted => 0 | Modified => 1 | Moved => 2 | DurationChanged => 3
  | Added => 4 | Unchanged => 5
  end%nat.

Definition code_tie_rank (t : change_type) : nat :=
  match t with
  | Added => 0 | Deleted => 1 | Modified => 2 | Moved => 3
  | DurationChanged => 4 | Unchanged => 5
  end%nat.

(** The order of the keys, on entries. *)
Definition by_rank (x y : sorted_change) : Prop :=
  (code_tie_rank (sc_change_type x) <= code_tie_rank (sc_change_type y))%nat.

(** The chronological sequence as the specification words it. *)
Definition chronological_claim (ch : changes) : Prop :=
  forall out, _sort_changes_chronologically ch = Ok out ->
              ascending out /\ stable (all_changes ch) out
              /\ tie_order claimed_tie_rank out.

(** The text of the start of an event as [detect_event_changes] files it:
    the ISO-8601 text, or the empty string when there is no start. *)
Definition start_key (e : event) : string :=
  match dtstart e with
  | Val d => isoformat d
  | _ => ""
  end.

(** The fallback key of the specification, [(start, summary)]. *)
Definition fallback_key (e : event) : string * string :=
  (start_key e, text_or_empty e Summary).

(** The last event of [l] whose start has the text [k]. *)
Fixpoint last_with_start (k : string) (l : list event) : option event :=
  match l with
  | [] => None
  | e :: l' =>
      match last_with_start k l' with
      | Some e' => Some e'
      | None => if String.eqb k (start_key e) then Some e else None
      end
  end.

(** Unkeyed matching as the specification words it, over the events a
    matcher reports as added and as deleted: an event without uid is left
    out of the report exactly when an event without uid on the other side
    has its fallback key. *)
Definition fallback_claim (reported_added reported_deleted : list event)
           (before after : list event) : Prop :=
  (forall e2, In e2 after -> has_uid e2 = false ->
     (~ In e2 reported_added <->
      exists e1, In e1 before /\ has_uid e1 = false
                 /\ fallback_key e1 = fallback_key e2))
  /\ (forall e1, In e1 before -> has_uid e1 = false ->
     (~ In e1 reported_deleted <->
      exists e2, In e2 after /\ has_uid e2 = false
                 /\ fallback_key e2 = fallback_key e1)).

(** ** Notions for the adapter *)

(** No known format reads [s]: [strptime] raises on each of [formats] and
    [dateutil], when installed, raises as well. *)
Definition unparsable (strptime : string -> string -> result datetime)
           (dateutil_parse : option (string -> result datetime)) (s : string)
  : Prop :=
  (forall fmt, In fmt formats -> exists e, strptime s fmt = Raise e)
  /\ match dateutil_parse with
     | None => True
     | Some parse => exists e, parse s = Raise e
     end.

Definition is_object (j : json) : Prop := exists l, j = JObj l.

(** [ev.get(k)] of a record. *)
Definition field_of (ev : json) (k : string) : option json :=
  match ev with
  | JObj l => assoc k l
  | _ => None
  end.

Definition or_null (v : option json) : json :=
  match v with Some j => j | None => JNull end.

(** The canonical event of the record met as the [n]-th of the loop. *)
Definition canonical_event (strptime : string -> string -> result datetime)
           (dateutil_parse : option (string -> result datetime))
           (uuid4 : nat -> string) (n : nat) (ev : json) : normalized_event :=
  let parsed v :=
    match _parse_aws_datetime strptime dateutil_parse v with
    | Ok r => r
    | Raise _ => None
    end in
  mkNormalized
    (match field_of ev "id" with
     | Some v => v
     | None => JStr (uid_prefix ++ uuid4 n)
     end)
    (match field_of ev "summary" with
     | Some v => v
     | None => JStr "AWS Change Calendar Event"
     end)
    (parsed (or_null (field_of ev "start")))
    (parsed (or_null (field_of ev "end")))
    (match field_of ev "description" with Some v => v | None => JStr "" end)
    "AWS-Change-Calendar".

Fixpoint canonical_from (strptime : string -> string -> result datetime)
         (dateutil_parse : option (string -> result datetime))
         (uuid4 : nat -> string) (n : nat) (evs : list json)
  : list normalized_event :=
  match evs with
  | [] => []
  | ev :: rest =>
      canonical_event strptime dateutil_parse uuid4 n ev
      :: canonical_from strptime dateutil_parse uuid4 (S n) rest
  end.

(** Placeholder uids as the specification words them: whatever the uuid
    generator yields, the uids of the canonical events are the same. *)
Definition deterministic_uid_claim (calendar_data : json) : Prop :=
  forall strptime dateutil_parse py_format (uuid4 uuid4' : nat -> string) out out',
    normalize_aws_calendar_to_ics strptime dateutil_parse uuid4 py_format
                                  calendar_data = Ok out ->
    normalize_aws_calendar_to_ics strptime dateutil_parse uuid4' py_format
                                  calendar_data = Ok out' ->
    map n_uid out = map n_uid out'.

(** ** Sample data *)

Definition naive (y m d : Z) : datetime := mkDatetime y m d 0 0 0 0 None.
Definition utc (y m d : Z) : datetime := mkDatetime y m d 0 0 0 0 (Some 0).

Definition holiday (u s : string) (a b : field datetime) : event :=
  mkEvent (Some u) (Val s) (Val "National Holiday") (Val "Japanese-Holiday") a b.

Definition new_year : event :=
  holiday "e1" "New Year" (Val (naive 2024 1 1)) (Val (naive 2024 1 2)).

Definition new_years_day : event :=
  holiday "e1" "New Year's Day" (Val (naive 2024 1 1)) (Val (naive 2024 1 2)).

Definition new_year_shifted : event :=
  holiday "e1" "New Year" (Val (naive 2024 1 2)) (Val (naive 2024 1 3)).

Definition new_year_extended : event :=
  holiday "e1" "New Year" (Val (naive 2024 1 1)) (Val (naive 2024 1 3)).

(** The start could not be read and is [None]. *)
Definition new_year_no_start : event :=
  holiday "e1" "New Year" PyNone (Val (naive 2024 1 2)).



(** An event parsed from a file, its summary empty, and the same event as
    the adapter builds it from a record whose summary is a JSON [null]:
    ['summary'] holds [None]. *)
Definition summary_empty : event :=
  mkEvent (Some "e1") (Val "") (Val "") (Val "AWS-Change-Calendar")
          (Val (naive 2024 1 1)) (Val (naive 2024 1 2)).

Definition summary_none : event :=
  mkEvent (Some "e1") PyNone (Val "") (Val "AWS-Change-Calendar")
          (Val (naive 2024 1 1)) (Val (naive 2024 1 2)).

(** Two entries under one uid, and an event without uid. *)
Definition new_year_again : event :=
  holiday "e1" "New Year (observed)" (Val (naive 2024 1 1)) (Val (naive 2024 1 2)).

Definition constitution_day : event :=
  mkEvent (Some "") (Val "Constitution Day") (Val "National Holiday")
          (Val "Japanese-Holiday") (Val (naive 2024 5 3)) (Val (naive 2024 5 4)).

Definition coming_of_age_day : event :=
  holiday "e2" "Coming of Age Day" (Val (naive 2024 1 8)) (Val (naive 2024 1 9)).

(** A holiday that starts on the day another one, dropped from the
    calendar, started. *)
Definition substitute_holiday : event :=
  holiday "e3" "Substitute Holiday" (Val (naive 2024 1 8)) (Val (naive 2024 1 9)).

(** The entries for [substitute_holiday] added and [coming_of_age_day]
    deleted, both starting on 2024-01-08. *)
Definition substitute_added : sorted_change :=
  mkSortedChange Added (Some (naive 2024 1 8))
                 (OfEvent (mkEventChange substitute_holiday Added "e3")).

Definition coming_of_age_deleted : sorted_change :=
  mkSortedChange Deleted (Some (naive 2024 1 8))
                 (OfEvent (mkEventChange coming_of_age_day Deleted "e2")).

(** Events without uid: one that shares its start with [constitution_day]
    under another summary, and one on another day. *)
Definition constitution_day_renamed : event :=
  mkEvent (Some "") (Val "Constitution Memorial Day") (Val "National Holiday")
          (Val "Japanese-Holiday") (Val (naive 2024 5 3)) (Val (naive 2024 5 4)).

Definition greenery_day : event :=
  mkEvent (Some "") (Val "Greenery Day") (Val "National Holiday")
          (Val "Japanese-Holiday") (Val (naive 2024 5 4)) (Val (naive 2024 5 5)).

(** A calendar document with one record that has no ['id'] and a start no
    format reads, and one with an ['id']. *)
Definition maintenance_calendar : json :=
  JObj [("events",
         JArr [JObj [("summary", JStr "Maintenance"); ("start", JStr "next week");
                     ("end", JStr "2024-01-02")];
               JObj [("id", JStr "w-2"); ("summary", JStr "Freeze")]])].

(** A [strptime] that knows none of the formats, and two uuid generators. *)
Definition strptime_none (s fmt : string) : result datetime := Raise ValueError.

Definition uuids_a (n : nat) : string := "5f0c6b1e-0000-4000-8000-00000000000a".
Definition uuids_b (n : nat) : string := "5f0c6b1e-0000-4000-8000-00000000000b".

(** The events of the unit tests of the classifier and of the differ. *)
Definition at_time (y m d h : Z) : datetime := mkDatetime y m d h 0 0 0 None.

Definition test_event (s desc cat : string) (a b : datetime) : event :=
  mkEvent (Some "test-event") (Val s) (Val desc) (Val cat) (Val a) (Val b).

Definition base_event : event :=
  test_event "Test Event" "Original description" "Test"
             (at_time 2024 1 1 9) (at_time 2024 1 1 17).

Definition original_event : event :=
  test_event "Original Event" "Original description" "Original"
             (at_time 2024 1 1 9) (at_time 2024 1 1 17).

Definition modified_event_all : event :=
  test_event "Modified Event" "Modified description" "Modified"
             (at_time 2024 1 2 9) (at_time 2024 1 2 18).

(** An event with no key but ['uid'] and ['summary'], and a complete one. *)
Definition incomplete_event : event :=
  mkEvent (Some "incomplete") (Val "Incomplete Event") Missing Missing
          Missing Missing.

Definition complete_event : event :=
  mkEvent (Some "complete") (Val "Complete Event") (Val "Complete description")
          (Val "Test") (Val (naive 2024 1 1)) (Val (naive 2024 1 2)).

Definition no_date_event : event :=
  mkEvent (Some "no-date") Missing Missing Missing Missing Missing.

(** * Further notions *)

(** An entry of the differ with its two sides exchanged. *)
Definition swap_change (c : property_change) : property_change :=
  mkPropertyChange (property c) (new_value c) (old_value c) (kind c).

Definition swap_pair {A B : Type} (p : A * B) : B * A := (snd p, fst p).

(** The event and the uid of an entry, without its label. *)
Definition event_and_uid (c : event_change) : event * string :=
  (ec_event c, ec_uid c).

(** The last event of [l] with the non-empty uid [k]. *)
Fixpoint last_with_uid (k : string) (l : list event) : option event :=
  match l with
  | [] => None
  | e :: l' =>
      match last_with_uid k l' with
      | Some e' => Some e'
      | None => if has_uid e && String.eqb k (uid_key e) then Some e else None
      end
  end.

(** The elements of [l] in the order of their first occurrence. *)
Fixpoint first_occurrences (seen l : list string) : list string :=
  match l with
  | [] => []
  | k :: l' =>
      if set_mem k seen then first_occurrences seen l'
      else k :: first_occurrences (k :: seen) l'
  end.

(** The matched pairs the classifier calls [Unchanged]. *)
Definition unchanged_pairs (events1 events2 : list event) : list (event * event) :=
  filter (fun p => negb (changed p)) (matched_pairs events1 events2).

(** All sort dates of the entries are naive, or all are aware. *)
Definition uniform_awareness (l : list sorted_change) : Prop :=
  forall x y, In x l -> In y l -> aware (sort_key x) = aware (sort_key y).

(** The entries of [d] whose key is no key of [other], and the pairs of
    events filed under one key in [d1] and [d2]. *)
Definition only_in (d other : dict) : dict :=
  filter (fun item => negb (set_mem (fst item) (dict_keys other))) d.

Definition common_pairs (d1 d2 : dict) : list (event * event) :=
  flat_map (fun item : string * event =>
              match dict_get d2 (fst item) with
              | Some event2 => [(snd item, event2)]
              | None => []
              end) d1.

(** The sort keys of the entries of the simple matcher. *)
Definition listed_key (x : listed_event) : datetime := event_sort_key (le_event x).
Definition modified_key (x : modified_event) : datetime :=
  event_sort_key (me_event2 x).

Definition all_keyed (events : list event) : Prop :=
  Forall (fun e => has_uid e = true) events.

(** The event has the key ['dtstart']. *)
Definition has_start_key (e : event) : bool :=
  match dtstart e with Missing => false | _ => true end.

(** What the fallback by start needs: every event without uid has the key
    ['dtstart']. *)
Definition unkeyed_have_start_key (events : list event) : Prop :=
  forall e, In e events -> has_uid e = false -> has_start_key e = true.

(** The sort dates of the events are all naive, or all aware. *)
Definition uniform_starts (events : list event) : Prop :=
  exists b, forall e, In e events -> aware (event_sort_key e) = b.

(** A decoded JSON value that is a non-empty text. *)
Definition is_text (v : json) : bool :=
  match v with
  | JStr s => negb (String.eqb s "")
  | _ => false
  end.

Definition array_of_objects (j : json) : Prop :=
  exists evs, j = JArr evs /\ Forall is_object evs.

(** A period of the old format that has a start and an end. *)
Definition complete_period (period : json) : bool :=
  json_truthy (or_null (field_of period "start"))
  && json_truthy (or_null (field_of period "end")).

(** The placeholder uids of [count] events, from the [n]-th value of the
    generator on. *)
Definition placeholder_uids (uuid4 : nat -> string) (n count : nat) : list json :=
  map (fun i => JStr (uid_prefix ++ uuid4 i)) (seq n count).

(** A [strptime] that reads dates of January 2024 in the format
    [%Y-%m-%d] and nothing else. *)
Definition strptime_january (s fmt : string) : result datetime :=
  if String.eqb fmt "%Y-%m-%d" then
    if String.eqb s "2024-01-01" then Ok (mkDatetime 2024 1 1 0 0 0 0 None)
    else if String.eqb s "2024-01-02" then Ok (mkDatetime 2024 1 2 0 0 0 0 None)
    else Raise ValueError
  else Raise ValueError.

(** A document in the old format: a schedule of three periods, the second
    without an end. *)
Definition schedule_periods : list json :=
  [JObj [("start", JStr "2024-01-01"); ("end", JStr "2024-01-02")];
   JObj [("start", JStr "2024-01-02")];
   JObj [("start", JStr "2024-01-02"); ("end", JStr "someday");
         ("description", JStr "year end")]].

Definition schedule_fields : list (string * json) :=
  [("periods", JArr schedule_periods)].

Definition calendar_fields : list (string * json) :=
  [("name", JStr "freeze"); ("schedule", JObj schedule_fields)].

Definition schedule_calendar : json := JObj calendar_fields.

Definition uuids_count (n : nat) : string :=
  match n with
  | O => "5f0c6b1e-0000-4000-8000-000000000000"
  | S O => "5f0c6b1e-0000-4000-8000-000000000001"
  | _ => "5f0c6b1e-0000-4000-8000-000000000002"
  end.

(** An event from midnight to the next midnight. *)
Definition all_day (ev : event) : bool :=
  match dtstart ev, dtend ev with
  | Val start_dt, Val end_dt =>
      at_midnight start_dt && at_midnight end_dt
      && (toordinal end_dt - toordinal start_dt =? 1)
  | _, _ => false
  end.

(** The part of an ICS date-time that holds the date: the text before the
    first ['T'], the whole text when there is none. *)
Definition date_part (s : string) : string :=
  if contains_T s then before_T s else s.

(** The sum of the counts of a [Counter]. *)
Definition counted {K : Type} (c : list (K * Z)) : Z :=
  fold_right (fun item acc => snd item + acc) 0 c.

(** The event has a start. *)
Definition has_start (ev : event) : bool :=
  match dtstart ev with Val _ => true | _ => false end.

(** The time of day of a valid [datetime]. *)
Definition valid_time (d : datetime) : Prop :=
  0 <= hour d < 24 /\ 0 <= minute d < 60 /\ 0 <= second d < 60
  /\ 0 <= microsecond d < 1000000.

Definition naive_start (ev : event) : Prop :=
  forall d, dtstart ev = Val d -> utcoffset d = None /\ valid_time d.

(** A year of 366 days that begins on the day of ordinal 738886
    (2024-01-01), for the examples. *)
Definition year_2024 (d : Z) : Z :=
  if (738886 <=? d) && (d <? 738886 + 366) then 2024 else 0.

(** A holiday whose start and end carry the offset of UTC. *)
Definition foundation_day : event :=
  holiday "e4" "National Foundation Day" (Val (utc 2024 2 11)) (Val (utc 2024 2 12)).

(** The event holds a text under ['summary'], ['description'] and
    ['categories'], as the events [extract_events] builds do. *)
Definition texts_present (ev : event) : Prop :=
  (exists s, summary ev = Val s) /\ (exists s, description ev = Val s)
  /\ (exists s, categories ev = Val s).

(** The properties the lines of [compare_event_properties] name, and those
    of the entries of [_get_detailed_property_changes]. *)
Definition line_reported (event1 event2 : event) (p : prop) : bool :=
  match get event1 p, get event2 p with
  | PDatetime _, PDatetime _ => py_ne (get event1 p) (get event2 p)
  | v1, v2 => negb (String.eqb (py_str v1) (py_str v2))
  end.

Definition entry_reported (event1 event2 : event) (p : prop) : bool :=
  match property_entry event1 event2 p with [] => false | _ => true end.


(** The canonical event of a period of the old format, built with the
    [n]-th value of the uuid generator, and the canonical events of the
    periods of a schedule that have a start and an end, in their order. *)
Definition canonical_period (strptime : string -> string -> result datetime)
           (dateutil_parse : option (string -> result datetime))
           (uuid4 : nat -> string) (py_format : json -> string)
           (calendar_data : json) (n : nat) (period : json) : normalized_event :=
  let parsed v :=
    match _parse_aws_datetime strptime dateutil_parse v with
    | Ok r => r
    | Raise _ => None
    end in
  mkNormalized
    (JStr (uid_prefix ++ uuid4 n))
    (JStr ("AWS Change Calendar: "
           ++ py_format (match field_of calendar_data "name" with
                         | Some v => v
                         | None => JStr "Unknown"
                         end)))
    (parsed (or_null (field_of period "start")))
    (parsed (or_null (field_of period "end")))
    (JStr ("AWS Change Calendar period: "
           ++ py_format (match field_of period "description" with
                         | Some v => v
                         | None => JStr ""
                         end)))
    "AWS-Change-Calendar".

Fixpoint canonical_periods_from
         (strptime : string -> string -> result datetime)
         (dateutil_parse : option (string -> result datetime))
         (uuid4 : nat -> string) (py_format : json -> string)
         (calendar_data : json) (n : nat) (periods : list json)
  : list normalized_event :=
  match periods with
  | [] => []
  | period :: rest =>
      if complete_period period
      then canonical_period strptime dateutil_parse uuid4 py_format
                            calendar_data n period
           :: canonical_periods_from strptime dateutil_parse uuid4 py_format
                                     calendar_data (S n) rest
      else canonical_periods_from strptime dateutil_parse uuid4 py_format
                                  calendar_data n rest
  end.

(** * The unit tests and the scenarios of the specification, replayed *)

Example test_change_classification_accuracy :
  classify_event_changes
    base_event
    (test_event "Modified Test Event" "Original description" "Test"
                (at_time 2024 1 1 9) (at_time 2024 1 1 17)) = Modified
  /\ classify_event_changes
       base_event
       (test_event "Test Event" "Original description" "Test"
                   (at_time 2024 1 2 9) (at_time 2024 1 2 17)) = Moved
  /\ classify_event_changes
       base_event
       (test_event "Test Event" "Original description" "Test"
                   (at_time 2024 1 1 9) (at_time 2024 1 1 18)) = DurationChanged
  /\ classify_event_changes base_event base_event = Unchanged.
Proof.
  repeat split.
Qed.

Example test_detailed_property_changes :
  _get_detailed_property_changes original_event modified_event_all =
  [mkPropertyChange Summary (Some "Original Event") (Some "Modified Event") KString;
   mkPropertyChange Description (Some "Original description")
                    (Some "Modified description") KString;
   mkPropertyChange Categories (Some "Original") (Some "Modified") KString;
   mkPropertyChange Dtstart (Some "2024-01-01T09:00:00")
                    (Some "2024-01-02T09:00:00") KDatetime;
   mkPropertyChange Dtend (Some "2024-01-01T17:00:00")
                    (Some "2024-01-02T18:00:00") KDatetime].
Proof.
  reflexivity.
Qed.

Example test_event_matching_algorithm_accuracy :
  let ch := detect_event_changes_detailed
              [new_year; coming_of_age_day; constitution_day]
              [new_years_day; substitute_holiday; constitution_day] in
  map ec_uid (added ch) = ["e3"] /\ map ec_uid (deleted ch) = ["e2"]
  /\ map pc_uid (modified ch) = ["e1"]
  /\ moved ch = [] /\ duration_changed ch = [].
Proof.
  repeat split.
Qed.

Example test_edge_cases :
  detect_event_changes_detailed [] [] = no_changes
  /\ (let ch := detect_event_changes_detailed [incomplete_event] [complete_event] in
      List.length (added ch) = 1%nat /\ List.length (deleted ch) = 1%nat)
  /\ _sort_changes_chronologically
       (mkChanges [mkEventChange no_date_event Added "no-date"] [] [] [] [])
     = Ok [mkSortedChange Added (Some datetime_min)
             (OfEvent (mkEventChange no_date_event Added "no-date"))].
Proof.
  repeat split.
Qed.

(** Scenario A: a changed summary gives one [Modified] entry with one
    property change. *)
Example scenario_a :
  modified (detect_event_changes_detailed [new_year] [new_years_day]) =
  [mkPairChange new_year new_years_day
     [mkPropertyChange Summary (Some "New Year") (Some "New Year's Day") KString]
     Modified "e1"].
Proof.
  reflexivity.
Qed.

(** Scenarios B and C: a shift by one day is [Moved], an end one day later
    is [DurationChanged]. *)
Example scenarios_b_c :
  classify_event_changes new_year new_year_shifted = Moved
  /\ classify_event_changes new_year new_year_extended = DurationChanged.
Proof.
  split; reflexivity.
Qed.

(** Scenario D: against the empty list, one added event. *)
Example scenario_d :
  match generate_event_semantic_diff [] [coming_of_age_day] with
  | Ok r => st_added (sd_statistics r) = 1 /\ st_deleted (sd_statistics r) = 0
            /\ st_modified (sd_statistics r) = 0
  | Raise _ => False
  end.
Proof.
  repeat split.
Qed.

(** Scenario E: an event without uid on both sides is in neither list of
    either matcher. *)
Example scenario_e :
  (let ch := detect_event_changes_detailed [constitution_day] [constitution_day] in
   added ch = [] /\ deleted ch = [])
  /\ detect_event_changes [constitution_day] [constitution_day]
     = Ok (mkSimpleChanges [] [] [] []).
Proof.
  repeat split.
Qed.

(** * Properties *)

(** ** Dates and values *)

Lemma dt_sub_self (d : datetime) : dt_sub d d = Ok 0.
Proof.
  unfold dt_sub. destruct (utcoffset d); f_equal; lia.
Qed.

Lemma dt_eq_refl (d : datetime) : dt_eq d d = true.
Proof.
  unfold dt_eq. now rewrite dt_sub_self.
Qed.

Lemma py_ne_refl (v : pyval) : py_ne v v = false.
Proof.
  destruct v; simpl; trivial.
  - now rewrite String.eqb_refl.
  - now rewrite dt_eq_refl.
Qed.

Lemma truthy_getitem (ev : event) (p : prop) :
  truthy (get ev p) = true -> getitem ev p = Ok (get ev p).
Proof.
  unfold get, get_default, getitem. destruct (lookup ev p); simpl; congruence.
Qed.

(** ** Change classifier *)

Lemma classify_body_cases (event1 event2 : event) :
  classify_body event1 event2 =
  if dates_differ event1 event2 then
    if all_present event1 event2 then
      d1 <- duration event1 ;;
      d2 <- duration event2 ;;
      if negb (d1 =? d2) then Ok DurationChanged else Ok Moved
    else Ok Moved
  else if code_texts_differ event1 event2 then Ok Modified else Ok Unchanged.
Proof.
  unfold classify_body, dates_differ, all_present, duration, code_texts_differ.
  destruct (py_ne (get event1 Dtstart) (get event2 Dtstart)
            || py_ne (get event1 Dtend) (get event2 Dtend)); [|reflexivity].
  destruct (truthy (get event1 Dtstart)) eqn:H1; [|reflexivity].
  destruct (truthy (get event1 Dtend)) eqn:H2; [|reflexivity].
  destruct (truthy (get event2 Dtstart)) eqn:H3; [|reflexivity].
  destruct (truthy (get event2 Dtend)) eqn:H4; [|reflexivity].
  simpl.
  now rewrite !truthy_getitem by assumption.
Qed.

Lemma text_without_none (ev : event) (p : prop) :
  no_none_text ev -> In p properties_to_check ->
  py_str (get_default ev p (PStr "")) = text_or_empty ev p.
Proof.
  intros (Hs & Hd & Hc) Hp.
  unfold get_default, text_or_empty, lookup.
  simpl in Hp.
  destruct Hp as [<-|[<-|[<-|[]]]];
    [destruct (summary ev)|destruct (description ev)|destruct (categories ev)];
    simpl; congruence.
Qed.

Lemma existsb_ext_in {A : Type} (f g : A -> bool) (l : list A) :
  (forall x, In x l -> f x = g x) -> existsb f l = existsb g l.
Proof.
  induction l as [|x l IH]; intros H; simpl; [reflexivity|].
  rewrite (H x (or_introl eq_refl)), IH; [reflexivity|].
  intros y Hy. apply H. now right.
Qed.

Lemma texts_differ_without_none (event1 event2 : event) :
  no_none_text event1 -> no_none_text event2 ->
  code_texts_differ event1 event2 = texts_differ event1 event2.
Proof.
  intros H1 H2. unfold code_texts_differ, texts_differ.
  apply existsb_ext_in. intros p Hp.
  now rewrite !text_without_none by assumption.
Qed.




(** ** Property differ *)

Lemma append_nonempty (a b : string) : a <> "" -> (a ++ b)%string <> "".
Proof.
  destruct a; simpl; [congruence|discriminate].
Qed.

Lemma zero_pad_nonempty (w : nat) (n : Z) : zero_pad (S w) n <> "".
Proof.
  simpl. unfold digit. destruct (zero_pad w (n / 10)); simpl; discriminate.
Qed.

Lemma isoformat_sep_nonempty (sep : string) (d : datetime) :
  isoformat_sep sep d <> "".
Proof.
  unfold isoformat_sep. apply append_nonempty, zero_pad_nonempty.
Qed.

Lemma eqb_neq_false (a b : string) : a <> b -> String.eqb a b = false.
Proof.
  intros H. now apply String.eqb_neq.
Qed.

(** Where both sides hold a datetime the entry is of kind [datetime] and
    carries both ISO-8601 texts. *)
Lemma property_entry_datetimes (event1 event2 : event) (p : prop)
      (d1 d2 : datetime) :
  get event1 p = PDatetime d1 -> get event2 p = PDatetime d2 ->
  property_entry event1 event2 p =
  if dt_eq d1 d2 then []
  else [mkPropertyChange p (Some (isoformat d1)) (Some (isoformat d2)) KDatetime].
Proof.
  intros H1 H2. unfold property_entry. rewrite H1, H2. simpl.
  now destruct (dt_eq d1 d2).
Qed.

(** Where exactly one side holds a datetime the entry is of kind [string]:
    the datetime is printed by [str()] and the absent side is the empty
    string. *)
Lemma property_entry_one_sided (event1 event2 : event) (p : prop) (d : datetime) :
  get event1 p = PDatetime d -> get event2 p = PNone ->
  property_entry event1 event2 p =
  [mkPropertyChange p (Some (isoformat_sep " " d)) (Some "") KString].
Proof.
  intros H1 H2. unfold property_entry. rewrite H1, H2. cbn [truthy py_str].
  now rewrite (eqb_neq_false _ _ (isoformat_sep_nonempty " " d)).
Qed.

(** C6 (the code at the failing input).  An event whose start went from
    2024-01-01 to [None]: the entry for [dtstart] has kind [string], its old
    value is the [str()] text with a blank, not the ISO-8601 text, and its
    new value is the empty string, not [None].  The matcher files the pair
    under [moved] with that entry. *)
Theorem absent_start_reported_as_string :
  _get_detailed_property_changes new_year new_year_no_start =
  [mkPropertyChange Dtstart (Some "2024-01-01 00:00:00") (Some "") KString]
  /\ isoformat (naive 2024 1 1) = "2024-01-01T00:00:00"
  /\ moved (detect_event_changes_detailed [new_year] [new_year_no_start])
     = [mkPairChange new_year new_year_no_start
          [mkPropertyChange Dtstart (Some "2024-01-01 00:00:00") (Some "") KString]
          Moved "e1"].
Proof.
  repeat split.
Qed.

(** C7 (the code at the failing input).  An empty summary against a
    summary of [None]: the classifier reads [None] as the text ["None"] and
    answers [Modified]; the differ reads it as the empty string and returns
    no entry; the matcher files the pair under [modified] with an empty list
    of property changes. *)
Theorem modified_pair_without_property_changes :
  classify_event_changes summary_empty summary_none = Modified
  /\ _get_detailed_property_changes summary_empty summary_none = []
  /\ modified (detect_event_changes_detailed [summary_empty] [summary_none])
     = [mkPairChange summary_empty summary_none [] Modified "e1"].
Proof.
  repeat split.
Qed.

Lemma flat_map_nonempty {A B : Type} (f : A -> list B) (l : list A) (x : A) :
  In x l -> f x <> [] -> flat_map f l <> [].
Proof.
  induction l as [|y l IH]; simpl; [tauto|].
  intros [->|Hx] Hf.
  - destruct (f x); [congruence|discriminate].
  - intros H. apply app_eq_nil in H. destruct H as [_ H]. now apply IH.
Qed.

Lemma date_entry_nonempty (event1 event2 : event) (p : prop) :
  p = Dtstart \/ p = Dtend ->
  py_ne (get event1 p) (get event2 p) = true ->
  property_entry event1 event2 p <> [].
Proof.
  intros Hp Hne. unfold property_entry.
  assert (Hv : forall ev, get ev p = PNone \/ exists d, get ev p = PDatetime d).
  { intros ev. unfold get, get_default, lookup.
    destruct Hp as [-> | ->];
      [destruct (dtstart ev)|destruct (dtend ev)]; simpl; eauto. }
  destruct (Hv event1) as [H1|[d1 H1]], (Hv event2) as [H2|[d2 H2]];
    rewrite H1, H2 in *; cbn [truthy py_str py_ne] in *.
  - discriminate.
  - rewrite eqb_neq_false; [discriminate|].
    intros H. now apply (isoformat_sep_nonempty " " d2).
  - rewrite eqb_neq_false; [discriminate|]. apply isoformat_sep_nonempty.
  - rewrite Hne. discriminate.
Qed.

Lemma text_entry_nonempty (event1 event2 : event) (p : prop) :
  no_none_text event1 -> no_none_text event2 -> In p properties_to_check ->
  text_or_empty event1 p <> text_or_empty event2 p ->
  property_entry event1 event2 p <> [].
Proof.
  intros Hn1 Hn2 Hp Hne. unfold property_entry.
  assert (Hv : forall ev, no_none_text ev ->
             (get ev p = PNone /\ text_or_empty ev p = "")
             \/ (get ev p = PStr (text_or_empty ev p))).
  { intros ev (Hs & Hd & Hc). unfold get, get_default, text_or_empty, lookup.
    simpl in Hp.
    destruct Hp as [<-|[<-|[<-|[]]]];
      [destruct (summary ev)|destruct (description ev)|destruct (categories ev)];
      simpl; auto; congruence. }
  assert (Hs : forall s, (if negb (String.eqb s "") then s else "") = s).
  { intros s. destruct (String.eqb_spec s ""); simpl; congruence. }
  destruct (Hv event1 Hn1) as [[H1 E1]|H1], (Hv event2 Hn2) as [[H2 E2]|H2];
    rewrite H1, H2; cbn [truthy py_str]; rewrite ?Hs.
  - congruence.
  - rewrite eqb_neq_false by congruence. discriminate.
  - rewrite eqb_neq_false by congruence. discriminate.
  - rewrite eqb_neq_false by congruence. discriminate.
Qed.

(** Away from [None] texts the claim of C7 holds: a pair the classifier
    does not call [Unchanged] has at least one property entry. *)
Lemma changed_pair_has_property_changes (event1 event2 : event) :
  no_none_text event1 -> no_none_text event2 ->
  classify_event_changes event1 event2 <> Unchanged ->
  _get_detailed_property_changes event1 event2 <> [].
Proof.
  intros Hn1 Hn2 Hc. unfold _get_detailed_property_changes.
  unfold classify_event_changes in Hc. rewrite classify_body_cases in Hc.
  destruct (dates_differ event1 event2) eqn:Hd.
  - unfold dates_differ in Hd. apply orb_true_iff in Hd.
    destruct Hd as [Hd|Hd].
    + apply flat_map_nonempty with (x := Dtstart); [simpl; tauto|].
      apply date_entry_nonempty; auto.
    + apply flat_map_nonempty with (x := Dtend); [simpl; tauto|].
      apply date_entry_nonempty; auto.
  - rewrite texts_differ_without_none in Hc by assumption.
    destruct (texts_differ event1 event2) eqn:Ht; [|congruence].
    unfold texts_differ in Ht. apply existsb_exists in Ht.
    destruct Ht as (p & Hp & Hne).
    apply flat_map_nonempty with (x := p).
    + simpl in Hp. simpl. tauto.
    + apply text_entry_nonempty; auto.
      apply negb_true_iff in Hne. now apply String.eqb_neq.
Qed.

(** ** Dictionaries *)

Lemma fold_left_invariant {A B : Type} (P : A -> Prop) (f : A -> B -> A)
      (l : list B) (a : A) :
  P a -> (forall a x, In x l -> P a -> P (f a x)) -> P (fold_left f l a).
Proof.
  revert a. induction l as [|x l IH]; intros a Ha Hf; simpl; [assumption|].
  apply IH.
  - apply Hf; [now left|assumption].
  - intros a' y Hy. apply Hf. now right.
Qed.

Lemma dict_get_in (d : dict) (k : string) (v : event) :
  dict_get d k = Some v -> In (k, v) d.
Proof.
  induction d as [|[k' v'] d IH]; simpl; [discriminate|].
  destruct (String.eqb_spec k k') as [->|Hne].
  - intros [= ->]. now left.
  - intros H. right. now apply IH.
Qed.

Lemma dict_get_none (d : dict) (k : string) :
  dict_get d k = None <-> ~ In k (dict_keys d).
Proof.
  induction d as [|[k' v'] d IH]; simpl; [tauto|].
  destruct (String.eqb_spec k k') as [->|Hne].
  - split; [discriminate|]. intros H. exfalso. apply H. now left.
  - rewrite IH. split; intros H; [intros [E|E]; [congruence|tauto]|tauto].
Qed.

Lemma dict_get_unique (d : dict) (k : string) (v : event) :
  NoDup (dict_keys d) -> In (k, v) d -> dict_get d k = Some v.
Proof.
  induction d as [|[k' v'] d IH]; simpl; [tauto|].
  intros Hnd [E|Hin].
  - injection E as -> ->. now rewrite String.eqb_refl.
  - inversion Hnd as [|? ? Hk Hd]; subst.
    destruct (String.eqb_spec k k') as [->|Hne].
    + exfalso. apply Hk. change k' with (fst (k', v)). now apply in_map.
    + now apply IH.
Qed.

Lemma dict_set_keys (d : dict) (k : string) (v : event) :
  dict_keys (dict_set d k v) =
  if set_mem k (dict_keys d) then dict_keys d else (dict_keys d ++ [k])%list.
Proof.
  induction d as [|[k' v'] d IH]; simpl; [reflexivity|].
  destruct (String.eqb_spec k k') as [->|Hne]; simpl; [reflexivity|].
  rewrite IH. now destruct (set_mem k (dict_keys d)).
Qed.

Lemma set_mem_in (k : string) (s : list string) :
  set_mem k s = true <-> In k s.
Proof.
  unfold set_mem. rewrite existsb_exists. split.
  - intros (x & Hx & E). apply String.eqb_eq in E. now subst.
  - intros H. exists k. split; [assumption|apply String.eqb_refl].
Qed.

Lemma set_mem_not_in (k : string) (s : list string) :
  set_mem k s = false <-> ~ In k s.
Proof.
  rewrite <- set_mem_in. destruct (set_mem k s); split; congruence.
Qed.

Lemma dict_set_in (d : dict) (k : string) (v : event) (k' : string) (v' : event) :
  In (k', v') (dict_set d k v) -> (k' = k /\ v' = v) \/ In (k', v') d.
Proof.
  induction d as [|[k0 v0] d IH]; simpl.
  - intros [E|[]]. injection E as <- <-. now left.
  - destruct (String.eqb_spec k k0) as [->|Hne]; simpl.
    + intros [E|H]; [injection E as <- <-; now left|tauto].
    + intros [E|H]; [tauto|]. destruct (IH H); tauto.
Qed.

Lemma dict_set_nodup (d : dict) (k : string) (v : event) :
  NoDup (dict_keys d) -> NoDup (dict_keys (dict_set d k v)).
Proof.
  intros H. rewrite dict_set_keys.
  destruct (set_mem k (dict_keys d)) eqn:E; [assumption|].
  apply set_mem_not_in in E.
  apply NoDup_app; [assumption|repeat constructor; tauto|].
  intros x Hx [<-|[]]. contradiction.
Qed.

Lemma dict_set_fresh (d : dict) (k : string) (v : event) :
  ~ In k (dict_keys d) -> dict_set d k v = (d ++ [(k, v)])%list.
Proof.
  induction d as [|[k' v'] d IH]; simpl; [reflexivity|].
  intros H. destruct (String.eqb_spec k k') as [->|Hne]; [tauto|].
  rewrite IH; tauto.
Qed.

Lemma events_by_uid_entries (events : list event) :
  Forall (keyed_entry events) (events_by_uid events)
  /\ NoDup (dict_keys (events_by_uid events)).
Proof.
  unfold events_by_uid.
  assert (H : forall l d,
             (forall e, In e l -> In e events) ->
             Forall (keyed_entry events) d /\ NoDup (dict_keys d) ->
             Forall (keyed_entry events)
                    (fold_left (fun d e => if has_uid e then dict_set d (uid_key e) e
                                           else d) l d)
             /\ NoDup (dict_keys
                         (fold_left (fun d e => if has_uid e
                                                then dict_set d (uid_key e) e
                                                else d) l d))).
  { induction l as [|e l IH]; intros d Hl Hd; simpl; [assumption|].
    apply IH; [intros; apply Hl; now right|].
    destruct (has_uid e) eqn:He; [|assumption].
    destruct Hd as [Hd Hn]. split; [|now apply dict_set_nodup].
    apply Forall_forall. intros [k' v'] Hin.
    apply dict_set_in in Hin. destruct Hin as [[-> ->]|Hin].
    - repeat split; simpl; auto. apply Hl. now left.
    - rewrite Forall_forall in Hd. now apply Hd. }
  apply H; [auto|]. split; constructor.
Qed.

Lemma events_by_uid_filter (events : list event) :
  events_by_uid (filter has_uid events) = events_by_uid events.
Proof.
  unfold events_by_uid. generalize (@nil (string * event)).
  induction events as [|e l IH]; intros d; simpl; [reflexivity|].
  destruct (has_uid e) eqn:He; simpl; [rewrite He|]; apply IH.
Qed.

Lemma events_by_uid_unique (events : list event) :
  unique_uids events ->
  events_by_uid events = map (fun e => (uid_key e, e)) events.
Proof.
  intros [Hk Hn]. unfold events_by_uid.
  assert (H : forall l d,
             Forall (fun e => has_uid e = true) l ->
             NoDup (dict_keys d ++ map uid_key l) ->
             fold_left (fun d e => if has_uid e then dict_set d (uid_key e) e
                                   else d) l d
             = (d ++ map (fun e => (uid_key e, e)) l)%list).
  { induction l as [|e l IH]; intros d Hl Hd; simpl.
    - now rewrite app_nil_r.
    - inversion Hl as [|? ? He Hl']; subst. rewrite He.
      rewrite dict_set_fresh.
      + rewrite IH; [now rewrite <- app_assoc|assumption|].
        unfold dict_keys. rewrite map_app. simpl. rewrite <- app_assoc. exact Hd.
      + apply NoDup_remove_2 in Hd. intros Hin. apply Hd.
        apply in_or_app. now left. }
  apply (H events []); assumption.
Qed.

Lemma unique_uids_keys (events : list event) :
  unique_uids events -> dict_keys (events_by_uid events) = map uid_key events.
Proof.
  intros H. rewrite events_by_uid_unique by assumption.
  unfold dict_keys. rewrite map_map. reflexivity.
Qed.

Lemma unique_uids_get (events : list event) (e : event) :
  unique_uids events -> In e events ->
  dict_get (events_by_uid events) (uid_key e) = Some e.
Proof.
  intros H Hin. apply dict_get_unique.
  - rewrite unique_uids_keys by assumption. apply H.
  - rewrite events_by_uid_unique by assumption.
    apply in_map_iff. now exists e.
Qed.

Lemma unique_uids_nodup (events : list event) :
  unique_uids events -> NoDup events.
Proof.
  intros [_ H]. now apply NoDup_map_inv in H.
Qed.

(** ** Event matcher *)

Lemma classify_range (event1 event2 : event) :
  let t := classify_event_changes event1 event2 in
  t = Modified \/ t = Moved \/ t = DurationChanged \/ t = Unchanged.
Proof.
  unfold classify_event_changes. rewrite classify_body_cases.
  destruct (dates_differ event1 event2).
  - destruct (all_present event1 event2); simpl; [|tauto].
    destruct (duration event1) as [d1|]; simpl; [|tauto].
    destruct (duration event2) as [d2|]; simpl; [|tauto].
    destruct (negb (d1 =? d2)); tauto.
  - destruct (code_texts_differ event1 event2); tauto.
Qed.

Lemma classify_self (ev : event) : classify_event_changes ev ev = Unchanged.
Proof.
  unfold classify_event_changes. rewrite classify_body_cases.
  unfold dates_differ. rewrite !py_ne_refl. simpl.
  unfold code_texts_differ. simpl. now rewrite !String.eqb_refl.
Qed.

Lemma classified_append (ch : changes) (t : change_type) (r : pair_change) :
  t = Modified \/ t = Moved \/ t = DurationChanged ->
  added (append_pair ch t r) = added ch
  /\ deleted (append_pair ch t r) = deleted ch
  /\ Permutation (classified (append_pair ch t r)) (classified ch ++ [r]).
Proof.
  unfold classified.
  intros [->|[->| ->]]; simpl; repeat split; auto.
  - rewrite <- !app_assoc. apply Permutation_app_head.
    cbn [app]. rewrite app_assoc. apply Permutation_cons_append.
  - rewrite <- !app_assoc. apply Permutation_app_head, Permutation_app_head.
    apply Permutation_cons_append.
  - rewrite !app_assoc. reflexivity.
Qed.

Lemma check_event2_step (d1 : dict) (ch : changes) (item : string * event) :
  let ch' := check_event2 d1 ch item in
  added ch' = (added ch ++ added_entry d1 item)%list
  /\ deleted ch' = deleted ch
  /\ Permutation (classified ch')
                 (classified ch
                  ++ match dict_get d1 (fst item) with
                     | Some event1 =>
                         if changed (event1, snd item)
                         then [mkPairChange event1 (snd item)
                                 (_get_detailed_property_changes event1 (snd item))
                                 (classify_event_changes event1 (snd item))
                                 (fst item)]
                         else []
                     | None => []
                     end).
Proof.
  destruct item as [k e2]. unfold check_event2, added_entry, changed.
  cbn [fst snd].
  destruct (dict_get d1 k) as [e1|].
  - destruct (classify_range e1 e2) as [E|[E|[E|E]]]; rewrite E;
      cbn [is_unchanged negb].
    + rewrite app_nil_r. apply classified_append; auto.
    + rewrite app_nil_r. apply classified_append; auto.
    + rewrite app_nil_r. apply classified_append; auto.
    + rewrite !app_nil_r. auto.
  - cbn. rewrite app_nil_r. auto.
Qed.

Lemma check_event2_fields (d1 : dict) (l : dict) (ch : changes) :
  let ch' := fold_left (check_event2 d1) l ch in
  added ch' = (added ch ++ flat_map (added_entry d1) l)%list
  /\ deleted ch' = deleted ch
  /\ Permutation (map pair_of (classified ch'))
                 (map pair_of (classified ch)
                  ++ filter changed
                       (flat_map (fun item : string * event =>
                                    match dict_get d1 (fst item) with
                                    | Some event1 => [(event1, snd item)]
                                    | None => []
                                    end) l)).
Proof.
  revert ch. induction l as [|item l IH]; intros ch; cbn [fold_left flat_map].
  - cbn. rewrite !app_nil_r. auto.
  - destruct (IH (check_event2 d1 ch item)) as (Ha & Hd & Hp).
    destruct (check_event2_step d1 ch item) as (Ha' & Hd' & Hp').
    cbv zeta. rewrite Ha, Hd, Ha', Hd'. rewrite <- app_assoc.
    repeat split; auto.
    etransitivity; [exact Hp|]. rewrite filter_app, app_assoc.
    apply Permutation_app_tail.
    etransitivity; [apply Permutation_map; exact Hp'|].
    rewrite map_app. apply Permutation_app_head.
    destruct (dict_get d1 (fst item)) as [e1|]; [|reflexivity].
    cbn [filter]. destruct (changed (e1, snd item)); reflexivity.
Qed.

Lemma check_event1_fields (d2 : dict) (l : dict) (ch : changes) :
  let ch' := fold_left (check_event1 d2) l ch in
  added ch' = added ch
  /\ deleted ch' = (deleted ch ++ flat_map (deleted_entry d2) l)%list
  /\ modified ch' = modified ch /\ moved ch' = moved ch
  /\ duration_changed ch' = duration_changed ch.
Proof.
  revert ch. induction l as [|[k e1] l IH]; intros ch; cbn [fold_left flat_map].
  - cbn. rewrite app_nil_r. auto.
  - destruct (IH (check_event1 d2 ch (k, e1))) as (Ha & Hd & Hm & Hv & Hc).
    cbv zeta. rewrite Ha, Hd, Hm, Hv, Hc. clear.
    unfold deleted_entry at 2. unfold check_event1. cbn [fst snd].
    destruct (dict_get d2 k); cbn; rewrite <- ?app_assoc; auto.
Qed.

Lemma detect_added (events1 events2 : list event) :
  added (detect_event_changes_detailed events1 events2) =
  flat_map (added_entry (events_by_uid events1)) (events_by_uid events2).
Proof.
  unfold detect_event_changes_detailed.
  destruct (check_event1_fields (events_by_uid events2) (events_by_uid events1)
              (fold_left (check_event2 (events_by_uid events1))
                         (events_by_uid events2) no_changes)) as (-> & _).
  destruct (check_event2_fields (events_by_uid events1) (events_by_uid events2)
              no_changes) as (-> & _).
  reflexivity.
Qed.

Lemma detect_deleted (events1 events2 : list event) :
  deleted (detect_event_changes_detailed events1 events2) =
  flat_map (deleted_entry (events_by_uid events2)) (events_by_uid events1).
Proof.
  unfold detect_event_changes_detailed.
  destruct (check_event1_fields (events_by_uid events2) (events_by_uid events1)
              (fold_left (check_event2 (events_by_uid events1))
                         (events_by_uid events2) no_changes)) as (_ & -> & _).
  destruct (check_event2_fields (events_by_uid events1) (events_by_uid events2)
              no_changes) as (_ & -> & _).
  reflexivity.
Qed.

(** The entries under [modified], [moved] and [duration_changed] are the
    matched pairs the classifier does not call [Unchanged]. *)
Lemma detect_classified (events1 events2 : list event) :
  Permutation
    (map pair_of (classified (detect_event_changes_detailed events1 events2)))
    (filter changed (matched_pairs events1 events2)).
Proof.
  unfold detect_event_changes_detailed, matched_pairs.
  destruct (check_event1_fields (events_by_uid events2) (events_by_uid events1)
              (fold_left (check_event2 (events_by_uid events1))
                         (events_by_uid events2) no_changes))
    as (_ & _ & Hm & Hv & Hc).
  unfold classified. rewrite Hm, Hv, Hc.
  destruct (check_event2_fields (events_by_uid events1) (events_by_uid events2)
              no_changes) as (_ & _ & Hp).
  exact Hp.
Qed.

Lemma matched_pairs_in (events1 events2 : list event) (p : event * event) :
  In p (matched_pairs events1 events2) <->
  exists k, dict_get (events_by_uid events1) k = Some (fst p)
            /\ In (k, snd p) (events_by_uid events2).
Proof.
  unfold matched_pairs. rewrite in_flat_map. split.
  - intros ([k e2] & Hin & Hp). simpl in Hp.
    destruct (dict_get (events_by_uid events1) k) as [e1|] eqn:E; [|contradiction].
    destruct Hp as [<-|[]]. exists k. simpl. auto.
  - intros (k & Hg & Hin). exists (k, snd p). split; [assumption|].
    simpl. rewrite Hg. left. now destruct p.
Qed.

Lemma entry_keyed (events : list event) (k : string) (e : event) :
  In (k, e) (events_by_uid events) ->
  In e events /\ has_uid e = true /\ uid_key e = k.
Proof.
  intros H. destruct (events_by_uid_entries events) as [Hf _].
  rewrite Forall_forall in Hf. exact (Hf (k, e) H).
Qed.

(** ** Self-diff *)

Lemma detect_self (events : list event) :
  detect_event_changes_detailed events events = no_changes.
Proof.
  unfold detect_event_changes_detailed.
  destruct (events_by_uid_entries events) as [_ Hn].
  assert (H2 : fold_left (check_event2 (events_by_uid events))
                         (events_by_uid events) no_changes = no_changes).
  { apply fold_left_invariant; [reflexivity|].
    intros ch [k e] Hin ->. unfold check_event2.
    rewrite (dict_get_unique _ _ _ Hn Hin), classify_self. reflexivity. }
  rewrite H2.
  apply fold_left_invariant; [reflexivity|].
  intros ch [k e] Hin ->. unfold check_event1.
  now rewrite (dict_get_unique _ _ _ Hn Hin).
Qed.

(** The self-diff of any list: no entry under any of the five keys, an
    empty chronological sequence, and an [unchanged] count of twice the
    length of the list. *)
Lemma self_diff (events : list event) :
  generate_event_semantic_diff events events =
  Ok (mkSemanticDiff (mkStatistics 0 0 0 0 0 (2 * len events)) no_changes []).
Proof.
  unfold generate_event_semantic_diff. rewrite detect_self.
  unfold compute_statistics, len. cbn [try_except bind _sort_changes_chronologically all_changes no_changes added deleted modified moved duration_changed collect_events collect_pairs map app list_sort List.length].
  change (Z.of_nat 0) with 0.
  replace (Z.of_nat (List.length events) + Z.of_nat (List.length events)
           - 0 - 0 - 0 - 0 - 0)
    with (2 * Z.of_nat (List.length events)) by lia.
  reflexivity.
Qed.

(** C1 (the code at the failing input).  The self-diff of the one-event
    list [[new_year]] has no change of any kind and an empty chronological
    sequence, but counts 2 unchanged events where the list holds 1. *)
Theorem self_diff_counts_unchanged_twice :
  generate_event_semantic_diff [new_year] [new_year] =
  Ok (mkSemanticDiff (mkStatistics 0 0 0 0 0 2) no_changes [])
  /\ unique_uids [new_year] /\ len [new_year] = 1.
Proof.
  split; [reflexivity|]. split; [|reflexivity].
  split; repeat constructor. simpl. tauto.
Qed.

(** ** Partition completeness *)

Lemma after_side (d1 l : dict) :
  Permutation (map snd l)
              (map ec_event (flat_map (added_entry d1) l)
               ++ map snd (flat_map (fun item : string * event =>
                                       match dict_get d1 (fst item) with
                                       | Some event1 => [(event1, snd item)]
                                       | None => []
                                       end) l)).
Proof.
  induction l as [|[k e] l IH]; cbn [map flat_map]; [constructor|].
  unfold added_entry at 1. cbn [fst snd].
  destruct (dict_get d1 k); cbn [map app].
  - now apply Permutation_cons_app.
  - now constructor.
Qed.

Lemma deleted_in (d2 l : dict) (e : event) :
  In e (map ec_event (flat_map (deleted_entry d2) l)) <->
  exists k, In (k, e) l /\ dict_get d2 k = None.
Proof.
  rewrite in_map_iff. split.
  - intros (c & <- & Hc). apply in_flat_map in Hc.
    destruct Hc as ([k e'] & Hin & Hc). unfold deleted_entry in Hc.
    cbn [fst snd] in Hc. destruct (dict_get d2 k) eqn:E; [contradiction|].
    destruct Hc as [<-|[]]. exists k. auto.
  - intros (k & Hin & Hk). exists (mkEventChange e Deleted k). split; [reflexivity|].
    apply in_flat_map. exists (k, e). split; [assumption|].
    unfold deleted_entry. cbn [fst snd]. rewrite Hk. now left.
Qed.

Lemma added_in (d1 l : dict) (e : event) :
  In e (map ec_event (flat_map (added_entry d1) l)) <->
  exists k, In (k, e) l /\ dict_get d1 k = None.
Proof.
  rewrite in_map_iff. split.
  - intros (c & <- & Hc). apply in_flat_map in Hc.
    destruct Hc as ([k e'] & Hin & Hc). unfold added_entry in Hc.
    cbn [fst snd] in Hc. destruct (dict_get d1 k) eqn:E; [contradiction|].
    destruct Hc as [<-|[]]. exists k. auto.
  - intros (k & Hin & Hk). exists (mkEventChange e Added k). split; [reflexivity|].
    apply in_flat_map. exists (k, e). split; [assumption|].
    unfold added_entry. cbn [fst snd]. rewrite Hk. now left.
Qed.

Lemma deleted_nodup (d2 l : dict) :
  NoDup (map snd l) -> NoDup (map ec_event (flat_map (deleted_entry d2) l)).
Proof.
  induction l as [|[k e] l IH]; cbn [map flat_map snd]; [constructor|].
  intros Hn. inversion Hn as [|? ? Hx Hl]; subst.
  unfold deleted_entry at 1. cbn [fst snd].
  destruct (dict_get d2 k); cbn [map app]; [now apply IH|].
  constructor; [|now apply IH].
  intros Hin. apply deleted_in in Hin. destruct Hin as (k' & Hin & _).
  apply Hx. change e with (snd (k', e)). now apply in_map.
Qed.

Lemma pairs_before_nodup (events1 events2 : list event) :
  NoDup (map fst (matched_pairs events1 events2)).
Proof.
  unfold matched_pairs.
  destruct (events_by_uid_entries events2) as [_ Hn].
  assert (Hk : forall k e, dict_get (events_by_uid events1) k = Some e ->
                           uid_key e = k).
  { intros k e H. apply dict_get_in in H. now apply entry_keyed in H. }
  revert Hn. generalize (events_by_uid events2) as l.
  induction l as [|[k e2] l IH]; cbn [map flat_map dict_keys fst]; [constructor|].
  intros Hn. inversion Hn as [|? ? Hx Hl]; subst.
  destruct (dict_get (events_by_uid events1) k) as [e1|] eqn:E;
    cbn [map app fst]; [|now apply IH].
  constructor; [|now apply IH].
  intros Hin. apply in_map_iff in Hin. destruct Hin as ([a b] & Ha & Hin).
  cbn [fst] in Ha. subst a.
  apply in_flat_map in Hin. destruct Hin as ([k' e'] & Hin & Hp).
  cbn [fst snd] in Hp.
  destruct (dict_get (events_by_uid events1) k') as [e1'|] eqn:E'; [|contradiction].
  destruct Hp as [Hp|[]]. injection Hp as -> _.
  apply Hk in E. apply Hk in E'. apply Hx.
  replace k with k' by congruence.
  change k' with (fst (k', e')). now apply in_map.
Qed.

(** C3 (as amended).  When, in each list, every event has a non-empty uid
    of its own, each event of [before] occurs exactly once among the deleted
    events and the before-sides of the matched pairs, and each event of
    [after] exactly once among the added events and the after-sides. *)
Theorem partition_of_uniquely_keyed_lists (before after : list event) :
  unique_uids before -> unique_uids after ->
  partition_complete before after.
Proof.
  intros Hb Ha. unfold partition_complete. cbv zeta.
  rewrite detect_added, detect_deleted. split.
  - apply NoDup_Permutation.
    + now apply unique_uids_nodup.
    + apply NoDup_app.
      * apply deleted_nodup. rewrite events_by_uid_unique by assumption.
        rewrite map_map. cbn [snd]. rewrite map_id. now apply unique_uids_nodup.
      * apply pairs_before_nodup.
      * intros e Hd Hp. apply deleted_in in Hd. destruct Hd as (k & Hin & Hk).
        apply in_map_iff in Hp. destruct Hp as (p & <- & Hp).
        apply matched_pairs_in in Hp. destruct Hp as (k' & Hg & Hin').
        apply dict_get_in in Hg. apply entry_keyed in Hin, Hg.
        assert (k = k') by (destruct Hin as (_ & _ & <-), Hg as (_ & _ & <-);
                            reflexivity).
        subst k'. apply dict_get_none in Hk. apply Hk.
        change k with (fst (k, snd p)). now apply in_map.
    + intros e. rewrite in_app_iff, deleted_in. split.
      * intros Hin.
        pose proof (unique_uids_get before e Hb Hin) as Hg.
        destruct (dict_get (events_by_uid after) (uid_key e)) as [e2|] eqn:E.
        -- right. apply in_map_iff. exists (e, e2). split; [reflexivity|].
           apply matched_pairs_in. exists (uid_key e). split; [assumption|].
           now apply dict_get_in.
        -- left. exists (uid_key e). split; [|assumption]. now apply dict_get_in.
      * intros [(k & Hin & _)|Hp].
        -- now apply entry_keyed in Hin.
        -- apply in_map_iff in Hp. destruct Hp as (p & <- & Hp).
           apply matched_pairs_in in Hp. destruct Hp as (k & Hg & _).
           apply dict_get_in in Hg. now apply entry_keyed in Hg.
  - pose proof (after_side (events_by_uid before) (events_by_uid after)) as H.
    rewrite (events_by_uid_unique after Ha) in H at 1.
    rewrite map_map in H. cbn [snd] in H. rewrite map_id in H. exact H.
Qed.

Lemma partition_of_uniquely_keyed_lists_witness :
  partition_complete [new_year; coming_of_age_day] [new_years_day].
Proof.
  apply partition_of_uniquely_keyed_lists.
  - split; [repeat constructor|].
    repeat constructor; simpl; [intros [H|[]]; discriminate H|tauto].
  - split; repeat constructor. simpl. tauto.
Defined.

(** C3 (as stated) fails: of two events filed under one uid only the last
    is reported, and an event without uid is reported nowhere. *)
Lemma partition_incomplete :
  ~ partition_complete [new_year; new_year_again] []
  /\ ~ partition_complete [constitution_day] [].
Proof.
  split; intros [H _]; apply Permutation_length in H; discriminate H.
Qed.

(** ** Events without uid *)

Lemma filter_len {A : Type} (f : A -> bool) (l : list A) :
  len (filter f l) + len (filter (fun x => negb (f x)) l) = len l.
Proof.
  unfold len. induction l as [|x l IH]; [reflexivity|].
  cbn [filter]. destruct (f x); cbn [negb List.length]; lia.
Qed.

Lemma generate_cases (events1 events2 : list event) :
  generate_event_semantic_diff events1 events2 =
  match _sort_changes_chronologically
          (detect_event_changes_detailed events1 events2) with
  | Ok sorted =>
      Ok (mkSemanticDiff
            (compute_statistics events1 events2
               (detect_event_changes_detailed events1 events2))
            (detect_event_changes_detailed events1 events2) sorted)
  | Raise _ => Raise ICSAnalysisError
  end.
Proof.
  unfold generate_event_semantic_diff.
  now destruct (_sort_changes_chronologically _).
Qed.

(** C10.  In the detailed matcher an event whose uid is empty or [None] is
    never paired, never listed as added or deleted and in no entry for a
    pair; dropping all such events from both lists leaves the changes, the
    chronological sequence and the five change counts as they are, and
    lowers the [unchanged] count by the number of events dropped. *)
Theorem unkeyed_events_ignored (events1 events2 : list event) :
  let keyed1 := filter has_uid events1 in
  let keyed2 := filter has_uid events2 in
  let ch := detect_event_changes_detailed events1 events2 in
  (forall p, In p (matched_pairs events1 events2) ->
             has_uid (fst p) = true /\ has_uid (snd p) = true)
  /\ (forall c, In c (added ch) \/ In c (deleted ch) ->
                has_uid (ec_event c) = true)
  /\ (forall c, In c (classified ch) ->
                has_uid (pc_event1 c) = true /\ has_uid (pc_event2 c) = true)
  /\ ch = detect_event_changes_detailed keyed1 keyed2
  /\ match generate_event_semantic_diff events1 events2,
           generate_event_semantic_diff keyed1 keyed2 with
     | Ok r, Ok r' =>
         sd_changes r = sd_changes r'
         /\ sd_sorted_changes r = sd_sorted_changes r'
         /\ st_added (sd_statistics r) = st_added (sd_statistics r')
         /\ st_deleted (sd_statistics r) = st_deleted (sd_statistics r')
         /\ st_modified (sd_statistics r) = st_modified (sd_statistics r')
         /\ st_moved (sd_statistics r) = st_moved (sd_statistics r')
         /\ st_duration_changed (sd_statistics r)
            = st_duration_changed (sd_statistics r')
         /\ st_unchanged (sd_statistics r)
            = st_unchanged (sd_statistics r')
              + len (filter unkeyed events1) + len (filter unkeyed events2)
     | Raise _, Raise _ => True
     | _, _ => False
     end.
Proof.
  cbv zeta.
  assert (Hpairs : forall p, In p (matched_pairs events1 events2) ->
                             has_uid (fst p) = true /\ has_uid (snd p) = true).
  { intros p Hp. apply matched_pairs_in in Hp. destruct Hp as (k & Hg & Hin).
    apply dict_get_in in Hg. apply entry_keyed in Hg, Hin. tauto. }
  assert (Heq : detect_event_changes_detailed events1 events2
                = detect_event_changes_detailed (filter has_uid events1)
                                                (filter has_uid events2)).
  { unfold detect_event_changes_detailed. now rewrite !events_by_uid_filter. }
  split; [exact Hpairs|]. split; [|split; [|split; [exact Heq|]]].
  - intros c [Hc|Hc].
    + rewrite detect_added in Hc.
      assert (Hin : In (ec_event c)
                       (map ec_event (flat_map (added_entry (events_by_uid events1))
                                               (events_by_uid events2))))
        by now apply in_map.
      apply added_in in Hin. destruct Hin as (k & Hin & _).
      now apply entry_keyed in Hin.
    + rewrite detect_deleted in Hc.
      assert (Hin : In (ec_event c)
                       (map ec_event (flat_map (deleted_entry (events_by_uid events2))
                                               (events_by_uid events1))))
        by now apply in_map.
      apply deleted_in in Hin. destruct Hin as (k & Hin & _).
      now apply entry_keyed in Hin.
  - intros c Hc. apply (in_map pair_of) in Hc.
    apply (Permutation_in _ (detect_classified events1 events2)) in Hc.
    apply filter_In in Hc. destruct Hc as [Hc _].
    exact (Hpairs _ Hc).
  - rewrite !generate_cases, <- Heq.
    destruct (_sort_changes_chronologically _); [|exact I].
    cbn. repeat split; try reflexivity.
    pose proof (filter_len has_uid events1).
    pose proof (filter_len has_uid events2).
    unfold unkeyed. lia.
Qed.

(** ** Ordering of datetimes *)

Lemma dt_sub_cases (a b : datetime) :
  dt_sub a b = if Bool.eqb (aware a) (aware b)
               then Ok (instant a - instant b) else Raise TypeError.
Proof.
  unfold dt_sub, aware, instant.
  destruct (utcoffset a), (utcoffset b); cbn; try reflexivity; f_equal; lia.
Qed.

Lemma dt_lt_cases (a b : datetime) :
  dt_lt a b = if Bool.eqb (aware a) (aware b)
              then Ok (instant a <? instant b) else Raise TypeError.
Proof.
  unfold dt_lt. rewrite dt_sub_cases.
  destruct (Bool.eqb (aware a) (aware b)); cbn; [|reflexivity].
  f_equal. destruct (Z.ltb_spec (instant a) (instant b));
    [apply Z.ltb_lt|apply Z.ltb_ge]; lia.
Qed.

Lemma dt_eq_cases (a b : datetime) :
  dt_eq a b = Bool.eqb (aware a) (aware b) && (instant a =? instant b).
Proof.
  unfold dt_eq. rewrite dt_sub_cases.
  destruct (Bool.eqb (aware a) (aware b)); cbn; [|reflexivity].
  destruct (Z.eqb_spec (instant a) (instant b)); [apply Z.eqb_eq|apply Z.eqb_neq]; lia.
Qed.

Lemma dt_lt_ok (a b : datetime) (r : bool) :
  dt_lt a b = Ok r <-> aware a = aware b /\ r = (instant a <? instant b).
Proof.
  rewrite dt_lt_cases. destruct (Bool.eqb (aware a) (aware b)) eqn:E.
  - apply Bool.eqb_prop in E. split; [intros [= <-]; auto|intros [_ ->]; auto].
  - split; [discriminate|]. intros [H _]. rewrite H, Bool.eqb_reflx in E.
    discriminate.
Qed.

(** ** [list.sort] *)

Section ListSortFacts.
Context {A : Type} (key : A -> datetime).

Abbreviation le := (not_after key).
Abbreviation eqk := (same_key key).

Lemma le_iff (x y : A) :
  le x y <-> aware (key x) = aware (key y) /\ instant (key x) <= instant (key y).
Proof.
  unfold not_after. rewrite dt_lt_ok. split.
  - intros [Ha Hr]. symmetry in Hr. apply Z.ltb_ge in Hr. auto.
  - intros [Ha Hr]. split; [auto|]. symmetry. now apply Z.ltb_ge.
Qed.

Lemma le_trans (x y z : A) : le x y -> le y z -> le x z.
Proof.
  rewrite !le_iff. intros [-> ?] [-> ?]. split; [reflexivity|lia].
Qed.

Lemma lt_le (x y : A) : dt_lt (key y) (key x) = Ok true -> le y x.
Proof.
  rewrite le_iff, dt_lt_ok. intros [-> H]. symmetry in H.
  apply Z.ltb_lt in H. split; [reflexivity|lia].
Qed.

Lemma sort_insert_perm (x : A) (l l' : list A) :
  sort_insert key x l = Ok l' -> Permutation (x :: l) l'.
Proof.
  revert l'. induction l as [|y l IH]; intros l'; cbn [sort_insert].
  - intros [= <-]. reflexivity.
  - destruct (dt_lt (key y) (key x)) as [[|]|]; cbn [bind]; try discriminate.
    + destruct (sort_insert key x l) as [r|]; cbn [bind]; [|discriminate].
      intros [= <-]. rewrite perm_swap. constructor. now apply IH.
    + intros [= <-]. reflexivity.
Qed.

Lemma list_sort_perm (l l' : list A) :
  list_sort key l = Ok l' -> Permutation l l'.
Proof.
  revert l'. induction l as [|x l IH]; intros l'; cbn [list_sort].
  - intros [= <-]. constructor.
  - destruct (list_sort key l) as [s|]; cbn [bind]; [|discriminate].
    intros H. apply sort_insert_perm in H.
    etransitivity; [|exact H]. constructor. now apply IH.
Qed.

Lemma sort_insert_sorted (x : A) (l l' : list A) :
  StronglySorted le l -> sort_insert key x l = Ok l' -> StronglySorted le l'.
Proof.
  revert l'. induction l as [|y l IH]; intros l' Hs; cbn [sort_insert].
  - intros [= <-]. repeat constructor.
  - inversion Hs as [|? ? Hl Hy]; subst.
    destruct (dt_lt (key y) (key x)) as [[|]|] eqn:E; cbn [bind];
      try discriminate.
    + destruct (sort_insert key x l) as [r|] eqn:Er; cbn [bind]; [|discriminate].
      intros [= <-]. constructor; [now apply IH|].
      apply (Permutation_Forall (sort_insert_perm _ _ _ Er)).
      constructor; [now apply lt_le|assumption].
    + intros [= <-]. constructor; [assumption|].
      constructor; [exact E|].
      eapply Forall_impl; [|exact Hy]. intros z Hz.
      now apply le_trans with y.
Qed.

Lemma list_sort_sorted (l l' : list A) :
  list_sort key l = Ok l' -> StronglySorted le l'.
Proof.
  revert l'. induction l as [|x l IH]; intros l'; cbn [list_sort].
  - intros [= <-]. constructor.
  - destruct (list_sort key l) as [s|]; cbn [bind]; [|discriminate].
    apply sort_insert_sorted. now apply IH.
Qed.

Lemma eqk_not_lt (k x y : A) :
  eqk k x = true -> eqk k y = true -> dt_lt (key y) (key x) = Ok true -> False.
Proof.
  unfold same_key. rewrite !dt_eq_cases, dt_lt_ok, !andb_true_iff, !Z.eqb_eq.
  intros [_ Hx] [_ Hy] [_ H]. symmetry in H. apply Z.ltb_lt in H. lia.
Qed.

Lemma sort_insert_stable (k x : A) (l l' : list A) :
  sort_insert key x l = Ok l' -> filter (eqk k) l' = filter (eqk k) (x :: l).
Proof.
  revert l'. induction l as [|y l IH]; intros l'; cbn [sort_insert].
  - intros [= <-]. reflexivity.
  - destruct (dt_lt (key y) (key x)) as [[|]|] eqn:E; cbn [bind];
      try discriminate.
    + destruct (sort_insert key x l) as [r|] eqn:Er; cbn [bind]; [|discriminate].
      intros [= <-]. cbn [filter]. rewrite (IH r eq_refl). cbn [filter].
      destruct (eqk k y) eqn:Ey, (eqk k x) eqn:Ex; try reflexivity.
      exfalso. exact (eqk_not_lt k x y Ex Ey E).
    + intros [= <-]. reflexivity.
Qed.

Lemma list_sort_stable (k : A) (l l' : list A) :
  list_sort key l = Ok l' -> filter (eqk k) l' = filter (eqk k) l.
Proof.
  revert l'. induction l as [|x l IH]; intros l'; cbn [list_sort].
  - intros [= <-]. reflexivity.
  - destruct (list_sort key l) as [s|]; cbn [bind]; [|discriminate].
    intros H. rewrite (sort_insert_stable k x s l' H). cbn [filter].
    now rewrite (IH s eq_refl).
Qed.

(** The sort returns when the keys are all naive or all aware. *)
Lemma sort_insert_returns (b : bool) (x : A) (l : list A) :
  aware (key x) = b -> Forall (fun y => aware (key y) = b) l ->
  exists l', sort_insert key x l = Ok l'.
Proof.
  intros Hx. induction l as [|y l IH]; intros Hl; cbn [sort_insert]; [eauto|].
  apply Forall_cons_iff in Hl. destruct Hl as [Hy Hl'].
  rewrite dt_lt_cases, Hy, Hx, Bool.eqb_reflx. cbn [bind].
  destruct (instant (key y) <? instant (key x)); [|eauto].
  destruct (IH Hl') as [r ->]. cbn [bind]. eauto.
Qed.

Lemma list_sort_returns (b : bool) (l : list A) :
  Forall (fun y => aware (key y) = b) l -> exists l', list_sort key l = Ok l'.
Proof.
  induction l as [|x l IH]; intros Hl; cbn [list_sort]; [eauto|].
  apply Forall_cons_iff in Hl. destruct Hl as [Hx Hl'].
  destruct (IH Hl') as [s Hs]. rewrite Hs. cbn [bind].
  apply (sort_insert_returns b); [exact Hx|].
  apply (Permutation_Forall (list_sort_perm _ _ Hs)). exact Hl'.
Qed.
End ListSortFacts.

(** ** Chronological sequence *)

Lemma StronglySorted_precedes {A : Type} (R : A -> A -> Prop) (l : list A)
      (x y : A) :
  StronglySorted R l -> precedes l x y -> R x y.
Proof.
  intros Hs (l1 & l2 & l3 & ->). induction l1 as [|a l1 IH]; cbn [app] in Hs.
  - inversion Hs as [|? ? _ Hf]; subst. rewrite Forall_forall in Hf.
    apply Hf. apply in_or_app. right. now left.
  - inversion Hs; subst. now apply IH.
Qed.

Lemma StronglySorted_filter {A : Type} (R : A -> A -> Prop) (f : A -> bool)
      (l : list A) :
  StronglySorted R l -> StronglySorted R (filter f l).
Proof.
  induction 1 as [|a l Hs IH Hf]; cbn [filter]; [constructor|].
  destruct (f a); [|assumption]. constructor; [assumption|].
  rewrite Forall_forall in *. intros x Hx. apply filter_In in Hx. now apply Hf.
Qed.

Lemma block_ranked (n : nat) (block rest : list sorted_change) :
  Forall (fun x => code_tie_rank (sc_change_type x) = n) block ->
  StronglySorted by_rank rest ->
  Forall (fun x => (n <= code_tie_rank (sc_change_type x))%nat) rest ->
  StronglySorted by_rank (block ++ rest)
  /\ Forall (fun x => (n <= code_tie_rank (sc_change_type x))%nat) (block ++ rest).
Proof.
  intros Hb Hs Hr. induction Hb as [|a block Ha Hb IH]; cbn [app]; [auto|].
  destruct IH as [IH1 IH2]. split.
  - constructor; [assumption|]. eapply Forall_impl; [|exact IH2].
    intros x Hx. unfold by_rank. now rewrite Ha.
  - constructor; [|assumption]. now rewrite Ha.
Qed.

Lemma Forall_rank_weaken (n m : nat) (l : list sorted_change) :
  (n <= m)%nat ->
  Forall (fun x => (m <= code_tie_rank (sc_change_type x))%nat) l ->
  Forall (fun x => (n <= code_tie_rank (sc_change_type x))%nat) l.
Proof.
  intros Hnm. apply Forall_impl. intros x Hx. lia.
Qed.

Lemma all_changes_ranked (ch : changes) :
  StronglySorted by_rank (all_changes ch).
Proof.
  unfold all_changes, collect_events, collect_pairs.
  assert (He : forall t l n, code_tie_rank t = n ->
             Forall (fun x => code_tie_rank (sc_change_type x) = n)
                    (map (fun c => mkSortedChange t (dtstart_or_min (ec_event c))
                                                  (OfEvent c)) l)).
  { intros t l n <-. apply Forall_forall. intros x Hx.
    apply in_map_iff in Hx. now destruct Hx as (c & <- & _). }
  assert (Hp : forall t l n, code_tie_rank t = n ->
             Forall (fun x => code_tie_rank (sc_change_type x) = n)
                    (map (fun c => mkSortedChange t (dtstart_or_min (pc_event2 c))
                                                  (OfPair c)) l)).
  { intros t l n <-. apply Forall_forall. intros x Hx.
    apply in_map_iff in Hx. now destruct Hx as (c & <- & _). }
  pose proof (Hp DurationChanged (duration_changed ch) 4%nat eq_refl) as H4.
  rewrite <- (app_nil_r (map _ (duration_changed ch))).
  destruct (block_ranked 4 _ [] H4 (SSorted_nil _) (Forall_nil _)) as [S4 F4].
  destruct (block_ranked 3 _ _ (Hp Moved (moved ch) 3%nat eq_refl) S4
              (Forall_rank_weaken 3 4 _ (le_S _ _ (le_n _)) F4)) as [S3 F3].
  destruct (block_ranked 2 _ _ (Hp Modified (modified ch) 2%nat eq_refl) S3
              (Forall_rank_weaken 2 3 _ (le_S _ _ (le_n _)) F3)) as [S2 F2].
  destruct (block_ranked 1 _ _ (He Deleted (deleted ch) 1%nat eq_refl) S2
              (Forall_rank_weaken 1 2 _ (le_S _ _ (le_n _)) F2)) as [S1 F1].
  destruct (block_ranked 0 _ _ (He Added (added ch) 0%nat eq_refl) S1
              (Forall_rank_weaken 0 1 _ (le_S _ _ (le_n _)) F1)) as [S0 _].
  exact S0.
Qed.

Lemma precedes_filter {A : Type} (f : A -> bool) (l : list A) (x y : A) :
  precedes l x y -> f x = true -> f y = true -> precedes (filter f l) x y.
Proof.
  intros (l1 & l2 & l3 & ->) Hx Hy.
  exists (filter f l1), (filter f l2), (filter f l3).
  rewrite filter_app. cbn [filter]. rewrite Hx, filter_app. cbn [filter].
  now rewrite Hy.
Qed.

(** C5 (as amended).  The sorter returns when the sort dates are all naive
    or all aware; what it returns holds every entry once, is in ascending
    order of the sort date, keeps entries of one sort date in the order they
    were collected in, and so lists them in the order Added, Deleted,
    Modified, Moved, DurationChanged. *)
Theorem chronological_sequence (ch : changes) :
  (forall b, Forall (fun x => aware (sort_key x) = b) (all_changes ch) ->
             exists out, _sort_changes_chronologically ch = Ok out)
  /\ (forall out, _sort_changes_chronologically ch = Ok out ->
        Permutation (all_changes ch) out
        /\ ascending out
        /\ stable (all_changes ch) out
        /\ tie_order code_tie_rank out).
Proof.
  unfold _sort_changes_chronologically. split.
  - intros b Hb. exact (list_sort_returns sort_key b _ Hb).
  - intros out H.
    assert (Hst : stable (all_changes ch) out)
      by (intros x; exact (list_sort_stable sort_key x _ _ H)).
    split; [exact (list_sort_perm sort_key _ _ H)|].
    split; [exact (list_sort_sorted sort_key _ _ H)|].
    split; [exact Hst|].
    intros x y Hp Hk.
    apply (precedes_filter (same_key sort_key x)) in Hp;
      [|apply dt_eq_refl|exact Hk].
    rewrite Hst in Hp.
    refine (StronglySorted_precedes by_rank _ x y _ Hp).
    apply StronglySorted_filter, all_changes_ranked.
Qed.

Lemma chronological_sequence_witness :
  _sort_changes_chronologically
    (detect_event_changes_detailed [coming_of_age_day] [substitute_holiday])
  = Ok [substitute_added; coming_of_age_deleted]
  /\ tie_order code_tie_rank [substitute_added; coming_of_age_deleted].
Proof.
  split; [reflexivity|].
  apply (chronological_sequence
           (detect_event_changes_detailed [coming_of_age_day] [substitute_holiday])).
  reflexivity.
Defined.

(** C5 (as stated) fails: an added and a deleted event that start on the
    same day come out with the added one first. *)
Lemma chronological_claim_fails :
  ~ chronological_claim
      (detect_event_changes_detailed [coming_of_age_day] [substitute_holiday]).
Proof.
  intros H.
  destruct (H [substitute_added; coming_of_age_deleted] eq_refl) as (_ & _ & Ht).
  assert (Hp : precedes [substitute_added; coming_of_age_deleted]
                        substitute_added coming_of_age_deleted)
    by (exists [], [], []; reflexivity).
  specialize (Ht _ _ Hp eq_refl). cbn in Ht. lia.
Qed.

(** ** Simple matcher: events without uid *)

Lemma mapM_in {A B : Type} (f : A -> result B) (l : list A) (l' : list B) (y : B) :
  mapM f l = Ok l' -> (In y l' <-> exists x, In x l /\ f x = Ok y).
Proof.
  revert l'. induction l as [|x l IH]; intros l'; cbn [mapM].
  - intros [= <-]. split; [intros []|intros (x & [] & _)].
  - destruct (f x) as [b|] eqn:E; cbn [bind]; [|discriminate].
    destruct (mapM f l) as [ys|]; cbn [bind]; [|discriminate].
    intros [= <-]. cbn [In]. rewrite (IH ys eq_refl). split.
    + intros [<-|(x' & Hx & Hf)]; [exists x; auto|exists x'; auto].
    + intros (x' & [<-|Hx] & Hf); [left; congruence|right; eauto].
Qed.

Lemma dict_get_set (d : dict) (k k' : string) (v : event) :
  dict_get (dict_set d k v) k' = if String.eqb k' k then Some v else dict_get d k'.
Proof.
  induction d as [|[k0 v0] d IH]; cbn [dict_set dict_get].
  - reflexivity.
  - destruct (String.eqb_spec k k0) as [->|Hne]; cbn [dict_get].
    + now destruct (String.eqb k' k0).
    + rewrite IH. destruct (String.eqb_spec k' k0) as [->|Hne'];
        [|reflexivity].
      now rewrite eqb_neq_false by congruence.
Qed.

Lemma dtstart_key_ok (e : event) (k : string) :
  dtstart_key e = Ok k -> k = start_key e.
Proof.
  unfold dtstart_key, start_key, getitem, lookup.
  destruct (dtstart e); cbn; congruence.
Qed.

Lemma dtstart_dict_get (l : list event) (d0 d : dict) (k : string) :
  foldM (fun d e => k <- dtstart_key e ;; Ok (dict_set d k e)) l d0 = Ok d ->
  dict_get d k = match last_with_start k l with
                 | Some e => Some e
                 | None => dict_get d0 k
                 end.
Proof.
  revert d0. induction l as [|e l IH]; intros d0; cbn [foldM last_with_start].
  - now intros [= <-].
  - destruct (dtstart_key e) as [k0|] eqn:E; cbn [bind]; [|discriminate].
    intros H. rewrite (IH _ H), dict_get_set.
    apply dtstart_key_ok in E. subst k0.
    destruct (last_with_start k l); [reflexivity|].
    now destruct (String.eqb k (start_key e)).
Qed.

Lemma last_with_start_some (k : string) (l : list event) (e : event) :
  last_with_start k l = Some e -> In e l /\ start_key e = k.
Proof.
  induction l as [|x l IH]; cbn [last_with_start]; [discriminate|].
  destruct (last_with_start k l) as [e'|].
  - intros [= ->]. destruct (IH eq_refl). split; [now right|assumption].
  - destruct (String.eqb_spec k (start_key x)); [|discriminate].
    intros [= ->]. split; [now left|auto].
Qed.

Lemma last_with_start_none (k : string) (l : list event) :
  last_with_start k l = None <-> forall e, In e l -> start_key e <> k.
Proof.
  induction l as [|x l IH]; cbn [last_with_start In]; [tauto|].
  destruct (last_with_start k l) as [e'|].
  - split; [discriminate|]. intros H. exfalso.
    destruct IH as [_ IH]. discriminate IH. intros e He. apply H. now right.
  - destruct (String.eqb_spec k (start_key x)) as [->|Hne].
    + split; [discriminate|]. intros H. exfalso. now apply (H x); [left|].
    + split; [|reflexivity]. intros _ e [<-|He]; [congruence|].
      now apply (proj1 IH).
Qed.

(** What the loop over the start texts on one side only reports. *)
Lemma start_only_entries (t : change_type) (mine theirs : list event)
      (d_mine d_theirs : dict) (out : list listed_event) (e : event) :
  dtstart_dict mine = Ok d_mine -> dtstart_dict theirs = Ok d_theirs ->
  mapM (fun k => ev <- subscript d_mine k ;; Ok (mkListed ev t))
       (filter (fun k => negb (String.eqb k ""))
               (set_diff (dict_keys d_mine) (dict_keys d_theirs))) = Ok out ->
  (In e (map le_event out) <->
   start_key e <> ""
   /\ last_with_start (start_key e) mine = Some e
   /\ forall e', In e' theirs -> start_key e' <> start_key e).
Proof.
  intros Hm Ht Ho.
  assert (Gm : forall k, dict_get d_mine k = last_with_start k mine).
  { intros k. rewrite (dtstart_dict_get _ _ _ k Hm). cbn.
    now destruct (last_with_start k mine). }
  assert (Gt : forall k, dict_get d_theirs k = last_with_start k theirs).
  { intros k. rewrite (dtstart_dict_get _ _ _ k Ht). cbn.
    now destruct (last_with_start k theirs). }
  rewrite in_map_iff. split.
  - intros (x & <- & Hx). apply (mapM_in _ _ _ _ Ho) in Hx.
    destruct Hx as (k & Hk & Hs).
    apply filter_In in Hk. destruct Hk as [Hk Hne].
    apply filter_In in Hk. destruct Hk as [_ Hk].
    unfold subscript in Hs. rewrite Gm in Hs.
    destruct (last_with_start k mine) as [ev|] eqn:El; cbn [bind] in Hs;
      [|discriminate].
    injection Hs as <-. cbn [le_event].
    destruct (last_with_start_some _ _ _ El) as [_ <-].
    apply negb_true_iff, String.eqb_neq in Hne.
    apply negb_true_iff, set_mem_not_in in Hk.
    rewrite <- dict_get_none, Gt in Hk.
    repeat split; auto. now apply last_with_start_none.
  - intros (Hne & Hl & Hn). exists (mkListed e t). split; [reflexivity|].
    apply (mapM_in _ _ _ _ Ho). exists (start_key e). split.
    + apply filter_In. split.
      * apply filter_In. split.
        -- destruct (set_mem (start_key e) (dict_keys d_mine)) eqn:E.
           ++ now apply set_mem_in.
           ++ apply set_mem_not_in in E. rewrite <- dict_get_none, Gm in E.
              congruence.
        -- apply negb_true_iff, set_mem_not_in.
           rewrite <- dict_get_none, Gt. now apply last_with_start_none.
      * now apply negb_true_iff, String.eqb_neq.
    + unfold subscript. now rewrite Gm, Hl.
Qed.

(** What the loops over the uid sets report has a uid. *)
Lemma uid_entries_keyed (t : change_type) (events : list event)
      (uids : list string) (out : list listed_event) (e : event) :
  mapM (fun uid => ev <- subscript (events_by_uid events) uid ;;
                   Ok (mkListed ev t)) uids = Ok out ->
  In e (map le_event out) -> has_uid e = true.
Proof.
  intros Ho He. apply in_map_iff in He. destruct He as (x & <- & Hx).
  apply (mapM_in _ _ _ _ Ho) in Hx. destruct Hx as (k & _ & Hs).
  unfold subscript in Hs.
  destruct (dict_get (events_by_uid events) k) as [ev|] eqn:E; cbn [bind] in Hs;
    [|discriminate].
  injection Hs as <-. cbn [le_event].
  apply dict_get_in in E. now apply entry_keyed in E.
Qed.

Ltac bind_ok H E :=
  match type of H with
  | bind ?m _ = Ok _ => destruct m eqn:E; cbn [bind] in H; [|discriminate H]
  end.

Lemma filter_unkeyed_in (events : list event) (e : event) :
  In e (filter (fun e => negb (has_uid e)) events) <->
  In e events /\ has_uid e = false.
Proof.
  rewrite filter_In, negb_true_iff. tauto.
Qed.

Lemma unkeyed_only (mine theirs : list event) (e : event) :
  (start_key e <> ""
   /\ last_with_start (start_key e) (filter (fun e => negb (has_uid e)) mine)
      = Some e
   /\ forall e', In e' (filter (fun e => negb (has_uid e)) theirs) ->
                 start_key e' <> start_key e)
  <-> (start_key e <> ""
       /\ last_with_start (start_key e) (filter unkeyed mine) = Some e
       /\ forall e', In e' theirs -> has_uid e' = false ->
                     start_key e' <> start_key e).
Proof.
  change (filter unkeyed mine) with (filter (fun e => negb (has_uid e)) mine).
  split; intros (H1 & H2 & H3); repeat split; auto.
  - intros e' Hin Hu. apply H3. now apply filter_unkeyed_in.
  - intros e' Hin. apply filter_unkeyed_in in Hin. now apply H3.
Qed.

(** C4 (as amended).  In [detect_event_changes] an event without uid is
    matched by its start alone, whatever its summary: it is listed as added
    exactly when it has a start, is the last event without uid of [after]
    with that start, and no event without uid of [before] has that start;
    and likewise as deleted with the two lists exchanged.  An event without
    uid and without a start is never listed. *)
Theorem unkeyed_matched_by_start (before after : list event)
        (ch : simple_changes) :
  detect_event_changes before after = Ok ch ->
  (forall e, has_uid e = false ->
     (In e (map le_event (s_added ch)) <->
      start_key e <> ""
      /\ last_with_start (start_key e) (filter unkeyed after) = Some e
      /\ forall e1, In e1 before -> has_uid e1 = false ->
                    start_key e1 <> start_key e))
  /\ (forall e, has_uid e = false ->
     (In e (map le_event (s_deleted ch)) <->
      start_key e <> ""
      /\ last_with_start (start_key e) (filter unkeyed before) = Some e
      /\ forall e2, In e2 after -> has_uid e2 = false ->
                    start_key e2 <> start_key e)).
Proof.
  unfold detect_event_changes, try_except.
  destruct (detect_event_changes_body before after) as [ch'|] eqn:H;
    [|discriminate].
  intros [= <-]. unfold detect_event_changes_body in H.
  bind_ok H Ea. bind_ok H Ed. bind_ok H Ec. bind_ok H E1. bind_ok H E2.
  bind_ok H Ea'. bind_ok H Ed'. bind_ok H Sa. bind_ok H Sd. bind_ok H Sm.
  injection H as <-. cbn [s_added s_deleted].
  pose proof (fun e => start_only_entries Added _ _ _ _ _ e E2 E1 Ea') as Ha'.
  pose proof (fun e => start_only_entries Deleted _ _ _ _ _ e E1 E2 Ed') as Hd'.
  pose proof (fun e => uid_entries_keyed Added after _ _ e Ea) as Ka.
  pose proof (fun e => uid_entries_keyed Deleted before _ _ e Ed) as Kd.
  apply list_sort_perm in Sa, Sd.
  apply (Permutation_map le_event) in Sa, Sd.
  split; intros e He.
  - rewrite <- (unkeyed_only after before e), <- Ha'.
    split.
    + intros Hin. apply (Permutation_in _ (Permutation_sym Sa)) in Hin.
      rewrite map_app in Hin. apply in_app_or in Hin.
      destruct Hin as [Hin|Hin]; [|exact Hin].
      apply Ka in Hin. congruence.
    + intros Hin. apply (Permutation_in _ Sa). rewrite map_app.
      apply in_or_app. now right.
  - rewrite <- (unkeyed_only before after e), <- Hd'.
    split.
    + intros Hin. apply (Permutation_in _ (Permutation_sym Sd)) in Hin.
      rewrite map_app in Hin. apply in_app_or in Hin.
      destruct Hin as [Hin|Hin]; [|exact Hin].
      apply Kd in Hin. congruence.
    + intros Hin. apply (Permutation_in _ Sd). rewrite map_app.
      apply in_or_app. now right.
Qed.

Lemma unkeyed_matched_by_start_witness :
  exists ch,
    detect_event_changes [constitution_day]
                         [constitution_day_renamed; greenery_day] = Ok ch
    /\ In greenery_day (map le_event (s_added ch)).
Proof.
  eexists. split; [reflexivity|].
  apply (unkeyed_matched_by_start
           [constitution_day] [constitution_day_renamed; greenery_day] _ eq_refl);
    [reflexivity|].
  split; [discriminate|]. split; [reflexivity|].
  intros e1 Hin Hu Hk. destruct Hin as [E|[]].
  subst e1. discriminate Hk.
Defined.

(** C4 (as stated) fails.  In [detect_event_changes] two events without uid
    that start on the same day under different summaries are matched, though
    their fallback keys differ; in [detect_event_changes_detailed] an event
    without uid is left out of the report with no event on the other side
    sharing its fallback key. *)
Lemma fallback_claim_fails :
  (exists ch,
      detect_event_changes [constitution_day] [constitution_day_renamed] = Ok ch
      /\ ~ fallback_claim (map le_event (s_added ch)) (map le_event (s_deleted ch))
                          [constitution_day] [constitution_day_renamed])
  /\ (let ch := detect_event_changes_detailed [constitution_day] [greenery_day] in
      ~ fallback_claim (map ec_event (added ch)) (map ec_event (deleted ch))
                       [constitution_day] [greenery_day]).
Proof.
  split.
  - exists (mkSimpleChanges [] [] [] []). split; [reflexivity|]. intros [H _].
    destruct (H constitution_day_renamed (or_introl eq_refl) eq_refl) as [H' _].
    destruct (H' (fun F : False => F)) as (e1 & Hin & _ & Hk).
    destruct Hin as [E|[]]. subst e1. vm_compute in Hk. congruence.
  - cbv zeta. intros [H _].
    destruct (H greenery_day (or_introl eq_refl) eq_refl) as [H' _].
    destruct (H' (fun F : False => F)) as (e1 & Hin & _ & Hk).
    destruct Hin as [E|[]]. subst e1. vm_compute in Hk. congruence.
Qed.

(** ** Canonicalization adapter *)

Section AdapterFacts.
Variable strptime : string -> string -> result datetime.
Variable dateutil_parse : option (string -> result datetime).
Variable uuid4 : nat -> string.
Variable py_format : json -> string.

Abbreviation parse := (_parse_aws_datetime strptime dateutil_parse).
Abbreviation canonical := (canonical_event strptime dateutil_parse uuid4).

Lemma parse_returns (v : json) : exists r, parse v = Ok r.
Proof.
  unfold _parse_aws_datetime, try_except.
  destruct (parse_aws_datetime_body strptime dateutil_parse v); eauto.
Qed.

Lemma try_formats_unparsable (s : string) (fmts : list string) :
  (forall fmt, In fmt fmts -> exists e, strptime s fmt = Raise e) ->
  try_formats strptime (JStr s) fmts = Ok None
  \/ exists e, try_formats strptime (JStr s) fmts = Raise e.
Proof.
  induction fmts as [|fmt fmts IH]; intros H; cbn [try_formats strptime_py].
  - now left.
  - destruct (H fmt (or_introl eq_refl)) as [e ->].
    destruct e; try (right; eauto; fail).
    apply IH. intros f Hf. apply H. now right.
Qed.

Lemma parse_unparsable (s : string) :
  unparsable strptime dateutil_parse s -> parse (JStr s) = Ok None.
Proof.
  intros [Hf Hd]. unfold _parse_aws_datetime, parse_aws_datetime_body.
  destruct (negb (json_truthy (JStr s))); [reflexivity|].
  destruct (try_formats_unparsable s formats Hf) as [-> | [e ->]];
    cbn [bind try_except]; [|reflexivity].
  unfold dateutil_fallback. destruct dateutil_parse as [p|]; [|reflexivity].
  destruct Hd as [e ->]. reflexivity.
Qed.

Lemma normalize_event_step (n : nat) (acc : list normalized_event) (ev : json) :
  is_object ev ->
  normalize_event strptime dateutil_parse uuid4 (n, acc) ev
  = Ok (S n, (acc ++ [canonical n ev])%list).
Proof.
  intros [l ->]. unfold normalize_event, canonical_event, or_null, field_of.
  cbn [json_get bind].
  destruct (parse_returns (match assoc "start" l with
                           | Some v => v | None => JNull end)) as [r1 ->].
  destruct (parse_returns (match assoc "end" l with
                           | Some v => v | None => JNull end)) as [r2 ->].
  reflexivity.
Qed.

Lemma normalize_events_fold (evs : list json) (n : nat)
      (acc : list normalized_event) :
  Forall is_object evs ->
  foldM (normalize_event strptime dateutil_parse uuid4) evs (n, acc)
  = Ok ((n + List.length evs)%nat,
        (acc ++ canonical_from strptime dateutil_parse uuid4 n evs)%list).
Proof.
  revert n acc. induction evs as [|ev evs IH]; intros n acc H;
    cbn [foldM canonical_from List.length].
  - now rewrite Nat.add_0_r, app_nil_r.
  - apply Forall_cons_iff in H. destruct H as [He Hr].
    rewrite normalize_event_step by assumption. cbn [bind].
    rewrite IH by assumption. rewrite <- app_assoc, Nat.add_succ_r.
    reflexivity.
Qed.

(** A document whose ['events'] is a non-empty array of records yields
    one canonical event per record, in order. *)
Lemma normalize_events (calendar_data : json) (evs : list json) :
  json_get calendar_data "events" (JArr []) = Ok (JArr evs) ->
  evs <> [] -> Forall is_object evs ->
  normalize_aws_calendar_to_ics strptime dateutil_parse uuid4 py_format
                                calendar_data
  = Ok (canonical_from strptime dateutil_parse uuid4 0 evs).
Proof.
  intros Hg Hne Ho. unfold normalize_aws_calendar_to_ics, normalize_body.
  rewrite Hg. cbn [bind json_truthy].
  destruct evs as [|ev evs]; [congruence|]. cbn [negb json_iter bind].
  rewrite normalize_events_fold by assumption. reflexivity.
Qed.

Lemma canonical_from_nth (evs : list json) (n i : nat) :
  nth_error (canonical_from strptime dateutil_parse uuid4 n evs) i
  = option_map (canonical (n + i)) (nth_error evs i).
Proof.
  revert n i. induction evs as [|ev evs IH]; intros n [|i];
    cbn [canonical_from nth_error option_map]; try reflexivity.
  - now rewrite Nat.add_0_r.
  - rewrite IH. now rewrite Nat.add_succ_r.
Qed.

Lemma canonical_from_length (evs : list json) (n : nat) :
  List.length (canonical_from strptime dateutil_parse uuid4 n evs)
  = List.length evs.
Proof.
  revert n. induction evs as [|ev evs IH]; intros n;
    cbn [canonical_from List.length]; [reflexivity|]. now rewrite IH.
Qed.

(** The old format: the periods that have a start and an end yield the
    canonical events, in their order, and nothing raises. *)
Lemma normalize_periods_fold (calendar_data : json) (periods : list json)
      (n : nat) (acc : list normalized_event) :
  is_object calendar_data -> Forall is_object periods ->
  foldM (normalize_period strptime dateutil_parse uuid4 py_format calendar_data)
        periods (n, acc)
  = Ok ((n + List.length (filter complete_period periods))%nat,
        (acc ++ canonical_periods_from strptime dateutil_parse uuid4 py_format
                                        calendar_data n periods)%list).
Proof.
  intros [c ->] H. revert n acc.
  induction periods as [|period periods IH]; intros n acc;
    cbn [foldM filter canonical_periods_from List.length].
  - now rewrite app_nil_r, Nat.add_0_r.
  - apply Forall_cons_iff in H. destruct H as [[l ->] Hr].
    unfold normalize_period at 1. cbn [json_get bind].
    assert (Ec : complete_period (JObj l)
                 = json_truthy (match assoc "start" l with
                                | Some v => v | None => JNull end)
                   && json_truthy (match assoc "end" l with
                                   | Some v => v | None => JNull end))
      by reflexivity.
    rewrite <- Ec. destruct (complete_period (JObj l)).
    + unfold canonical_period at 1. cbn [field_of or_null].
      destruct (parse_returns (match assoc "start" l with
                               | Some v => v | None => JNull end)) as [r1 E1].
      destruct (parse_returns (match assoc "end" l with
                               | Some v => v | None => JNull end)) as [r2 E2].
      unfold or_null. rewrite E1, E2. cbn [bind].
      rewrite (IH Hr). cbn [List.length].
      rewrite <- app_assoc, Nat.add_succ_r. reflexivity.
    + apply (IH Hr).
Qed.

Lemma canonical_periods_nth (calendar_data : json) (periods : list json)
      (n i : nat) :
  nth_error (canonical_periods_from strptime dateutil_parse uuid4 py_format
                                    calendar_data n periods) i
  = option_map (canonical_period strptime dateutil_parse uuid4 py_format
                                 calendar_data (n + i))
               (nth_error (filter complete_period periods) i).
Proof.
  revert n i. induction periods as [|period periods IH]; intros n i;
    cbn [canonical_periods_from filter].
  - now destruct i.
  - destruct (complete_period period); [|apply IH].
    destruct i as [|i]; cbn [nth_error option_map].
    + now rewrite Nat.add_0_r.
    + rewrite IH. now rewrite Nat.add_succ_r.
Qed.

Lemma canonical_periods_length (calendar_data : json) (periods : list json)
      (n : nat) :
  List.length (canonical_periods_from strptime dateutil_parse uuid4 py_format
                                      calendar_data n periods)
  = List.length (filter complete_period periods).
Proof.
  revert n. induction periods as [|period periods IH]; intros n;
    cbn [canonical_periods_from filter]; [reflexivity|].
  destruct (complete_period period); cbn [List.length]; now rewrite IH.
Qed.

Lemma normalize_schedule (c sch : list (string * json)) (periods : list json) :
  json_truthy (match assoc "events" c with Some v => v | None => JArr [] end)
  = false ->
  assoc "schedule" c = Some (JObj sch) -> sch <> [] ->
  json_get (JObj sch) "periods" (JArr []) = Ok (JArr periods) ->
  Forall is_object periods ->
  normalize_aws_calendar_to_ics strptime dateutil_parse uuid4 py_format (JObj c)
  = Ok (canonical_periods_from strptime dateutil_parse uuid4 py_format
                               (JObj c) 0 periods).
Proof.
  intros He Hs Hne Hp Ho.
  unfold normalize_aws_calendar_to_ics, normalize_body.
  cbn [json_get bind]. rewrite He, Hs. cbn [negb json_truthy].
  destruct sch as [|x sch]; [congruence|]. rewrite Hp. cbn [bind json_iter].
  rewrite (normalize_periods_fold (JObj c) periods 0 []
             (ex_intro _ c eq_refl) Ho).
  reflexivity.
Qed.
End AdapterFacts.

(** C8.  [_parse_aws_datetime] returns on every value, and returns [None]
    for a text no known format reads.  For a document whose ['events'] is a
    non-empty array of records the adapter returns one canonical event per
    record, whose start (end) is [None] when the record's start (end) is
    such a text.  For a document in the old format, with a schedule of
    periods, it returns one canonical event per period that has a start and
    an end, in their order, and the start (end) of the event is [None] when
    that of its period is such a text. *)
Theorem unparsable_dates_become_none
        (strptime : string -> string -> result datetime)
        (dateutil_parse : option (string -> result datetime))
        (uuid4 : nat -> string) (py_format : json -> string) :
  (forall v, exists r, _parse_aws_datetime strptime dateutil_parse v = Ok r)
  /\ (forall s, unparsable strptime dateutil_parse s ->
                _parse_aws_datetime strptime dateutil_parse (JStr s) = Ok None)
  /\ (forall calendar_data evs,
        json_get calendar_data "events" (JArr []) = Ok (JArr evs) ->
        evs <> [] -> Forall is_object evs ->
        exists out,
          normalize_aws_calendar_to_ics strptime dateutil_parse uuid4 py_format
                                        calendar_data = Ok out
          /\ List.length out = List.length evs
          /\ forall i ev e s,
               nth_error evs i = Some ev -> nth_error out i = Some e ->
               unparsable strptime dateutil_parse s ->
               (field_of ev "start" = Some (JStr s) -> n_dtstart e = None)
               /\ (field_of ev "end" = Some (JStr s) -> n_dtend e = None))
  /\ (forall c sch periods,
        json_truthy (match assoc "events" c with Some v => v | None => JArr [] end)
        = false ->
        assoc "schedule" c = Some (JObj sch) -> sch <> [] ->
        json_get (JObj sch) "periods" (JArr []) = Ok (JArr periods) ->
        Forall is_object periods ->
        exists out,
          normalize_aws_calendar_to_ics strptime dateutil_parse uuid4 py_format
                                        (JObj c) = Ok out
          /\ List.length out = List.length (filter complete_period periods)
          /\ forall i period e s,
               nth_error (filter complete_period periods) i = Some period ->
               nth_error out i = Some e ->
               unparsable strptime dateutil_parse s ->
               (field_of period "start" = Some (JStr s) -> n_dtstart e = None)
               /\ (field_of period "end" = Some (JStr s) -> n_dtend e = None)).
Proof.
  split; [apply parse_returns|]. split; [apply parse_unparsable|].
  split.
  - intros calendar_data evs Hg Hne Ho.
    exists (canonical_from strptime dateutil_parse uuid4 0 evs).
    split; [now apply normalize_events|].
    split; [apply canonical_from_length|].
    intros i ev e s Hev He Hs. rewrite canonical_from_nth, Hev in He.
    cbn [option_map] in He. injection He as <-.
    unfold canonical_event. cbn [n_dtstart n_dtend].
    split; intros ->; cbn [or_null]; now rewrite parse_unparsable.
  - intros c sch periods Hev Hsch Hne Hp Ho.
    exists (canonical_periods_from strptime dateutil_parse uuid4 py_format
                                   (JObj c) 0 periods).
    split; [now apply (normalize_schedule _ _ _ _ c sch)|].
    split; [apply canonical_periods_length|].
    intros i period e s Hi He Hu. rewrite canonical_periods_nth, Hi in He.
    cbn [option_map] in He. injection He as <-.
    unfold canonical_period. cbn [n_dtstart n_dtend].
    split; intros ->; cbn [or_null]; now rewrite parse_unparsable.
Qed.

Lemma unparsable_dates_become_none_witness :
  (exists e rest,
      normalize_aws_calendar_to_ics strptime_none None uuids_a (fun _ => "")
                                    maintenance_calendar = Ok (e :: rest)
      /\ n_dtstart e = None)
  /\ exists first e rest,
       normalize_aws_calendar_to_ics strptime_january None uuids_count
                                     (fun _ => "") schedule_calendar
       = Ok (first :: e :: rest)
       /\ n_dtend e = None.
Proof.
  split.
  - destruct (unparsable_dates_become_none strptime_none None uuids_a
                (fun _ => "")) as (_ & _ & H & _).
    destruct (H maintenance_calendar _ eq_refl) as (out & Ho & Hl & Hn).
    + discriminate.
    + repeat constructor; eexists; reflexivity.
    + destruct out as [|e rest]; [discriminate Hl|].
      exists e, rest. split; [exact Ho|].
      apply (Hn 0%nat _ e "next week" eq_refl eq_refl); [|reflexivity].
      split; [|exact I]. intros fmt _. exists ValueError. reflexivity.
  - destruct (unparsable_dates_become_none strptime_january None uuids_count
                (fun _ => "")) as (_ & _ & _ & H).
    destruct (H calendar_fields schedule_fields schedule_periods
                eq_refl eq_refl) as (out & Ho & Hl & Hn).
    + discriminate.
    + reflexivity.
    + repeat constructor; eexists; reflexivity.
    + destruct out as [|first [|e rest]]; [discriminate Hl|discriminate Hl|].
      exists first, e, rest. split; [exact Ho|].
      refine (proj2 (Hn 1%nat _ e "someday" eq_refl eq_refl _) eq_refl).
      split; [|exact I]. intros fmt _.
      unfold strptime_january. exists ValueError.
      destruct (String.eqb fmt "%Y-%m-%d"); reflexivity.
Defined.

Lemma append_inj (p a b : string) : (p ++ a)%string = (p ++ b)%string -> a = b.
Proof.
  induction p as [|c p IH]; cbn [append]; [auto|]. intros [= H]. now apply IH.
Qed.

(** C9 (as amended).  For a record without ['id'] the canonical uid is
    ["aws-change-calendar-"] followed by the value [uuid.uuid4()] returns on
    that turn of the loop: two runs on one document give the record the same
    uid exactly when the generator returns the same value in both.  A record
    with an ['id'] keeps it in every run. *)
Theorem placeholder_uid_follows_generator
        (strptime : string -> string -> result datetime)
        (dateutil_parse : option (string -> result datetime))
        (py_format : json -> string) (uuid4 uuid4' : nat -> string)
        (calendar_data : json) (evs : list json) :
  json_get calendar_data "events" (JArr []) = Ok (JArr evs) ->
  evs <> [] -> Forall is_object evs ->
  exists out out',
    normalize_aws_calendar_to_ics strptime dateutil_parse uuid4 py_format
                                  calendar_data = Ok out
    /\ normalize_aws_calendar_to_ics strptime dateutil_parse uuid4' py_format
                                     calendar_data = Ok out'
    /\ forall i ev, nth_error evs i = Some ev ->
         exists e e',
           nth_error out i = Some e /\ nth_error out' i = Some e'
           /\ match field_of ev "id" with
              | Some v => n_uid e = v /\ n_uid e' = v
              | None =>
                  n_uid e = JStr (uid_prefix ++ uuid4 i)
                  /\ n_uid e' = JStr (uid_prefix ++ uuid4' i)
                  /\ (n_uid e = n_uid e' <-> uuid4 i = uuid4' i)
              end.
Proof.
  intros Hg Hne Ho.
  exists (canonical_from strptime dateutil_parse uuid4 0 evs),
         (canonical_from strptime dateutil_parse uuid4' 0 evs).
  split; [now apply normalize_events|]. split; [now apply normalize_events|].
  intros i ev Hev.
  exists (canonical_event strptime dateutil_parse uuid4 i ev),
         (canonical_event strptime dateutil_parse uuid4' i ev).
  rewrite !canonical_from_nth, Hev. cbn [option_map Nat.add].
  split; [reflexivity|]. split; [reflexivity|].
  unfold canonical_event. cbn [n_uid].
  destruct (field_of ev "id"); [auto|].
  split; [reflexivity|]. split; [reflexivity|]. split.
  - intros H. apply (append_inj uid_prefix). congruence.
  - now intros ->.
Qed.

Lemma placeholder_uid_follows_generator_witness :
  exists e e' rest rest',
    normalize_aws_calendar_to_ics strptime_none None uuids_a (fun _ => "")
                                  maintenance_calendar = Ok (e :: rest)
    /\ normalize_aws_calendar_to_ics strptime_none None uuids_b (fun _ => "")
                                     maintenance_calendar = Ok (e' :: rest')
    /\ n_uid e = JStr (uid_prefix ++ uuids_a 0)
    /\ n_uid e' = JStr (uid_prefix ++ uuids_b 0).
Proof.
  destruct (placeholder_uid_follows_generator strptime_none None (fun _ => "")
              uuids_a uuids_b maintenance_calendar _ eq_refl)
    as (out & out' & Ho & Ho' & H).
  - discriminate.
  - repeat constructor; eexists; reflexivity.
  - destruct (H 0%nat _ eq_refl) as (e & e' & He & He' & Hu & Hu' & _).
    destruct out as [|x rest]; [discriminate He|].
    destruct out' as [|x' rest']; [discriminate He'|].
    injection He as ->. injection He' as ->.
    exists e, e', rest, rest'. auto.
Defined.

(** C9 (as stated) fails: with two generators that return different
    values, the two runs give the record without ['id'] different uids. *)
Lemma deterministic_uid_claim_fails :
  ~ deterministic_uid_claim maintenance_calendar.
Proof.
  intros H.
  specialize (H strptime_none None (fun _ => "") uuids_a uuids_b _ _
                eq_refl eq_refl).
  vm_compute in H. congruence.
Qed.

(** * Further properties of the diff engine *)

(** ** Exchanging the two sides *)

Lemma dt_eq_sym (a b : datetime) : dt_eq a b = dt_eq b a.
Proof.
  rewrite !dt_eq_cases.
  replace (Bool.eqb (aware b) (aware a)) with (Bool.eqb (aware a) (aware b))
    by (now destruct (aware a), (aware b)).
  now rewrite Z.eqb_sym.
Qed.

Lemma py_ne_sym (v w : pyval) : py_ne v w = py_ne w v.
Proof.
  destruct v, w; cbn [py_ne]; try reflexivity.
  - now rewrite String.eqb_sym.
  - now rewrite dt_eq_sym.
Qed.

Lemma classify_swap (event1 event2 : event) :
  classify_event_changes event2 event1 = classify_event_changes event1 event2.
Proof.
  unfold classify_event_changes. rewrite !classify_body_cases.
  assert (Hd : dates_differ event2 event1 = dates_differ event1 event2).
  { unfold dates_differ.
    now rewrite (py_ne_sym (get event2 Dtstart)), (py_ne_sym (get event2 Dtend)). }
  assert (Hp : all_present event2 event1 = all_present event1 event2).
  { unfold all_present.
    destruct (truthy (get event1 Dtstart)), (truthy (get event1 Dtend)),
      (truthy (get event2 Dtstart)), (truthy (get event2 Dtend)); reflexivity. }
  assert (Ht : code_texts_differ event2 event1 = code_texts_differ event1 event2).
  { unfold code_texts_differ. apply existsb_ext_in. intros p _.
    now rewrite String.eqb_sym. }
  rewrite Hd, Hp, Ht.
  destruct (dates_differ event1 event2); [|reflexivity].
  destruct (all_present event1 event2); [|reflexivity].
  destruct (duration event1) as [d1|], (duration event2) as [d2|];
    cbn [bind]; try reflexivity.
  now rewrite Z.eqb_sym.
Qed.

(** The classifier does not depend on the direction of the comparison:
    [classify_event_changes] gives the same label for a pair of events and
    for the pair read the other way round. *)
Theorem classify_symmetric (event1 event2 : event) :
  classify_event_changes event2 event1 = classify_event_changes event1 event2.
Proof.
  apply classify_swap.
Qed.

Lemma string_entry_swap (p : prop) (s1 s2 : string) :
  (if negb (String.eqb s2 s1)
   then [mkPropertyChange p (Some s2) (Some s1) KString] else [])
  = map swap_change
        (if negb (String.eqb s1 s2)
         then [mkPropertyChange p (Some s1) (Some s2) KString] else []).
Proof.
  rewrite String.eqb_sym. now destruct (negb (String.eqb s1 s2)).
Qed.

Lemma property_entry_swap (event1 event2 : event) (p : prop) :
  property_entry event2 event1 p = map swap_change (property_entry event1 event2 p).
Proof.
  unfold property_entry.
  destruct (get event1 p) as [|s1|d1], (get event2 p) as [|s2|d2];
    cbv beta iota zeta; try apply string_entry_swap.
  cbn [py_ne truthy]. rewrite dt_eq_sym. now destruct (negb (dt_eq d1 d2)).
Qed.

Lemma map_flat_map {A B C : Type} (f : B -> C) (g : A -> list B) (l : list A) :
  map f (flat_map g l) = flat_map (fun x => map f (g x)) l.
Proof.
  induction l as [|x l IH]; cbn [flat_map map]; [reflexivity|].
  now rewrite map_app, IH.
Qed.

(** Comparing in the other direction gives the same entries with old and
    new value exchanged. *)
Theorem property_changes_swap (event1 event2 : event) :
  _get_detailed_property_changes event2 event1
  = map swap_change (_get_detailed_property_changes event1 event2).
Proof.
  unfold _get_detailed_property_changes. rewrite map_flat_map.
  apply flat_map_ext. intros p. apply property_entry_swap.
Qed.

Lemma in_dict_get (d : dict) (k : string) (v : event) :
  NoDup (dict_keys d) -> (In (k, v) d <-> dict_get d k = Some v).
Proof.
  intros H. split; [now apply dict_get_unique|apply dict_get_in].
Qed.

Lemma matched_pairs_nodup (events1 events2 : list event) :
  NoDup (matched_pairs events1 events2).
Proof.
  apply (NoDup_map_inv fst). apply pairs_before_nodup.
Qed.

Lemma matched_pairs_swap (events1 events2 : list event) :
  Permutation (matched_pairs events2 events1)
              (map swap_pair (matched_pairs events1 events2)).
Proof.
  apply NoDup_Permutation.
  - apply matched_pairs_nodup.
  - apply (NoDup_map_inv swap_pair). rewrite map_map.
    unfold swap_pair. cbn [fst snd].
    rewrite (map_ext _ (fun x => x)) by (now intros [a b]).
    rewrite map_id. apply matched_pairs_nodup.
  - intros [x y].
    destruct (events_by_uid_entries events1) as [_ N1].
    destruct (events_by_uid_entries events2) as [_ N2].
    rewrite in_map_iff. split.
    + intros H. apply matched_pairs_in in H. cbn [fst snd] in H.
      destruct H as (k & Hg & Hin). exists (y, x). split; [reflexivity|].
      apply matched_pairs_in. exists k. cbn [fst snd].
      split; [now apply in_dict_get|now apply in_dict_get].
    + intros ([a b] & E & H). unfold swap_pair in E. cbn [fst snd] in E.
      injection E as -> ->.
      apply matched_pairs_in in H. cbn [fst snd] in H.
      destruct H as (k & Hg & Hin).
      apply matched_pairs_in. exists k. cbn [fst snd].
      split; [now apply in_dict_get|now apply in_dict_get].
Qed.

Lemma filter_permutation {A : Type} (f : A -> bool) (l l' : list A) :
  Permutation l l' -> Permutation (filter f l) (filter f l').
Proof.
  induction 1 as [|x l l' _ IH|x y l|l l' l'' _ IH1 _ IH2]; cbn [filter].
  - constructor.
  - destruct (f x); [now constructor|assumption].
  - destruct (f x), (f y); try reflexivity. apply perm_swap.
  - now transitivity (filter f l').
Qed.

Lemma filter_map_swap {A B : Type} (f : B * A -> bool) (l : list (A * B)) :
  filter f (map swap_pair l) = map swap_pair (filter (fun p => f (swap_pair p)) l).
Proof.
  induction l as [|x l IH]; cbn [map filter]; [reflexivity|].
  destruct (f (swap_pair x)); cbn [map]; now rewrite IH.
Qed.

Lemma deleted_as_added (d l : dict) :
  map event_and_uid (flat_map (deleted_entry d) l)
  = map event_and_uid (flat_map (added_entry d) l).
Proof.
  induction l as [|[k e] l IH]; cbn [flat_map]; [reflexivity|].
  rewrite !map_app, IH. unfold deleted_entry, added_entry. cbn [fst snd].
  now destruct (dict_get d k).
Qed.

(** Exchanging the two files turns the added events into the deleted ones,
    entry by entry, and the deleted ones into the added ones; the entries
    for changed pairs are the same pairs, each read the other way round. *)
Theorem detect_reversed (events1 events2 : list event) :
  let ch := detect_event_changes_detailed events1 events2 in
  let ch' := detect_event_changes_detailed events2 events1 in
  map event_and_uid (deleted ch') = map event_and_uid (added ch)
  /\ map event_and_uid (added ch') = map event_and_uid (deleted ch)
  /\ Permutation (map pair_of (classified ch'))
                 (map swap_pair (map pair_of (classified ch))).
Proof.
  cbv zeta. rewrite !detect_added, !detect_deleted.
  split; [apply deleted_as_added|]. split; [symmetry; apply deleted_as_added|].
  etransitivity; [apply detect_classified|].
  etransitivity;
    [|apply Permutation_map; symmetry; apply detect_classified].
  etransitivity;
    [apply (filter_permutation changed), matched_pairs_swap|].
  rewrite filter_map_swap.
  erewrite filter_ext; [reflexivity|].
  intros [a b]. unfold changed, swap_pair. cbn [fst snd].
  now rewrite classify_swap.
Qed.

(** ** The shape of the differ's answer *)

Lemma property_entry_shape (event1 event2 : event) (p : prop) :
  property_entry event1 event2 p = []
  \/ exists c, property_entry event1 event2 p = [c] /\ property c = p
               /\ (kind c = KString -> old_value c <> new_value c).
Proof.
  unfold property_entry.
  assert (Hs : forall s1 s2,
             (if negb (String.eqb s1 s2)
              then [mkPropertyChange p (Some s1) (Some s2) KString] else []) = []
             \/ exists c,
                 (if negb (String.eqb s1 s2)
                  then [mkPropertyChange p (Some s1) (Some s2) KString] else [])
                 = [c] /\ property c = p
                 /\ (kind c = KString -> old_value c <> new_value c)).
  { intros s1 s2. destruct (String.eqb_spec s1 s2) as [E|E]; cbn [negb];
      [now left|right].
    eexists. split; [reflexivity|]. cbn. split; [reflexivity|congruence]. }
  destruct (get event1 p) as [|s1|d1], (get event2 p) as [|s2|d2];
    cbv beta iota zeta; try apply Hs.
  destruct (py_ne (PDatetime d1) (PDatetime d2)); [right|now left].
  eexists. split; [reflexivity|]. cbn. split; [reflexivity|discriminate].
Qed.

(** The differ reports a property at most once and in the order summary,
    description, categories, dtstart, dtend; an entry of kind [string]
    never has equal old and new values; an event against itself has no
    entry. *)
Theorem property_changes_shape (event1 event2 : event) :
  (exists reported, map property (_get_detailed_property_changes event1 event2)
                    = filter reported compare_props)
  /\ NoDup (map property (_get_detailed_property_changes event1 event2))
  /\ (List.length (_get_detailed_property_changes event1 event2) <= 5)%nat
  /\ (forall c, In c (_get_detailed_property_changes event1 event2) ->
                kind c = KString -> old_value c <> new_value c)
  /\ _get_detailed_property_changes event1 event1 = [].
Proof.
  assert (Hm : map property (_get_detailed_property_changes event1 event2)
               = filter (fun p => match property_entry event1 event2 p with
                                  | [] => false | _ => true end) compare_props).
  { unfold _get_detailed_property_changes.
    induction compare_props as [|p l IH]; cbn [flat_map filter map];
      [reflexivity|].
    rewrite map_app, IH.
    destruct (property_entry_shape event1 event2 p) as [->|(c & -> & <- & _)];
      reflexivity. }
  split; [eexists; exact Hm|].
  split; [rewrite Hm; apply NoDup_filter; repeat constructor; cbn;
          intuition discriminate|].
  split.
  - rewrite <- (length_map property), Hm.
    etransitivity; [apply filter_length_le|]. reflexivity.
  - split.
    + intros c Hc. unfold _get_detailed_property_changes in Hc.
      apply in_flat_map in Hc. destruct Hc as (p & _ & Hc).
      destruct (property_entry_shape event1 event2 p) as [E|(c' & E & _ & H)];
        rewrite E in Hc; [contradiction|].
      destruct Hc as [<-|[]]. exact H.
    + unfold _get_detailed_property_changes.
      assert (He : forall p, property_entry event1 event1 p = []).
      { intros p. unfold property_entry.
        destruct (get event1 p) as [|s|d]; cbv beta iota zeta;
          rewrite ?String.eqb_refl, ?py_ne_refl; reflexivity. }
      cbn [compare_props flat_map]. now rewrite !He.
Qed.

(** ** Keys of the uid dictionary *)

Lemma first_occurrences_in (seen l : list string) (k : string) :
  In k (first_occurrences seen l) <-> In k l /\ ~ In k seen.
Proof.
  revert seen. induction l as [|x l IH]; intros seen; cbn [first_occurrences In].
  - tauto.
  - destruct (set_mem x seen) eqn:E.
    + apply set_mem_in in E. rewrite IH. split; [tauto|].
      intros [[->|H] Hn]; tauto.
    + apply set_mem_not_in in E. cbn [In]. rewrite IH. cbn [In].
      split; [intros [->|[H Hn]]; tauto|].
      intros [[->|H] Hn]; [tauto|].
      destruct (String.eqb_spec x k); [tauto|right; tauto].
Qed.

Lemma uid_keys_fold (l : list event) (d : dict) :
  dict_keys (fold_left (fun d e => if has_uid e
                                   then dict_set d (uid_key e) e else d)
                       l d)
  = (dict_keys d
     ++ first_occurrences (dict_keys d) (map uid_key (filter has_uid l)))%list.
Proof.
  revert d. induction l as [|e l IH]; intros d; cbn [fold_left filter map];
    [cbn; now rewrite app_nil_r|].
  rewrite IH. destruct (has_uid e); [|reflexivity].
  cbn [map first_occurrences]. rewrite dict_set_keys.
  destruct (set_mem (uid_key e) (dict_keys d)) eqn:E; [reflexivity|].
  rewrite <- app_assoc. cbn [app]. f_equal. f_equal.
  apply set_mem_not_in in E.
  generalize (map uid_key (filter has_uid l)) as ks.
  assert (G : forall ks s t, (forall x, In x s <-> In x t) ->
                first_occurrences s ks = first_occurrences t ks).
  { induction ks as [|x ks IHk]; intros s t Hst; cbn [first_occurrences];
      [reflexivity|].
    assert (Hx : set_mem x s = set_mem x t)
      by (apply eq_true_iff_eq; rewrite !set_mem_in; apply Hst).
    rewrite Hx. destruct (set_mem x t).
    - now apply IHk.
    - f_equal. apply IHk. intros y. cbn [In]. now rewrite Hst. }
  intros ks. apply G. intros x. rewrite in_app_iff. cbn [In]. tauto.
Qed.

Lemma uid_key_in (events : list event) (k : string) :
  In k (dict_keys (events_by_uid events)) <->
  exists e, In e events /\ has_uid e = true /\ uid_key e = k.
Proof.
  unfold events_by_uid. rewrite uid_keys_fold. cbn [dict_keys map app].
  rewrite first_occurrences_in, in_map_iff. split.
  - intros [(e & <- & He) _]. apply filter_In in He. exists e. tauto.
  - intros (e & He & Hu & <-). split; [|tauto].
    exists e. split; [reflexivity|]. apply filter_In. tauto.
Qed.

(** In [{event['uid']: event for event in events if event['uid']}] a uid
    that occurs more than once keeps the place of its first occurrence and
    the event of its last; the empty uid is no key. *)
Theorem events_by_uid_last_wins (events : list event) :
  dict_keys (events_by_uid events)
  = first_occurrences [] (map uid_key (filter has_uid events))
  /\ (forall k, k <> "" ->
                dict_get (events_by_uid events) k = last_with_uid k events)
  /\ dict_get (events_by_uid events) "" = None.
Proof.
  unfold events_by_uid.
  assert (H : forall l d,
             let d' := fold_left (fun d e => if has_uid e
                                             then dict_set d (uid_key e) e else d)
                                 l d in
             (forall k, dict_get d' k = match last_with_uid k l with
                                        | Some e => Some e
                                        | None => dict_get d k
                                        end)).
  { induction l as [|e l IH]; intros d; cbn [fold_left last_with_uid];
      [reflexivity|].
    intros k. cbv zeta in IH. rewrite IH.
    destruct (last_with_uid k l); [reflexivity|].
    destruct (has_uid e); cbn [andb]; [|reflexivity].
    rewrite dict_get_set. now destruct (String.eqb k (uid_key e)). }
  split; [apply (uid_keys_fold events [])|]. split.
  - intros k _. rewrite (H events [] k). cbn [dict_get].
    now destruct (last_with_uid k events).
  - apply dict_get_none. rewrite (uid_keys_fold events []). cbn [dict_keys map app].
    rewrite first_occurrences_in. intros [Hin _].
    apply in_map_iff in Hin. destruct Hin as (e & He & Hin).
    apply filter_In in Hin. destruct Hin as [_ Hu].
    unfold has_uid, uid_key in *. destruct (uid e) as [s|]; [|discriminate].
    subst s. discriminate.
Qed.

(** ** Counts of the detailed matcher *)

Lemma matched_pairs_length_swap (events1 events2 : list event) :
  List.length (matched_pairs events2 events1)
  = List.length (matched_pairs events1 events2).
Proof.
  rewrite (Permutation_length (matched_pairs_swap events1 events2)).
  apply length_map.
Qed.

Lemma added_plus_matched (events1 events2 : list event) :
  (List.length (added (detect_event_changes_detailed events1 events2))
   + List.length (matched_pairs events1 events2))%nat
  = List.length (events_by_uid events2).
Proof.
  rewrite detect_added.
  pose proof (Permutation_length
                (after_side (events_by_uid events1) (events_by_uid events2))) as H.
  rewrite length_app, !length_map in H. symmetry. exact H.
Qed.

Lemma detailed_counts (events1 events2 : list event) :
  let ch := detect_event_changes_detailed events1 events2 in
  let pairs := matched_pairs events1 events2 in
  len (added ch) + len pairs = len (events_by_uid events2)
  /\ len (deleted ch) + len pairs = len (events_by_uid events1)
  /\ len (classified ch) + len (unchanged_pairs events1 events2) = len pairs.
Proof.
  cbv zeta. split; [|split].
  - unfold len. rewrite <- Nat2Z.inj_add. f_equal. apply added_plus_matched.
  - unfold len. rewrite <- Nat2Z.inj_add. f_equal.
    rewrite <- (added_plus_matched events2 events1).
    rewrite matched_pairs_length_swap. f_equal.
    rewrite detect_added, detect_deleted.
    pose proof (deleted_as_added (events_by_uid events2) (events_by_uid events1))
      as H.
    apply (f_equal (@List.length _)) in H. now rewrite !length_map in H.
  - pose proof (Permutation_length (detect_classified events1 events2)) as H.
    rewrite length_map in H. unfold len, unchanged_pairs. rewrite H.
    apply (filter_len changed).
Qed.

Lemma classified_length (ch : changes) :
  len (classified ch)
  = len (modified ch) + len (moved ch) + len (duration_changed ch).
Proof.
  unfold classified, len. rewrite !length_app. lia.
Qed.

(** Added events and matched pairs make up the distinct non-empty uids of
    [events2], deleted events and matched pairs those of [events1]; and the
    [unchanged] count of the statistics is twice the number of unchanged
    pairs, plus the number of changed pairs, plus the number of events that
    are in no uid dictionary (no uid, or a uid written again later). *)
Theorem matcher_counts (events1 events2 : list event) :
  let ch := detect_event_changes_detailed events1 events2 in
  let pairs := matched_pairs events1 events2 in
  len (added ch) + len pairs = len (events_by_uid events2)
  /\ len (deleted ch) + len pairs = len (events_by_uid events1)
  /\ len (classified ch) + len (unchanged_pairs events1 events2) = len pairs
  /\ st_unchanged (compute_statistics events1 events2 ch)
     = 2 * len (unchanged_pairs events1 events2) + len (classified ch)
       + (len events1 - len (events_by_uid events1))
       + (len events2 - len (events_by_uid events2)).
Proof.
  cbv zeta.
  destruct (detailed_counts events1 events2) as (Ha & Hd & Hc). cbv zeta in *.
  split; [exact Ha|]. split; [exact Hd|]. split; [exact Hc|].
  unfold compute_statistics. cbn [st_unchanged].
  pose proof (classified_length
                (detect_event_changes_detailed events1 events2)) as Hl.
  lia.
Qed.

(** ** When the sorter raises *)

Lemma list_sort_uniform {A : Type} (key : A -> datetime) (l out : list A) :
  list_sort key l = Ok out ->
  forall x y, In x l -> In y l -> aware (key x) = aware (key y).
Proof.
  revert out. induction l as [|a l IH]; intros out; cbn [list_sort];
    [intros _ x y []|].
  destruct (list_sort key l) as [s|] eqn:Es; cbn [bind]; [|discriminate].
  intros Hi.
  assert (Ha : forall y, In y l -> aware (key a) = aware (key y)).
  { intros y Hy. destruct s as [|z s'].
    - apply list_sort_perm in Es. apply Permutation_sym, Permutation_nil in Es.
      subst l. contradiction.
    - cbn [sort_insert] in Hi.
      destruct (dt_lt (key z) (key a)) as [b|] eqn:E; [|discriminate Hi].
      apply dt_lt_ok in E. destruct E as [E _].
      assert (Hz : In z l)
        by (apply (Permutation_in _ (Permutation_sym (list_sort_perm _ _ _ Es)));
            now left).
      rewrite <- E. now apply (IH _ eq_refl). }
  intros x y [<-|Hx] [<-|Hy]; auto.
  - symmetry. auto.
  - now apply (IH _ eq_refl).
Qed.

(** The semantic diff returns exactly when the sort dates of its entries are
    all naive or all aware, an absent start counting as the naive
    [datetime.min]; otherwise the comparison inside the sort raises and the
    diff ends in [ICSAnalysisError]. *)
Theorem semantic_diff_returns_iff_uniform (events1 events2 : list event) :
  let entries := all_changes (detect_event_changes_detailed events1 events2) in
  ((exists r, generate_event_semantic_diff events1 events2 = Ok r)
   <-> uniform_awareness entries)
  /\ (~ uniform_awareness entries ->
      generate_event_semantic_diff events1 events2 = Raise ICSAnalysisError).
Proof.
  cbv zeta. rewrite generate_cases. unfold _sort_changes_chronologically.
  set (l := all_changes (detect_event_changes_detailed events1 events2)).
  assert (H1 : forall out, list_sort sort_key l = Ok out -> uniform_awareness l).
  { intros out H x y. now apply (list_sort_uniform sort_key l out). }
  assert (H2 : uniform_awareness l -> exists out, list_sort sort_key l = Ok out).
  { intros Hu. destruct l as [|x l'] eqn:El; [exists []; reflexivity|].
    rewrite <- El in *.
    apply (list_sort_returns sort_key (aware (sort_key x))).
    apply Forall_forall. intros y Hy. apply Hu; [exact Hy|].
    rewrite El. now left. }
  split.
  - split.
    + intros [r Hr]. destruct (list_sort sort_key l) as [out|] eqn:E;
        [now apply (H1 out)|discriminate].
    + intros Hu. destruct (H2 Hu) as [out ->]. eauto.
  - intros Hn. destruct (list_sort sort_key l) as [out|] eqn:E; [|reflexivity].
    exfalso. apply Hn. now apply (H1 out).
Qed.

Lemma semantic_diff_returns_iff_uniform_witness :
  generate_event_semantic_diff [] [foundation_day; new_year_no_start]
  = Raise ICSAnalysisError.
Proof.
  apply (semantic_diff_returns_iff_uniform [] [foundation_day; new_year_no_start]).
  intros Hu.
  assert (H : aware (utc 2024 2 11) = aware datetime_min).
  { apply (Hu (mkSortedChange Added (Some (utc 2024 2 11))
                 (OfEvent (mkEventChange foundation_day Added "e4")))
              (mkSortedChange Added None
                 (OfEvent (mkEventChange new_year_no_start Added "e1")))).
    - left. reflexivity.
    - right. left. reflexivity. }
  discriminate H.
Defined.

(** ** The simple matcher and the file comparison *)

(** The unit test of the simple matcher: one event renamed, one added. *)
Example test_detect_event_changes :
  match detect_event_changes
          [mkEvent (Some "test-1") (Val "Event 1") Missing Missing
                   (Val (naive 2024 1 1)) (Val (naive 2024 1 2))]
          [mkEvent (Some "test-1") (Val "Modified Event 1") Missing Missing
                   (Val (naive 2024 1 1)) (Val (naive 2024 1 2));
           mkEvent (Some "test-2") (Val "New Event") Missing Missing
                   (Val (naive 2024 1 3)) (Val (naive 2024 1 4))] with
  | Ok ch => len (s_added ch) = 1 /\ len (s_modified ch) = 1
             /\ map me_property_changes (s_modified ch)
                = [["SUMMARY: Event 1 → Modified Event 1"]]
  | Raise _ => False
  end.
Proof.
  cbn. repeat split.
Qed.

Lemma uid_loop (t : change_type) (d : dict) (keep : string -> bool) :
  NoDup (dict_keys d) ->
  mapM (fun uid => ev <- subscript d uid ;; Ok (mkListed ev t))
       (filter keep (dict_keys d))
  = Ok (map (fun item => mkListed (snd item) t)
            (filter (fun item => keep (fst item)) d)).
Proof.
  intros Hn.
  assert (H : forall l, (forall item, In item l -> In item d) ->
                mapM (fun uid => ev <- subscript d uid ;; Ok (mkListed ev t))
                     (filter keep (map fst l))
                = Ok (map (fun item => mkListed (snd item) t)
                          (filter (fun item => keep (fst item)) l))).
  { induction l as [|[k e] l IH]; intros Hl; cbn [map filter fst];
      [reflexivity|].
    assert (IH' := IH (fun item Hi => Hl item (or_intror Hi))).
    destruct (keep k); [|exact IH'].
    cbn [mapM map snd]. unfold subscript at 1.
    rewrite (dict_get_unique d k e Hn (Hl _ (or_introl eq_refl))).
    cbn [bind]. now rewrite IH'. }
  apply (H d). auto.
Qed.

Lemma common_loop (d1 d2 : dict) :
  NoDup (dict_keys d1) ->
  mapM (fun uid => event1 <- subscript d1 uid ;;
                   event2 <- subscript d2 uid ;; Ok (event1, event2))
       (set_inter (dict_keys d1) (dict_keys d2))
  = Ok (common_pairs d1 d2).
Proof.
  intros Hn. unfold set_inter, common_pairs.
  assert (H : forall l, (forall item, In item l -> In item d1) ->
                mapM (fun uid => event1 <- subscript d1 uid ;;
                                 event2 <- subscript d2 uid ;; Ok (event1, event2))
                     (filter (fun k => set_mem k (dict_keys d2)) (map fst l))
                = Ok (flat_map (fun item : string * event =>
                                  match dict_get d2 (fst item) with
                                  | Some event2 => [(snd item, event2)]
                                  | None => []
                                  end) l)).
  { induction l as [|[k e] l IH]; intros Hl; cbn [map filter fst flat_map snd];
      [reflexivity|].
    assert (IH' := IH (fun item Hi => Hl item (or_intror Hi))).
    destruct (dict_get d2 k) as [e2|] eqn:E2.
    - assert (Hm : set_mem k (dict_keys d2) = true).
      { apply set_mem_in. apply dict_get_in in E2.
        change k with (fst (k, e2)). now apply in_map. }
      rewrite Hm. cbn [mapM]. unfold subscript at 1 2.
      rewrite (dict_get_unique d1 k e Hn (Hl _ (or_introl eq_refl))), E2.
      cbn [bind]. now rewrite IH'.
    - assert (Hm : set_mem k (dict_keys d2) = false)
        by now apply set_mem_not_in, dict_get_none.
      rewrite Hm. exact IH'. }
  apply (H d1). auto.
Qed.

Lemma modified_or_unchanged (common : list (event * event)) :
  (List.length
     (flat_map (fun '(event1, event2) =>
                  match compare_event_properties event1 event2 with
                  | [] => []
                  | property_changes =>
                      [mkModifiedEvent event1 event2 property_changes Modified]
                  end) common)
   + List.length
       (flat_map (fun '(event1, event2) =>
                    match compare_event_properties event1 event2 with
                    | [] => [mkListed event1 Unchanged]
                    | _ => []
                    end) common))%nat
  = List.length common.
Proof.
  induction common as [|[e1 e2] l IH]; cbn [flat_map List.length]; [reflexivity|].
  rewrite !length_app.
  destruct (compare_event_properties e1 e2); cbn [List.length]; lia.
Qed.

Lemma body_ok (events1 events2 : list event) (ch : simple_changes) :
  detect_event_changes events1 events2 = Ok ch ->
  detect_event_changes_body events1 events2 = Ok ch.
Proof.
  unfold detect_event_changes, try_except.
  now destruct (detect_event_changes_body events1 events2).
Qed.

(** What [detect_event_changes] returns is in chronological order: the
    added, the deleted and the modified entries each stand in ascending
    order of their start, entries without a start first. *)
Theorem simple_changes_sorted (events1 events2 : list event)
        (ch : simple_changes) :
  detect_event_changes events1 events2 = Ok ch ->
  StronglySorted (not_after listed_key) (s_added ch)
  /\ StronglySorted (not_after listed_key) (s_deleted ch)
  /\ StronglySorted (not_after modified_key) (s_modified ch).
Proof.
  intros H. apply body_ok in H. unfold detect_event_changes_body in H.
  bind_ok H Ea. bind_ok H Ed. bind_ok H Ec. bind_ok H E1. bind_ok H E2.
  bind_ok H Ea'. bind_ok H Ed'. bind_ok H Sa. bind_ok H Sd. bind_ok H Sm.
  injection H as <-. cbn [s_added s_deleted s_modified].
  split; [exact (list_sort_sorted _ _ _ Sa)|].
  split; [exact (list_sort_sorted _ _ _ Sd)|exact (list_sort_sorted _ _ _ Sm)].
Qed.

Lemma simple_changes_sorted_witness :
  exists ch,
    detect_event_changes [coming_of_age_day; new_year]
                         [substitute_holiday; new_years_day; complete_event]
    = Ok ch
    /\ StronglySorted (not_after listed_key) (s_added ch).
Proof.
  eexists. split; [reflexivity|].
  apply (simple_changes_sorted
           [coming_of_age_day; new_year]
           [substitute_holiday; new_years_day; complete_event] _ eq_refl).
Defined.

Lemma unkeyed_none (events : list event) :
  all_keyed events -> filter (fun e => negb (has_uid e)) events = [].
Proof.
  induction 1 as [|e l He _ IH]; cbn [filter]; [reflexivity|].
  now rewrite He.
Qed.

(** The body of the simple matcher on lists in which every event has a
    uid: only the three sorts are left to run. *)
Lemma body_keyed (events1 events2 : list event) :
  all_keyed events1 -> all_keyed events2 ->
  let d1 := events_by_uid events1 in
  let d2 := events_by_uid events2 in
  let common := common_pairs d1 d2 in
  detect_event_changes_body events1 events2 =
  (added_sorted <- list_sort listed_key
                     (map (fun item => mkListed (snd item) Added) (only_in d2 d1)) ;;
   deleted_sorted <- list_sort listed_key
                       (map (fun item => mkListed (snd item) Deleted)
                            (only_in d1 d2)) ;;
   modified_sorted <- list_sort modified_key
                        (flat_map (fun '(event1, event2) =>
                           match compare_event_properties event1 event2 with
                           | [] => []
                           | property_changes =>
                               [mkModifiedEvent event1 event2 property_changes
                                                Modified]
                           end) common) ;;
   Ok (mkSimpleChanges added_sorted deleted_sorted modified_sorted
         (flat_map (fun '(event1, event2) =>
                      match compare_event_properties event1 event2 with
                      | [] => [mkListed event1 Unchanged]
                      | _ => []
                      end) common))).
Proof.
  intros K1 K2. cbv zeta. unfold detect_event_changes_body.
  destruct (events_by_uid_entries events1) as [_ N1].
  destruct (events_by_uid_entries events2) as [_ N2].
  unfold set_diff.
  rewrite (uid_loop Added _ _ N2), (uid_loop Deleted _ _ N1). cbn [bind].
  rewrite (common_loop _ _ N1). cbn [bind].
  rewrite (unkeyed_none _ K1), (unkeyed_none _ K2).
  cbn [dtstart_dict foldM bind dict_keys map set_diff filter mapM].
  rewrite !app_nil_r. reflexivity.
Qed.

Lemma common_pairs_matched (events1 events2 : list event) :
  common_pairs (events_by_uid events1) (events_by_uid events2)
  = map swap_pair (matched_pairs events2 events1).
Proof.
  unfold common_pairs, matched_pairs. rewrite map_flat_map.
  apply flat_map_ext. intros [k e]. cbn [fst snd].
  now destruct (dict_get (events_by_uid events2) k).
Qed.

Lemma only_in_added (events1 events2 : list event) :
  map snd (only_in (events_by_uid events2) (events_by_uid events1))
  = map ec_event (added (detect_event_changes_detailed events1 events2)).
Proof.
  rewrite detect_added. unfold only_in.
  induction (events_by_uid events2) as [|[k e] d IH]; cbn [filter flat_map fst];
    [reflexivity|].
  unfold added_entry at 1. cbn [fst snd].
  destruct (dict_get (events_by_uid events1) k) as [e'|] eqn:E.
  - assert (Hm : set_mem k (dict_keys (events_by_uid events1)) = true).
    { apply set_mem_in. apply dict_get_in in E.
      change k with (fst (k, e')). now apply in_map. }
    rewrite Hm. exact IH.
  - assert (Hm : set_mem k (dict_keys (events_by_uid events1)) = false)
      by now apply set_mem_not_in, dict_get_none.
    rewrite Hm. cbn [negb map snd app ec_event]. now rewrite IH.
Qed.

Lemma only_in_deleted (events1 events2 : list event) :
  map snd (only_in (events_by_uid events1) (events_by_uid events2))
  = map ec_event (deleted (detect_event_changes_detailed events1 events2)).
Proof.
  rewrite detect_deleted. unfold only_in.
  induction (events_by_uid events1) as [|[k e] d IH]; cbn [filter flat_map fst];
    [reflexivity|].
  unfold deleted_entry at 1. cbn [fst snd].
  destruct (dict_get (events_by_uid events2) k) as [e'|] eqn:E.
  - assert (Hm : set_mem k (dict_keys (events_by_uid events2)) = true).
    { apply set_mem_in. apply dict_get_in in E.
      change k with (fst (k, e')). now apply in_map. }
    rewrite Hm. exact IH.
  - assert (Hm : set_mem k (dict_keys (events_by_uid events2)) = false)
      by now apply set_mem_not_in, dict_get_none.
    rewrite Hm. cbn [negb map snd app ec_event]. now rewrite IH.
Qed.

(** ** The two matchers on events with uids, and the counts of
    [compare_ics_files] *)

Lemma swap_pair_twice {A B : Type} (l : list (A * B)) :
  map swap_pair (map swap_pair l) = l.
Proof.
  rewrite map_map. rewrite <- (map_id l) at 2.
  apply map_ext. now intros [a b].
Qed.

Lemma common_pairs_length (events1 events2 : list event) :
  List.length (common_pairs (events_by_uid events1) (events_by_uid events2))
  = List.length (matched_pairs events1 events2).
Proof.
  rewrite common_pairs_matched, length_map. apply matched_pairs_length_swap.
Qed.

Lemma keyed_result (events1 events2 : list event) (ch : simple_changes) :
  all_keyed events1 -> all_keyed events2 ->
  detect_event_changes events1 events2 = Ok ch ->
  Permutation (map le_event (s_added ch))
              (map snd (only_in (events_by_uid events2) (events_by_uid events1)))
  /\ Permutation (map le_event (s_deleted ch))
                 (map snd (only_in (events_by_uid events1) (events_by_uid events2)))
  /\ (List.length (s_modified ch) + List.length (s_unchanged ch))%nat
     = List.length (matched_pairs events1 events2).
Proof.
  intros K1 K2 H. apply body_ok in H.
  rewrite (body_keyed events1 events2 K1 K2) in H. cbv zeta in H.
  bind_ok H Sa. bind_ok H Sd. bind_ok H Sm. injection H as <-.
  cbn [s_added s_deleted s_modified s_unchanged].
  apply list_sort_perm in Sa, Sd, Sm.
  split; [|split].
  - rewrite <- (Permutation_map le_event Sa). rewrite map_map. cbn [le_event].
    reflexivity.
  - rewrite <- (Permutation_map le_event Sd). rewrite map_map. cbn [le_event].
    reflexivity.
  - rewrite <- (Permutation_length Sm), modified_or_unchanged.
    apply common_pairs_length.
Qed.

(** On lists in which every event has a uid the two matchers find the same
    added and the same deleted events, and the simple matcher files every
    matched pair either under [modified] or under [unchanged]. *)
Theorem keyed_matchers_agree (events1 events2 : list event)
        (ch : simple_changes) :
  all_keyed events1 -> all_keyed events2 ->
  detect_event_changes events1 events2 = Ok ch ->
  let detailed := detect_event_changes_detailed events1 events2 in
  Permutation (map le_event (s_added ch)) (map ec_event (added detailed))
  /\ Permutation (map le_event (s_deleted ch)) (map ec_event (deleted detailed))
  /\ len (s_modified ch) + len (s_unchanged ch)
     = len (matched_pairs events1 events2).
Proof.
  intros K1 K2 H. cbv zeta.
  destruct (keyed_result events1 events2 ch K1 K2 H) as (Ha & Hd & Hm).
  rewrite only_in_added in Ha. rewrite only_in_deleted in Hd.
  split; [exact Ha|]. split; [exact Hd|].
  unfold len. rewrite <- Nat2Z.inj_add. now f_equal.
Qed.

Lemma keyed_matchers_agree_witness :
  exists ch,
    detect_event_changes [coming_of_age_day; new_year]
                         [substitute_holiday; new_years_day; complete_event]
    = Ok ch
    /\ Permutation (map le_event (s_added ch))
                   (map ec_event
                      (added (detect_event_changes_detailed
                                [coming_of_age_day; new_year]
                                [substitute_holiday; new_years_day;
                                 complete_event]))).
Proof.
  eexists. split; [reflexivity|].
  apply (keyed_matchers_agree
           [coming_of_age_day; new_year]
           [substitute_holiday; new_years_day; complete_event] _).
  - repeat constructor.
  - repeat constructor.
  - reflexivity.
Defined.

Lemma unique_all_keyed (events : list event) :
  unique_uids events -> all_keyed events.
Proof.
  now intros [H _].
Qed.

Lemma unique_length (events : list event) :
  unique_uids events -> List.length (events_by_uid events) = List.length events.
Proof.
  intros H. rewrite events_by_uid_unique by assumption. apply length_map.
Qed.

(** When every event of either file has a uid of its own,
    [compare_ics_files] counts every event of the second file once, as
    added, modified or unchanged, and every event of the first file once,
    as deleted, modified or unchanged. *)
Theorem comparison_accounts (events1 events2 : list event) (c : comparison) :
  unique_uids events1 -> unique_uids events2 ->
  compare_ics_files events1 events2 = Ok c ->
  cs_added (cmp_summary c) + cs_modified (cmp_summary c)
  + cs_unchanged (cmp_summary c) = cmp_total_events2 c
  /\ cs_deleted (cmp_summary c) + cs_modified (cmp_summary c)
     + cs_unchanged (cmp_summary c) = cmp_total_events1 c.
Proof.
  intros U1 U2 H. unfold compare_ics_files in H.
  destruct (detect_event_changes events1 events2) as [ch|x] eqn:E;
    cbn [bind try_except] in H; [|discriminate].
  injection H as <-. cbn [cmp_summary cs_added cs_deleted cs_modified
                          cs_unchanged cmp_total_events1 cmp_total_events2].
  destruct (keyed_result events1 events2 ch (unique_all_keyed _ U1)
              (unique_all_keyed _ U2) E) as (Ha & Hd & Hm).
  apply Permutation_length in Ha, Hd.
  rewrite only_in_added in Ha.
  rewrite (only_in_added events2 events1) in Hd.
  rewrite !length_map in Ha, Hd.
  pose proof (added_plus_matched events1 events2) as A2.
  pose proof (added_plus_matched events2 events1) as A1.
  rewrite (unique_length _ U2) in A2. rewrite (unique_length _ U1) in A1.
  rewrite (matched_pairs_length_swap events1 events2) in A1.
  unfold len. lia.
Qed.

Lemma comparison_accounts_witness :
  exists c,
    compare_ics_files [coming_of_age_day; new_year]
                      [substitute_holiday; new_years_day; complete_event]
    = Ok c
    /\ cs_added (cmp_summary c) + cs_modified (cmp_summary c)
       + cs_unchanged (cmp_summary c) = cmp_total_events2 c.
Proof.
  eexists. split; [reflexivity|].
  apply (comparison_accounts
           [coming_of_age_day; new_year]
           [substitute_holiday; new_years_day; complete_event] _).
  - split; [repeat constructor|].
    repeat constructor; cbn; intuition discriminate.
  - split; [repeat constructor|].
    repeat constructor; cbn; intuition discriminate.
  - reflexivity.
Defined.

(** ** The simple matcher: a file against itself, and when it returns *)

Lemma filter_none {A : Type} (f : A -> bool) (l : list A) :
  (forall x, In x l -> f x = false) -> filter f l = [].
Proof.
  induction l as [|x l IH]; intros H; cbn [filter]; [reflexivity|].
  rewrite (H x (or_introl eq_refl)). apply IH. intros y Hy. apply H. now right.
Qed.

Lemma set_diff_self (s : list string) : set_diff s s = [].
Proof.
  unfold set_diff. apply filter_none. intros k Hk.
  apply negb_false_iff. now apply set_mem_in.
Qed.

Lemma compare_event_properties_self (e : event) :
  compare_event_properties e e = [].
Proof.
  unfold compare_event_properties.
  induction compare_props as [|p l IH]; cbn [flat_map]; [reflexivity|].
  rewrite IH, app_nil_r.
  destruct (get e p) eqn:E; rewrite ?String.eqb_refl, ?py_ne_refl; reflexivity.
Qed.

Lemma common_pairs_self (d : dict) :
  NoDup (dict_keys d) ->
  common_pairs d d = map (fun item => (snd item, snd item)) d.
Proof.
  intros Hn. unfold common_pairs.
  assert (H : forall l, (forall item, In item l -> In item d) ->
                flat_map (fun item : string * event =>
                            match dict_get d (fst item) with
                            | Some event2 => [(snd item, event2)]
                            | None => []
                            end) l
                = map (fun item => (snd item, snd item)) l).
  { induction l as [|[k e] l IH]; intros Hl; cbn [flat_map map fst snd];
      [reflexivity|].
    rewrite (dict_get_unique d k e Hn (Hl _ (or_introl eq_refl))).
    cbn [app]. f_equal. apply IH. intros item Hi. apply Hl. now right. }
  apply H. auto.
Qed.

(** The body of the simple matcher once the three loops over the uids have
    run. *)
Lemma body_uid_part (events1 events2 : list event) :
  detect_event_changes_body events1 events2 =
  (let d1 := events_by_uid events1 in
   let d2 := events_by_uid events2 in
   let common := common_pairs d1 d2 in
   dtstart1_dict <- dtstart_dict (filter (fun e => negb (has_uid e)) events1) ;;
   dtstart2_dict <- dtstart_dict (filter (fun e => negb (has_uid e)) events2) ;;
   added' <- mapM (fun k => ev <- subscript dtstart2_dict k ;;
                            Ok (mkListed ev Added))
                  (filter (fun k => negb (String.eqb k ""))
                          (set_diff (dict_keys dtstart2_dict)
                                    (dict_keys dtstart1_dict))) ;;
   deleted' <- mapM (fun k => ev <- subscript dtstart1_dict k ;;
                              Ok (mkListed ev Deleted))
                    (filter (fun k => negb (String.eqb k ""))
                            (set_diff (dict_keys dtstart1_dict)
                                      (dict_keys dtstart2_dict))) ;;
   added_sorted <- list_sort listed_key
                     (map (fun item => mkListed (snd item) Added) (only_in d2 d1)
                      ++ added')%list ;;
   deleted_sorted <- list_sort listed_key
                       (map (fun item => mkListed (snd item) Deleted)
                            (only_in d1 d2) ++ deleted')%list ;;
   modified_sorted <- list_sort modified_key
                        (flat_map (fun '(event1, event2) =>
                           match compare_event_properties event1 event2 with
                           | [] => []
                           | property_changes =>
                               [mkModifiedEvent event1 event2 property_changes
                                                Modified]
                           end) common) ;;
   Ok (mkSimpleChanges added_sorted deleted_sorted modified_sorted
         (flat_map (fun '(event1, event2) =>
                      match compare_event_properties event1 event2 with
                      | [] => [mkListed event1 Unchanged]
                      | _ => []
                      end) common))).
Proof.
  cbv zeta. unfold detect_event_changes_body.
  destruct (events_by_uid_entries events1) as [_ N1].
  destruct (events_by_uid_entries events2) as [_ N2].
  unfold set_diff at 1 2.
  rewrite (uid_loop Added _ _ N2), (uid_loop Deleted _ _ N1). cbn [bind].
  rewrite (common_loop _ _ N1). cbn [bind]. reflexivity.
Qed.

Lemma dtstart_dict_returns (l : list event) (d0 : dict) :
  (forall e, In e l -> has_start_key e = true) ->
  exists d, foldM (fun d e => k <- dtstart_key e ;; Ok (dict_set d k e)) l d0
            = Ok d.
Proof.
  revert d0. induction l as [|e l IH]; intros d0 H; cbn [foldM]; [eauto|].
  assert (He : exists k, dtstart_key e = Ok k).
  { pose proof (H e (or_introl eq_refl)) as Hs.
    unfold has_start_key in Hs. unfold dtstart_key, getitem, lookup.
    destruct (dtstart e); [discriminate| |]; cbn; eauto. }
  destruct He as [k ->]. cbn [bind]. apply IH. intros x Hx. apply H. now right.
Qed.

Lemma dtstart_dict_raises (l : list event) (d0 : dict) (e : event) :
  In e l -> has_start_key e = false ->
  exists x, foldM (fun d e => k <- dtstart_key e ;; Ok (dict_set d k e)) l d0
            = Raise x.
Proof.
  revert d0. induction l as [|a l IH]; intros d0 Hin He; [contradiction|].
  cbn [foldM]. destruct (dtstart_key a) as [k|x] eqn:Ea; cbn [bind]; [|eauto].
  destruct Hin as [->|Hin]; [|now apply IH].
  unfold has_start_key in He. unfold dtstart_key, getitem, lookup in Ea.
  destruct (dtstart e); [discriminate Ea|discriminate He|discriminate He].
Qed.

Lemma dtstart_dict_values (l : list event) (d0 d : dict) (k : string) (e : event) :
  foldM (fun d e => k <- dtstart_key e ;; Ok (dict_set d k e)) l d0 = Ok d ->
  In (k, e) d -> In (k, e) d0 \/ In e l.
Proof.
  revert d0. induction l as [|a l IH]; intros d0; cbn [foldM].
  - intros [= <-]. auto.
  - destruct (dtstart_key a) as [ka|]; cbn [bind]; [|discriminate].
    intros H Hin. destruct (IH _ H Hin) as [Hd|Hl]; [|right; now right].
    apply dict_set_in in Hd. destruct Hd as [[_ ->]|Hd]; [right; now left|auto].
Qed.

(** A loop [for k in keys: out.append(d[k])] over keys of [d] returns, and
    what it appends are values of [d]. *)
Lemma subscript_loop (t : change_type) (d : dict) (keys : list string) :
  (forall k, In k keys -> In k (dict_keys d)) ->
  exists out,
    mapM (fun k => ev <- subscript d k ;; Ok (mkListed ev t)) keys = Ok out
    /\ forall x, In x out -> exists k, In (k, le_event x) d.
Proof.
  induction keys as [|k keys IH]; intros H; cbn [mapM].
  - exists []. split; [reflexivity|intros x []].
  - destruct IH as (out & -> & Ho); [intros k' Hk'; apply H; now right|].
    unfold subscript. destruct (dict_get d k) as [e|] eqn:E.
    + cbn [bind]. eexists. split; [reflexivity|].
      intros x [<-|Hx]; [|auto]. exists k. cbn [le_event]. now apply dict_get_in.
    + exfalso. apply dict_get_none in E. apply E, H. now left.
Qed.

(** Comparing a list of events with itself, where every event without uid
    has the key ['dtstart']: [compare_ics_files] returns, nothing is added,
    deleted or modified, and the unchanged entries are the events of the uid
    dictionary, so that [unchanged] counts the distinct non-empty uids (events
    without uid are not counted). *)
Theorem self_comparison (events : list event) :
  unkeyed_have_start_key events ->
  exists unchanged,
    compare_ics_files events events
    = Ok (mkComparison (len events) (len events)
            (mkComparisonSummary 0 0 0 (len (events_by_uid events)))
            (mkSimpleChanges [] [] [] unchanged))
    /\ Permutation (map le_event unchanged) (map snd (events_by_uid events)).
Proof.
  intros Hs.
  exists (map (fun item => mkListed (snd item) Unchanged) (events_by_uid events)).
  split; [|rewrite map_map; cbn [le_event]; reflexivity].
  unfold compare_ics_files, detect_event_changes.
  rewrite body_uid_part. cbv zeta.
  destruct (dtstart_dict_returns (filter (fun e => negb (has_uid e)) events) [])
    as [d Hd].
  { intros e He. apply filter_unkeyed_in in He. now apply Hs. }
  unfold dtstart_dict. rewrite Hd. cbn [bind].
  rewrite set_diff_self. cbn [filter mapM bind].
  unfold only_in.
  rewrite (filter_none _ (events_by_uid events)).
  2:{ intros [k e] Hin. apply negb_false_iff, set_mem_in. cbn [fst].
      change k with (fst (k, e)). now apply in_map. }
  cbn [map app list_sort bind].
  destruct (events_by_uid_entries events) as [_ Hn].
  rewrite (common_pairs_self _ Hn).
  assert (Hm : forall l : list (string * event),
             flat_map (fun '(event1, event2) =>
                 match compare_event_properties event1 event2 with
                 | [] => []
                 | property_changes =>
                     [mkModifiedEvent event1 event2 property_changes Modified]
                 end) (map (fun item => (snd item, snd item)) l) = []).
  { induction l as [|[k e] l IH]; cbn [map flat_map snd]; [reflexivity|].
    now rewrite compare_event_properties_self, IH. }
  assert (Hu : forall l : list (string * event),
             flat_map (fun '(event1, event2) =>
                 match compare_event_properties event1 event2 with
                 | [] => [mkListed event1 Unchanged]
                 | _ => []
                 end) (map (fun item => (snd item, snd item)) l)
             = map (fun item => mkListed (snd item) Unchanged) l).
  { induction l as [|[k e] l IH]; cbn [map flat_map snd]; [reflexivity|].
    now rewrite compare_event_properties_self, IH. }
  rewrite Hm, Hu. cbn [list_sort bind try_except s_added s_deleted s_modified
                       s_unchanged].
  unfold len. cbn [List.length]. now rewrite length_map.
Qed.

Lemma self_comparison_witness :
  exists unchanged,
    compare_ics_files [new_year; constitution_day; coming_of_age_day; new_years_day]
                      [new_year; constitution_day; coming_of_age_day; new_years_day]
    = Ok (mkComparison 4 4 (mkComparisonSummary 0 0 0 2)
            (mkSimpleChanges [] [] [] unchanged))
    /\ Permutation (map le_event unchanged) [new_years_day; coming_of_age_day].
Proof.
  apply (self_comparison
           [new_year; constitution_day; coming_of_age_day; new_years_day]).
  intros e He _.
  destruct He as [<-|[<-|[<-|[<-|[]]]]]; reflexivity.
Defined.

(** An event without uid that lacks the key ['dtstart'], in either list,
    makes [detect_event_changes] raise [ICSAnalysisError]: the fallback reads
    [event['dtstart']] of every event without uid. *)
Theorem unkeyed_without_start_key_raises (events1 events2 : list event)
        (e : event) :
  In e events1 \/ In e events2 ->
  has_uid e = false -> has_start_key e = false ->
  detect_event_changes events1 events2 = Raise ICSAnalysisError.
Proof.
  intros Hin Hu Hs. unfold detect_event_changes.
  assert (H : exists x, detect_event_changes_body events1 events2 = Raise x).
  { rewrite body_uid_part. cbv zeta. unfold dtstart_dict.
    destruct (foldM (fun d e => k <- dtstart_key e ;; Ok (dict_set d k e))
                    (filter (fun e => negb (has_uid e)) events1) [])
      as [d1|x] eqn:E1; cbn [bind]; [|eauto].
    destruct Hin as [Hin|Hin].
    - destruct (dtstart_dict_raises
                  (filter (fun e => negb (has_uid e)) events1) [] e) as [x Hx];
        [now apply filter_unkeyed_in|assumption|congruence].
    - destruct (dtstart_dict_raises
                  (filter (fun e => negb (has_uid e)) events2) [] e) as [x Hx];
        [now apply filter_unkeyed_in|assumption|].
      rewrite Hx. cbn [bind]. eauto. }
  destruct H as [x ->]. reflexivity.
Qed.

Lemma unkeyed_without_start_key_raises_witness :
  detect_event_changes
    [new_year]
    [new_year; mkEvent (Some "") (Val "Constitution Day") Missing Missing
                       Missing Missing]
  = Raise ICSAnalysisError.
Proof.
  apply (unkeyed_without_start_key_raises
           [new_year]
           [new_year; mkEvent (Some "") (Val "Constitution Day") Missing Missing
                              Missing Missing]
           (mkEvent (Some "") (Val "Constitution Day") Missing Missing
                    Missing Missing)).
  - right. right. now left.
  - reflexivity.
  - reflexivity.
Defined.

(** ** When the simple matcher returns *)

Lemma dict_value_in (events : list event) (k : string) (e : event) :
  In (k, e) (events_by_uid events) -> In e events.
Proof.
  intros Hin. destruct (events_by_uid_entries events) as [H _].
  rewrite Forall_forall in H. now destruct (H _ Hin) as [He _].
Qed.

Lemma start_loop_returns (t : change_type) (mine : list event)
      (d_mine d_theirs : dict) :
  dtstart_dict mine = Ok d_mine ->
  exists out,
    mapM (fun k => ev <- subscript d_mine k ;; Ok (mkListed ev t))
         (filter (fun k => negb (String.eqb k ""))
                 (set_diff (dict_keys d_mine) (dict_keys d_theirs))) = Ok out
    /\ forall x, In x out -> In (le_event x) mine.
Proof.
  intros Hd.
  destruct (subscript_loop t d_mine
              (filter (fun k => negb (String.eqb k ""))
                      (set_diff (dict_keys d_mine) (dict_keys d_theirs))))
    as (out & Ho & Hin).
  { intros k Hk. apply filter_In in Hk. destruct Hk as [Hk _].
    unfold set_diff in Hk. now apply filter_In in Hk. }
  exists out. split; [exact Ho|].
  intros x Hx. destruct (Hin x Hx) as [k Hk].
  destruct (dtstart_dict_values _ _ _ _ _ Hd Hk) as [[]|H]. exact H.
Qed.

(** [detect_event_changes] returns when every event without uid has the key
    ['dtstart'] and the sort dates of all events of the two lists are all
    naive or all aware. *)
Theorem simple_matcher_returns (events1 events2 : list event) :
  unkeyed_have_start_key events1 -> unkeyed_have_start_key events2 ->
  uniform_starts (events1 ++ events2) ->
  exists ch, detect_event_changes events1 events2 = Ok ch.
Proof.
  intros S1 S2 [b Hb]. unfold detect_event_changes.
  rewrite body_uid_part. cbv zeta.
  destruct (dtstart_dict_returns (filter (fun e => negb (has_uid e)) events1) [])
    as [d1 Hd1].
  { intros e He. apply filter_unkeyed_in in He. now apply S1. }
  destruct (dtstart_dict_returns (filter (fun e => negb (has_uid e)) events2) [])
    as [d2 Hd2].
  { intros e He. apply filter_unkeyed_in in He. now apply S2. }
  fold (dtstart_dict (filter (fun e => negb (has_uid e)) events1)) in Hd1.
  fold (dtstart_dict (filter (fun e => negb (has_uid e)) events2)) in Hd2.
  rewrite Hd1, Hd2. cbn [bind].
  destruct (start_loop_returns Added _ d2 d1 Hd2) as (a' & -> & Ha').
  destruct (start_loop_returns Deleted _ d1 d2 Hd1) as (r' & -> & Hr').
  cbn [bind].
  assert (B1 : forall e, In e events1 -> aware (event_sort_key e) = b)
    by (intros e He; apply Hb, in_or_app; now left).
  assert (B2 : forall e, In e events2 -> aware (event_sort_key e) = b)
    by (intros e He; apply Hb, in_or_app; now right).
  destruct (list_sort_returns listed_key b
              (map (fun item => mkListed (snd item) Added)
                   (only_in (events_by_uid events2) (events_by_uid events1))
               ++ a')%list) as [sa ->].
  { apply Forall_forall. intros x Hx. apply in_app_or in Hx.
    destruct Hx as [Hx|Hx].
    - apply in_map_iff in Hx. destruct Hx as ([k e] & <- & Hi).
      apply filter_In in Hi. destruct Hi as [Hi _].
      apply B2. now apply (dict_value_in _ k).
    - apply B2. apply Ha' in Hx. apply filter_unkeyed_in in Hx. tauto. }
  destruct (list_sort_returns listed_key b
              (map (fun item => mkListed (snd item) Deleted)
                   (only_in (events_by_uid events1) (events_by_uid events2))
               ++ r')%list) as [sd ->].
  { apply Forall_forall. intros x Hx. apply in_app_or in Hx.
    destruct Hx as [Hx|Hx].
    - apply in_map_iff in Hx. destruct Hx as ([k e] & <- & Hi).
      apply filter_In in Hi. destruct Hi as [Hi _].
      apply B1. now apply (dict_value_in _ k).
    - apply B1. apply Hr' in Hx. apply filter_unkeyed_in in Hx. tauto. }
  cbn [bind].
  match goal with
  | |- context [list_sort modified_key ?l] =>
      destruct (list_sort_returns modified_key b l) as [sm ->]
  end.
  { apply Forall_forall. intros x Hx. apply in_flat_map in Hx.
    destruct Hx as ([e1 e2] & Hp & Hx).
    destruct (compare_event_properties e1 e2); [contradiction|].
    destruct Hx as [<-|[]]. unfold modified_key. cbn [me_event2].
    apply B2. unfold common_pairs in Hp. apply in_flat_map in Hp.
    destruct Hp as ([k e] & _ & Hp). cbn [fst snd] in Hp.
    destruct (dict_get (events_by_uid events2) k) as [e'|] eqn:E;
      [|contradiction].
    destruct Hp as [Hp|[]]. injection Hp as _ ->.
    apply (dict_value_in _ k). now apply dict_get_in. }
  cbn [bind try_except]. eauto.
Qed.

Lemma simple_matcher_returns_witness :
  exists ch,
    detect_event_changes [constitution_day; new_year]
                         [greenery_day; new_years_day; no_date_event] = Ok ch.
Proof.
  apply (simple_matcher_returns [constitution_day; new_year]
                                [greenery_day; new_years_day; no_date_event]).
  - intros e [<-|[<-|[]]] _; reflexivity.
  - intros e [<-|[<-|[<-|[]]]] He; try reflexivity. discriminate He.
  - exists false. intros e [<-|[<-|[<-|[<-|[<-|[]]]]]]; reflexivity.
Defined.

(** ** The adapter: values that are no text, the order of the formats,
    malformed documents, and periods without start or end *)

Section AdapterEdges.
Variable strptime : string -> string -> result datetime.
Variable dateutil_parse : option (string -> result datetime).
Variable uuid4 : nat -> string.
Variable py_format : json -> string.

Lemma try_formats_non_text (v : json) (fmts : list string) :
  (forall s, v <> JStr s) ->
  try_formats strptime v fmts = Ok None
  \/ try_formats strptime v fmts = Raise TypeError.
Proof.
  intros Hv. destruct fmts as [|fmt fmts]; cbn [try_formats]; [now left|].
  right. destruct v; cbn [strptime_py]; try reflexivity.
  now destruct (Hv s).
Qed.

Lemma parse_non_text (v : json) :
  is_text v = false ->
  _parse_aws_datetime strptime dateutil_parse v = Ok None.
Proof.
  intros Hv. unfold _parse_aws_datetime, parse_aws_datetime_body.
  destruct (json_truthy v) eqn:Ht; cbn [negb]; [|reflexivity].
  assert (Hs : forall s, v <> JStr s).
  { intros s ->. cbn in Hv, Ht. congruence. }
  destruct (try_formats_non_text v formats Hs) as [-> | ->];
    cbn [bind try_except]; [|reflexivity].
  unfold dateutil_fallback. destruct dateutil_parse; [|reflexivity].
  destruct v; try reflexivity. now destruct (Hs s).
Qed.

Lemma try_formats_first (s : string) (earlier later : list string)
      (fmt : string) (d : datetime) :
  (forall f, In f earlier -> strptime s f = Raise ValueError) ->
  strptime s fmt = Ok d ->
  try_formats strptime (JStr s) (earlier ++ fmt :: later) = Ok (Some d).
Proof.
  intros He Hf. induction earlier as [|f earlier IH];
    cbn [app try_formats strptime_py].
  - now rewrite Hf.
  - rewrite (He f (or_introl eq_refl)). apply IH.
    intros f' Hf'. apply He. now right.
Qed.

Lemma parse_first_format (s : string) (earlier later : list string)
      (fmt : string) (d : datetime) :
  formats = (earlier ++ fmt :: later)%list ->
  (forall f, In f earlier -> strptime s f = Raise ValueError) ->
  strptime s fmt = Ok d -> s <> "" ->
  _parse_aws_datetime strptime dateutil_parse (JStr s) = Ok (Some d).
Proof.
  intros Hfmts He Hf Hs. unfold _parse_aws_datetime, parse_aws_datetime_body.
  cbn [json_truthy]. rewrite (eqb_neq_false _ _ Hs). cbn [negb].
  rewrite Hfmts, (try_formats_first s earlier later fmt d He Hf).
  reflexivity.
Qed.

Lemma normalize_event_not_object (st : nat * list normalized_event) (ev : json) :
  ~ is_object ev ->
  normalize_event strptime dateutil_parse uuid4 st ev = Raise AttributeError.
Proof.
  intros Hn. destruct st as [n acc]. unfold normalize_event.
  destruct ev; try reflexivity. exfalso. apply Hn. now exists l.
Qed.

Lemma is_object_dec (j : json) : {is_object j} + {~ is_object j}.
Proof.
  destruct j; try (right; intros [l' H]; discriminate H).
  left. now exists l.
Qed.

Lemma normalize_events_raise (items : list json) (st : nat * list normalized_event) :
  ~ Forall is_object items ->
  exists x, foldM (normalize_event strptime dateutil_parse uuid4) items st
            = Raise x.
Proof.
  revert st. induction items as [|ev items IH]; intros st Hn.
  - exfalso. apply Hn. constructor.
  - cbn [foldM]. destruct (is_object_dec ev) as [Ho|Ho].
    + destruct st as [n acc]. rewrite normalize_event_step by assumption.
      cbn [bind]. apply IH. intros Hf. apply Hn. now constructor.
    + rewrite normalize_event_not_object by assumption. cbn [bind]. eauto.
Qed.

Lemma chars_not_objects (s : string) : s <> "" -> ~ Forall is_object (chars s).
Proof.
  destruct s as [|c s]; [congruence|]. intros _ H. cbn [chars] in H.
  apply Forall_cons_iff in H. destruct H as [[l Hl] _]. discriminate Hl.
Qed.

Lemma normalize_malformed (calendar_data : json) :
  ~ is_object calendar_data
  \/ (exists events, field_of calendar_data "events" = Some events
                     /\ json_truthy events = true
                     /\ ~ array_of_objects events) ->
  normalize_aws_calendar_to_ics strptime dateutil_parse uuid4 py_format
                                calendar_data = Raise ICSAnalysisError.
Proof.
  intros H. unfold normalize_aws_calendar_to_ics.
  assert (Hr : exists x, normalize_body strptime dateutil_parse uuid4 py_format
                                        calendar_data = Raise x).
  { destruct H as [Hn|(events & Hf & Ht & Ha)].
    - unfold normalize_body. destruct calendar_data; cbn [json_get bind]; eauto.
      exfalso. apply Hn. now exists l.
    - destruct calendar_data as [| | | | |c]; try discriminate Hf.
      cbn [field_of] in Hf. unfold normalize_body. cbn [json_get bind].
      rewrite Hf, Ht. cbn [negb].
      destruct events as [|b|n|s|l|l]; cbn [json_iter bind]; eauto.
      + assert (Hs : s <> "") by (intros ->; discriminate Ht).
        destruct (normalize_events_raise (chars s) (O, [])
                    (chars_not_objects s Hs)) as [x ->]. cbn [bind]. eauto.
      + destruct (normalize_events_raise l (O, [])) as [x ->];
          [|cbn [bind]; eauto].
        intros Hl. apply Ha. now exists l.
      + destruct l as [|[k v] l]; [discriminate Ht|].
        cbn [map fst foldM].
        rewrite normalize_event_not_object
          by (intros [l' Hl']; discriminate Hl').
        cbn [bind]. eauto. }
  destruct Hr as [x ->]. reflexivity.
Qed.

Lemma periods_fold_uids (calendar_data : json) (periods : list json)
      (n : nat) (acc : list normalized_event) :
  is_object calendar_data -> Forall is_object periods ->
  exists extra,
    foldM (normalize_period strptime dateutil_parse uuid4 py_format calendar_data)
          periods (n, acc)
    = Ok ((n + List.length (filter complete_period periods))%nat,
          (acc ++ extra)%list)
    /\ map n_uid extra
       = placeholder_uids uuid4 n (List.length (filter complete_period periods)).
Proof.
  intros [c ->] H. revert n acc.
  induction periods as [|period periods IH]; intros n acc;
    cbn [foldM filter].
  - exists []. rewrite app_nil_r, Nat.add_0_r. split; reflexivity.
  - apply Forall_cons_iff in H. destruct H as [[l ->] Hr].
    unfold normalize_period at 1. cbn [json_get bind].
    assert (Ec : complete_period (JObj l)
                 = json_truthy (match assoc "start" l with
                                | Some v => v | None => JNull end)
                   && json_truthy (match assoc "end" l with
                                   | Some v => v | None => JNull end))
      by reflexivity.
    rewrite <- Ec. destruct (complete_period (JObj l)).
    + destruct (parse_returns strptime dateutil_parse
                  (match assoc "start" l with
                   | Some v => v | None => JNull end)) as [r1 E1].
      destruct (parse_returns strptime dateutil_parse
                  (match assoc "end" l with
                   | Some v => v | None => JNull end)) as [r2 E2].
      rewrite E1, E2. cbn [bind].
      match goal with
      | |- context [foldM _ periods (S n, ?a)] =>
          destruct (IH Hr (S n) a) as (extra & Hf & Hu)
      end.
      rewrite Hf. rewrite <- app_assoc. eexists (_ :: extra).
      cbn [List.length]. rewrite Nat.add_succ_r. split; [reflexivity|].
      cbn [map n_uid]. unfold placeholder_uids in *. cbn [seq map].
      now rewrite Hu.
    + apply IH. exact Hr.
Qed.

Lemma schedule_uids (c sch : list (string * json)) (periods : list json) :
  json_truthy (match assoc "events" c with Some v => v | None => JArr [] end)
  = false ->
  assoc "schedule" c = Some (JObj sch) -> sch <> [] ->
  json_get (JObj sch) "periods" (JArr []) = Ok (JArr periods) ->
  Forall is_object periods ->
  exists out,
    normalize_aws_calendar_to_ics strptime dateutil_parse uuid4 py_format (JObj c)
    = Ok out
    /\ map n_uid out
       = placeholder_uids uuid4 0 (List.length (filter complete_period periods)).
Proof.
  intros He Hs Hne Hp Ho.
  unfold normalize_aws_calendar_to_ics, normalize_body.
  cbn [json_get bind]. rewrite He, Hs. cbn [negb json_truthy].
  destruct sch as [|x sch]; [congruence|]. rewrite Hp. cbn [bind json_iter].
  destruct (periods_fold_uids (JObj c) periods 0 []
              (ex_intro _ c eq_refl) Ho) as (extra & Hf & Hx).
  rewrite Hf. cbn [bind try_except snd app]. eauto.
Qed.
End AdapterEdges.

(** [_parse_aws_datetime] answers [None] for every value that is not a
    non-empty text: [None], the empty text, a number, a truth value, an
    array or an object. *)
Theorem parse_non_text_is_none
        (strptime : string -> string -> result datetime)
        (dateutil_parse : option (string -> result datetime)) (v : json) :
  is_text v = false ->
  _parse_aws_datetime strptime dateutil_parse v = Ok None.
Proof.
  apply parse_non_text.
Qed.

Lemma parse_non_text_is_none_witness :
  _parse_aws_datetime strptime_january None (JNum 20240101) = Ok None.
Proof.
  apply (parse_non_text_is_none strptime_january None (JNum 20240101)).
  reflexivity.
Defined.

(** The first format of the list that reads the text decides: when
    [strptime] rejects the text with [ValueError] for the formats before
    [fmt] and reads it as [d] with [fmt], [_parse_aws_datetime] returns [d],
    whatever the later formats and [dateutil] would make of the text. *)
Theorem parse_first_format_wins
        (strptime : string -> string -> result datetime)
        (dateutil_parse : option (string -> result datetime))
        (s : string) (earlier later : list string) (fmt : string) (d : datetime) :
  formats = (earlier ++ fmt :: later)%list ->
  (forall f, In f earlier -> strptime s f = Raise ValueError) ->
  strptime s fmt = Ok d -> s <> "" ->
  _parse_aws_datetime strptime dateutil_parse (JStr s) = Ok (Some d).
Proof.
  apply parse_first_format.
Qed.

Lemma parse_first_format_wins_witness :
  _parse_aws_datetime strptime_january
                      (Some (fun _ => Ok (mkDatetime 1999 12 31 0 0 0 0 None)))
                      (JStr "2024-01-02")
  = Ok (Some (mkDatetime 2024 1 2 0 0 0 0 None)).
Proof.
  apply (parse_first_format_wins
           strptime_january _ "2024-01-02"
           ["%Y-%m-%dT%H:%M:%SZ"; "%Y-%m-%dT%H:%M:%S.%fZ"]
           ["%Y-%m-%dT%H:%M:%S"; "%Y/%m/%d %H:%M:%S"] "%Y-%m-%d").
  - reflexivity.
  - intros f [<-|[<-|[]]]; reflexivity.
  - reflexivity.
  - discriminate.
Defined.

(** A malformed document makes the adapter raise [ICSAnalysisError]: a
    document that is no object, or one whose ['events'] is a non-empty value
    other than an array of objects (a number, a text, an object, or an array
    with an element that is no object). *)
Theorem malformed_document_raises
        (strptime : string -> string -> result datetime)
        (dateutil_parse : option (string -> result datetime))
        (uuid4 : nat -> string) (py_format : json -> string)
        (calendar_data : json) :
  ~ is_object calendar_data
  \/ (exists events, field_of calendar_data "events" = Some events
                     /\ json_truthy events = true
                     /\ ~ array_of_objects events) ->
  normalize_aws_calendar_to_ics strptime dateutil_parse uuid4 py_format
                                calendar_data = Raise ICSAnalysisError.
Proof.
  apply normalize_malformed.
Qed.

Lemma malformed_document_raises_witness :
  normalize_aws_calendar_to_ics
    strptime_january None uuids_a (fun _ => "")
    (JObj [("events", JArr [JObj [("id", JStr "w-1")]; JStr "w-2"])])
  = Raise ICSAnalysisError.
Proof.
  apply (malformed_document_raises strptime_january None uuids_a (fun _ => "")).
  right. eexists. split; [reflexivity|]. split; [reflexivity|].
  intros (evs & E & H). injection E as <-.
  apply Forall_cons_iff in H. destruct H as [_ H].
  apply Forall_cons_iff in H. destruct H as [[l Hl] _]. discriminate Hl.
Defined.

(** In the old format only the periods that have both a start and an end
    yield an event, in the order of the document, and only they draw a value
    from the uuid generator: the uids are the placeholder uids made from the
    first values of the generator, one after the other. *)
Theorem schedule_skips_incomplete_periods
        (strptime : string -> string -> result datetime)
        (dateutil_parse : option (string -> result datetime))
        (uuid4 : nat -> string) (py_format : json -> string)
        (c sch : list (string * json)) (periods : list json) :
  json_truthy (match assoc "events" c with Some v => v | None => JArr [] end)
  = false ->
  assoc "schedule" c = Some (JObj sch) -> sch <> [] ->
  json_get (JObj sch) "periods" (JArr []) = Ok (JArr periods) ->
  Forall is_object periods ->
  exists out,
    normalize_aws_calendar_to_ics strptime dateutil_parse uuid4 py_format (JObj c)
    = Ok out
    /\ map n_uid out
       = placeholder_uids uuid4 0 (List.length (filter complete_period periods)).
Proof.
  apply schedule_uids.
Qed.

Lemma schedule_skips_incomplete_periods_witness :
  exists out,
    normalize_aws_calendar_to_ics strptime_january None uuids_count (fun _ => "")
                                  schedule_calendar = Ok out
    /\ map n_uid out
       = [JStr "aws-change-calendar-5f0c6b1e-0000-4000-8000-000000000000";
          JStr "aws-change-calendar-5f0c6b1e-0000-4000-8000-000000000001"].
Proof.
  refine (schedule_skips_incomplete_periods
            strptime_january None uuids_count (fun _ => "")
            calendar_fields schedule_fields schedule_periods
            eq_refl eq_refl _ eq_refl _).
  - discriminate.
  - repeat constructor; eexists; reflexivity.
Defined.

(** ** The comparison with the AWS calendar *)

Lemma added_entry_in (events1 events2 : list event) (x : event_change) :
  In x (added (detect_event_changes_detailed events1 events2)) ->
  In (ec_event x) events2 /\ has_uid (ec_event x) = true
  /\ forall e, In e events1 -> has_uid e = true ->
               uid_key e <> uid_key (ec_event x).
Proof.
  rewrite detect_added. intros Hx. apply in_flat_map in Hx.
  destruct Hx as ([k e2] & Hin & Hx). unfold added_entry in Hx.
  cbn [fst snd] in Hx.
  destruct (dict_get (events_by_uid events1) k) eqn:E; [contradiction|].
  destruct Hx as [<-|[]]. cbn [ec_event].
  destruct (events_by_uid_entries events2) as [Hk _].
  rewrite Forall_forall in Hk. destruct (Hk _ Hin) as (H1 & H2 & H3).
  cbn [fst snd] in H1, H2, H3.
  split; [exact H1|]. split; [exact H2|].
  intros e He Hu Heq. apply dict_get_none in E. apply E.
  apply uid_key_in. exists e. split; [exact He|]. split; [exact Hu|].
  congruence.
Qed.

Lemma deleted_entry_in (events1 events2 : list event) (x : event_change) :
  In x (deleted (detect_event_changes_detailed events1 events2)) ->
  In (ec_event x) events1 /\ has_uid (ec_event x) = true
  /\ forall e, In e events2 -> has_uid e = true ->
               uid_key e <> uid_key (ec_event x).
Proof.
  rewrite detect_deleted. intros Hx. apply in_flat_map in Hx.
  destruct Hx as ([k e1] & Hin & Hx). unfold deleted_entry in Hx.
  cbn [fst snd] in Hx.
  destruct (dict_get (events_by_uid events2) k) eqn:E; [contradiction|].
  destruct Hx as [<-|[]]. cbn [ec_event].
  destruct (events_by_uid_entries events1) as [Hk _].
  rewrite Forall_forall in Hk. destruct (Hk _ Hin) as (H1 & H2 & H3).
  cbn [fst snd] in H1, H2, H3.
  split; [exact H1|]. split; [exact H2|].
  intros e He Hu Heq. apply dict_get_none in E. apply E.
  apply uid_key_in. exists e. split; [exact He|]. split; [exact Hu|].
  congruence.
Qed.

(** What [compare_with_aws_change_calendar] lists under ['local_only'] are
    events of the AWS calendar whose uid no local event has, and what it
    lists under ['aws_only'] are local events whose uid no event of the AWS
    calendar has. *)
Theorem aws_comparison_sides (local_events aws_events : list event) :
  let c := compare_with_aws_change_calendar local_events aws_events in
  (forall x, In x (ac_local_only c) ->
             In (ec_event x) aws_events /\ has_uid (ec_event x) = true
             /\ forall e, In e local_events -> has_uid e = true ->
                          uid_key e <> uid_key (ec_event x))
  /\ (forall x, In x (ac_aws_only c) ->
                In (ec_event x) local_events /\ has_uid (ec_event x) = true
                /\ forall e, In e aws_events -> has_uid e = true ->
                             uid_key e <> uid_key (ec_event x)).
Proof.
  cbv zeta. unfold compare_with_aws_change_calendar.
  cbn [ac_local_only ac_aws_only].
  split; intros x Hx; [now apply added_entry_in|now apply deleted_entry_in].
Qed.

Lemma aws_comparison_sides_witness :
  In substitute_holiday [new_year; substitute_holiday]
  /\ forall e, In e [new_year; coming_of_age_day] -> has_uid e = true ->
                uid_key e <> uid_key substitute_holiday.
Proof.
  destruct (aws_comparison_sides [new_year; coming_of_age_day]
                                 [new_year; substitute_holiday]) as [H _].
  destruct (H (mkEventChange substitute_holiday Added "e3")) as (H1 & _ & H2).
  - left. reflexivity.
  - split; [exact H1|exact H2].
Defined.

(** The count ['identical'] of the comparison: every pair of events the
    classifier calls unchanged counts twice, every modified and every moved
    pair once, every pair whose duration changed twice, and every event that
    is in no uid dictionary (no uid, or a uid written again later) once. *)
Theorem aws_identical_count (local_events aws_events : list event) :
  let c := compare_with_aws_change_calendar local_events aws_events in
  let ch := detect_event_changes_detailed local_events aws_events in
  as_identical (ac_statistics c)
  = 2 * len (unchanged_pairs local_events aws_events)
    + len (ac_different c) + len (ac_moved c) + 2 * len (duration_changed ch)
    + (len local_events - len (events_by_uid local_events))
    + (len aws_events - len (events_by_uid aws_events)).
Proof.
  cbv zeta. unfold compare_with_aws_change_calendar.
  cbn [ac_statistics as_identical ac_different ac_moved].
  destruct (detailed_counts local_events aws_events) as (Ha & Hd & Hc).
  cbv zeta in *.
  pose proof (classified_length
                (detect_event_changes_detailed local_events aws_events)) as Hl.
  lia.
Qed.

Lemma len_zero {A : Type} (l : list A) : len l = 0 <-> l = [].
Proof.
  unfold len. destruct l; cbn [List.length]; split; try reflexivity;
    try discriminate; lia.
Qed.

(** The calendars are reported as synchronized exactly when nothing is listed
    under ['local_only'], ['aws_only'] and ['different']; the moved events are
    not asked about, so that the recommendations are then the line about the
    moved events, if there are any, followed by the line that the calendars
    are synchronized. *)
Theorem synchronized_despite_moves (local_events aws_events : list event) :
  let c := compare_with_aws_change_calendar local_events aws_events in
  let in_sync :=
    ac_local_only c = [] /\ ac_aws_only c = [] /\ ac_different c = [] in
  (last (ac_recommendations c) "" = synchronized_message <-> in_sync)
  /\ (in_sync ->
      ac_recommendations c
      = (if 0 <? len (ac_moved c)
         then [(py_int_str (len (ac_moved c))
                ++ "件のイベントが移動されています。日時を確認してください")%string]
         else []) ++ [synchronized_message])%list.
Proof.
  cbv zeta. unfold compare_with_aws_change_calendar.
  cbn [ac_local_only ac_aws_only ac_different ac_moved ac_recommendations].
  set (ch := detect_event_changes_detailed local_events aws_events).
  unfold _generate_aws_recommendations.
  cbn [as_local_only as_aws_only as_different as_moved].
  rewrite <- !(len_zero (added ch)), <- !(len_zero (deleted ch)),
    <- !(len_zero (modified ch)).
  assert (Hn : forall A (l : list A), 0 <= len l) by (intros; unfold len; lia).
  pose proof (Hn _ (added ch)) as Ha. pose proof (Hn _ (deleted ch)) as Hd.
  pose proof (Hn _ (modified ch)) as Hm.
  split.
  - rewrite !app_assoc. 
    destruct ((len (added ch) =? 0) && (len (deleted ch) =? 0)
              && (len (modified ch) =? 0)) eqn:E.
    + rewrite last_last. rewrite !andb_true_iff, !Z.eqb_eq in E. tauto.
    + unfold follow_up_messages.
      change ["AWS Change Calendarの更新後、状態確認を実施してください";
              "次回比較: 1ヶ月後（推奨）"]
        with (["AWS Change Calendarの更新後、状態確認を実施してください"]
              ++ ["次回比較: 1ヶ月後（推奨）"])%list.
      rewrite app_assoc, last_last.
      split; [intros H; vm_compute in H; discriminate H|].
      intros (H1 & H2 & H3). rewrite H1, H2, H3 in E. discriminate E.
  - intros (-> & -> & ->). reflexivity.
Qed.

Lemma synchronized_despite_moves_witness :
  ac_recommendations (compare_with_aws_change_calendar [new_year] [new_year_shifted])
  = ["1件のイベントが移動されています。日時を確認してください";
     "ローカルファイルとAWS Change Calendarは同期されています"].
Proof.
  apply (synchronized_despite_moves [new_year] [new_year_shifted]).
  repeat split.
Defined.

(** ** The period of an event and the date of an ICS date-time *)

Lemma string_length_append (s t : string) :
  String.length (s ++ t) = (String.length s + String.length t)%nat.
Proof.
  induction s as [|c s IH]; cbn [append String.length]; [reflexivity|].
  now rewrite IH.
Qed.

Lemma string_append_assoc (s t u : string) :
  (s ++ (t ++ u))%string = ((s ++ t) ++ u)%string.
Proof.
  induction s as [|c s IH]; cbn [append]; [reflexivity|]. now rewrite IH.
Qed.

Lemma string_append_nil_r (s : string) : (s ++ "")%string = s.
Proof.
  induction s as [|c s IH]; cbn [append]; [reflexivity|]. now rewrite IH.
Qed.

Lemma zero_pad_length (w : nat) (n : Z) : String.length (zero_pad w n) = w.
Proof.
  revert n. induction w as [|w IH]; intros n; cbn [zero_pad]; [reflexivity|].
  rewrite string_length_append, IH. cbn. lia.
Qed.

Lemma date_isoformat_length (d : datetime) :
  String.length (date_isoformat d) = 10%nat.
Proof.
  unfold date_isoformat. rewrite !string_length_append, !zero_pad_length.
  reflexivity.
Qed.

Lemma isoformat_date (d : datetime) :
  exists rest, isoformat d = (date_isoformat d ++ String "T" rest)%string.
Proof.
  unfold isoformat, isoformat_sep, date_isoformat. eexists.
  rewrite <- !string_append_assoc. cbn [append]. reflexivity.
Qed.

Lemma prefix_append (s t : string) : prefix s (s ++ t) = true.
Proof.
  induction s as [|c s IH]; cbn [append prefix].
  - now destruct t.
  - destruct (ascii_dec c c); [exact IH|congruence].
Qed.

Lemma longer_differs (s t : string) : t <> "" -> (s ++ t)%string <> s.
Proof.
  intros Ht H. apply (f_equal String.length) in H.
  rewrite string_length_append in H.
  destruct t; [congruence|]. cbn [String.length] in H. lia.
Qed.

(** For an event with a start and the key ['dtend'], what
    [_format_event_period] prints begins with the date of the start, and it
    is that date alone exactly for an all-day event: one that starts at
    midnight and ends at midnight of the next day. *)
Theorem period_is_date_iff_all_day (ev : event) (start_dt : datetime) :
  dtstart ev = Val start_dt -> dtend ev <> Missing ->
  prefix (date_isoformat start_dt) (_format_event_period ev) = true
  /\ (_format_event_period ev = date_isoformat start_dt <-> all_day ev = true).
Proof.
  intros Hs He. unfold _format_event_period, all_day. rewrite Hs.
  unfold days_between.
  destruct (isoformat_date start_dt) as [rest Hr].
  destruct (dtend ev) as [| |end_dt]; [congruence| |].
  - rewrite Hr. split; [apply prefix_append|].
    split; [|discriminate]. intros H. now apply longer_differs in H.
  - destruct (at_midnight start_dt && at_midnight end_dt
              && (toordinal end_dt - toordinal start_dt =? 1)).
    + split; [|tauto]. rewrite <- (string_append_nil_r (date_isoformat start_dt)) at 2.
      apply prefix_append.
    + rewrite Hr, <- string_append_assoc. split; [apply prefix_append|].
      split; [|discriminate]. intros H. now apply longer_differs in H.
Qed.

Lemma period_is_date_iff_all_day_witness :
  _format_event_period new_year = "2024-01-01".
Proof.
  apply (period_is_date_iff_all_day new_year (naive 2024 1 1) eq_refl).
  - discriminate.
  - reflexivity.
Defined.

Lemma before_T_no_T (s : string) : contains_T (before_T s) = false.
Proof.
  induction s as [|c s IH]; cbn [before_T]; [reflexivity|].
  destruct (Ascii.eqb c "T") eqn:E; [reflexivity|].
  cbn [contains_T]. now rewrite E, IH.
Qed.

Lemma before_T_append (d t : string) :
  contains_T d = false -> before_T (d ++ String "T" t) = d.
Proof.
  induction d as [|c d IH]; cbn [contains_T append before_T]; [reflexivity|].
  destruct (Ascii.eqb c "T"); cbn [orb]; [discriminate|].
  intros H. now rewrite IH.
Qed.

Lemma contains_T_append (d t : string) : contains_T (d ++ String "T" t) = true.
Proof.
  induction d as [|c d IH]; cbn [contains_T append]; [reflexivity|].
  rewrite IH. apply orb_true_r.
Qed.

Lemma take_drop_chars (n : nat) (s : string) :
  (take_chars n s ++ drop_chars n s)%string = s.
Proof.
  revert n. induction s as [|c s IH]; intros n; cbn [take_chars drop_chars];
    [reflexivity|].
  destruct (is_continuation c); cbn [append]; [now rewrite IH|].
  destruct n as [|n]; cbn [append]; [reflexivity|now rewrite IH].
Qed.

Lemma py_len_append (s t : string) :
  py_len (s ++ t) = (py_len s + py_len t)%nat.
Proof.
  induction s as [|c s IH]; cbn [append py_len]; [reflexivity|].
  destruct (is_continuation c); rewrite IH; reflexivity.
Qed.

Lemma py_len_take (n : nat) (s : string) :
  (n <= py_len s)%nat -> py_len (take_chars n s) = n.
Proof.
  revert n. induction s as [|c s IH]; intros n; cbn [py_len take_chars].
  - intros H. now apply Nat.le_0_r in H.
  - destruct (is_continuation c) eqn:E.
    + intros H. cbn [py_len]. rewrite E. now apply IH.
    + destruct n as [|n]; [reflexivity|].
      intros H. cbn [py_len]. rewrite E. f_equal. apply IH. lia.
Qed.

Lemma py_len_drop (n : nat) (s : string) :
  (n <= py_len s)%nat -> py_len (drop_chars n s) = (py_len s - n)%nat.
Proof.
  intros H. pose proof (py_len_append (take_chars n s) (drop_chars n s)) as E.
  rewrite take_drop_chars, py_len_take in E by assumption. lia.
Qed.

Lemma drop_chars_empty (n : nat) (s : string) :
  py_len (drop_chars n s) = O -> drop_chars n s = "".
Proof.
  revert n. induction s as [|c s IH]; intros n; cbn [drop_chars];
    [reflexivity|].
  destruct (is_continuation c) eqn:E; [apply IH|].
  destruct n as [|n]; [|apply IH].
  cbn [py_len]. rewrite E. discriminate.
Qed.

Lemma drop_drop_chars (a b : nat) (s : string) :
  drop_chars a (drop_chars b s) = drop_chars (a + b) s.
Proof.
  revert b. induction s as [|c s IH]; intros b; cbn [drop_chars].
  - reflexivity.
  - destruct (is_continuation c) eqn:E; [apply IH|].
    destruct b as [|b].
    + rewrite Nat.add_0_r. cbn [drop_chars]. now rewrite E.
    + rewrite Nat.add_succ_r. apply IH.
Qed.

Lemma dashed_parts (s : string) :
  py_len s = 8%nat ->
  exists y m d,
    py_len y = 4%nat /\ py_len m = 2%nat /\ py_len d = 2%nat
    /\ s = (y ++ m ++ d)%string
    /\ dashed s = (y ++ "-" ++ m ++ "-" ++ d)%string.
Proof.
  intros H. unfold dashed, slice. cbn [Nat.sub].
  exists (take_chars 4 s), (take_chars 2 (drop_chars 4 s)),
         (take_chars 2 (drop_chars 6 s)).
  assert (L4 : py_len (drop_chars 4 s) = 4%nat)
    by (rewrite py_len_drop; lia).
  assert (L6 : py_len (drop_chars 6 s) = 2%nat)
    by (rewrite py_len_drop; lia).
  assert (L8 : drop_chars 8 s = "")
    by (apply drop_chars_empty; rewrite py_len_drop; lia).
  split; [apply py_len_take; lia|].
  split; [apply py_len_take; lia|].
  split; [apply py_len_take; lia|].
  split; [|reflexivity].
  assert (E6 : drop_chars 6 s = take_chars 2 (drop_chars 6 s)).
  { rewrite <- (take_drop_chars 2 (drop_chars 6 s)) at 1.
    rewrite drop_drop_chars. cbn [Nat.add].
    now rewrite L8, string_append_nil_r. }
  assert (E4 : drop_chars 4 s
               = (take_chars 2 (drop_chars 4 s) ++ drop_chars 6 s)%string).
  { rewrite <- (take_drop_chars 2 (drop_chars 4 s)) at 1.
    now rewrite drop_drop_chars. }
  rewrite <- E6, <- E4. symmetry. apply take_drop_chars.
Qed.

(** [_extract_date_from_ics] answers exactly when the date part of the text
    (what stands before the first ['T'], or the whole text) has eight
    characters, whatever they are; the answer is the date part with a dash
    after the fourth and after the sixth character. *)
Theorem extract_date_shape (ics_datetime : string) :
  (py_len (date_part ics_datetime) = 8%nat ->
   exists y m d,
     py_len y = 4%nat /\ py_len m = 2%nat /\ py_len d = 2%nat
     /\ date_part ics_datetime = (y ++ m ++ d)%string
     /\ _extract_date_from_ics ics_datetime
        = Some (y ++ "-" ++ m ++ "-" ++ d)%string)
  /\ (py_len (date_part ics_datetime) <> 8%nat ->
      _extract_date_from_ics ics_datetime = None).
Proof.
  unfold _extract_date_from_ics, date_part.
  destruct (contains_T ics_datetime); cbv zeta; split; intros H.
  - destruct (dashed_parts _ H) as (y & m & d & Hy & Hm & Hd & Hs & Hr).
    exists y, m, d. rewrite H, Hr. cbn [Nat.eqb]. auto.
  - apply Nat.eqb_neq in H. now rewrite H.
  - destruct (dashed_parts _ H) as (y & m & d & Hy & Hm & Hd & Hs & Hr).
    exists y, m, d. rewrite H, Hr. cbn [Nat.eqb]. auto.
  - apply Nat.eqb_neq in H. now rewrite H.
Qed.

Lemma extract_date_shape_witness :
  _extract_date_from_ics "2024-01-01" = None
  /\ (exists r, _extract_date_from_ics "20240101T090000Z" = Some r)
  /\ exists r, _extract_date_from_ics "２０２４０１０１" = Some r.
Proof.
  split; [|split].
  - apply (extract_date_shape "2024-01-01"). discriminate.
  - destruct (extract_date_shape "20240101T090000Z") as [H _].
    destruct (H eq_refl) as (y & m & d & _ & _ & _ & _ & Hr). eauto.
  - destruct (extract_date_shape "２０２４０１０１") as [H _].
    destruct (H eq_refl) as (y & m & d & _ & _ & _ & _ & Hr). eauto.
Defined.

(** The time of day plays no part: a date followed by ['T'] and any text
    gives what the date alone gives. *)
Theorem extract_date_ignores_time (d t : string) :
  contains_T d = false ->
  _extract_date_from_ics (d ++ String "T" t) = _extract_date_from_ics d.
Proof.
  intros H. unfold _extract_date_from_ics.
  rewrite contains_T_append, H. cbv zeta. now rewrite before_T_append.
Qed.

Lemma extract_date_ignores_time_witness :
  _extract_date_from_ics "20240101T090000Z" = Some "2024-01-01".
Proof.
  exact (eq_trans (extract_date_ignores_time "20240101" "090000Z" eq_refl)
                  eq_refl).
Defined.

(** ** The statistics of a list of events *)

Lemma counted_increment {K : Type} (eqb : K -> K -> bool) (c : list (K * Z))
      (k : K) :
  counted (increment eqb c k) = counted c + 1.
Proof.
  unfold counted. induction c as [|[k' n] c IH]; cbn [increment fold_right snd].
  - reflexivity.
  - destruct (eqb k k'); cbn [fold_right snd]; lia.
Qed.

Lemma tally_fold (events : list event) (t t' : tally) :
  foldM tally_event events t = Ok t' ->
  counted (t_holiday_types t') = counted (t_holiday_types t) + len events
  /\ counted (t_yearly t')
     = counted (t_yearly t) + len (filter has_start events)
  /\ counted (t_monthly t')
     = counted (t_monthly t) + len (filter has_start events)
  /\ len (t_valid_dates t')
     = len (t_valid_dates t) + len (filter has_start events)
  /\ forall d, In d (t_valid_dates t') ->
               In d (t_valid_dates t)
               \/ exists ev, In ev events /\ dtstart ev = Val d.
Proof.
  revert t. induction events as [|ev events IH]; intros t; cbn [foldM].
  - intros [= <-]. unfold len. cbn [filter List.length].
    repeat split; try lia. auto.
  - destruct (tally_event t ev) as [t1|] eqn:E; cbn [bind]; [|discriminate].
    intros H. destruct (IH _ H) as (H1 & H2 & H3 & H4 & H5). clear IH H.
    unfold tally_event in E.
    destruct (holiday_type ev) as [label|]; cbn [bind] in E; [|discriminate].
    unfold getitem, lookup in E. cbn [filter]. unfold len in *.
    destruct (dtstart ev) as [| |d] eqn:Ed; cbn [bind truthy] in E;
      [discriminate E| |].
    + assert (E1 : t1 = mkTally (increment String.eqb (t_holiday_types t) label)
                                (t_yearly t) (t_monthly t) (t_valid_dates t))
        by congruence.
      subst t1. cbn [t_holiday_types t_yearly t_monthly t_valid_dates] in *.
      rewrite counted_increment in H1.
      assert (Hh : has_start ev = false) by (unfold has_start; now rewrite Ed).
      rewrite Hh. cbn [List.length].
      split; [lia|]. split; [lia|]. split; [lia|]. split; [lia|].
      intros d Hd. destruct (H5 d Hd) as [Hin|(e & He & Hs)]; [now left|].
      right. exists e. split; [now right|assumption].
    + assert (E1 : t1 = mkTally (increment String.eqb (t_holiday_types t) label)
                                (increment Z.eqb (t_yearly t) (year d))
                                (increment Z.eqb (t_monthly t) (month d))
                                (t_valid_dates t ++ [d])%list)
        by congruence.
      subst t1. cbn [t_holiday_types t_yearly t_monthly t_valid_dates] in *.
      rewrite counted_increment in H1. rewrite counted_increment in H2.
      rewrite counted_increment in H3. rewrite length_app in H4.
      assert (Hh : has_start ev = true) by (unfold has_start; now rewrite Ed).
      rewrite Hh. cbn [List.length] in *.
      split; [lia|]. split; [lia|]. split; [lia|]. split; [lia|].
      intros d' Hd. destruct (H5 d' Hd) as [Hin|(e & He & Hs)].
      * apply in_app_or in Hin. destruct Hin as [Hin|[<-|[]]]; [now left|].
        right. exists ev. split; [now left|assumption].
      * right. exists e. split; [now right|assumption].
Qed.

Lemma analyze_events_ok (events : list event) (a : event_statistics) :
  analyze_events events = Ok a ->
  events = [] /\ a = mkEventStatistics 0 None [] [] []
  \/ exists t sorted,
       events <> []
       /\ foldM tally_event events (mkTally [] [] [] []) = Ok t
       /\ list_sort (fun d => d) (t_valid_dates t) = Ok sorted
       /\ a = mkEventStatistics (len events) (range_of sorted)
                                (t_holiday_types t) (t_yearly t) (t_monthly t).
Proof.
  unfold analyze_events. destruct events as [|ev events].
  - cbn. intros [= <-]. now left.
  - intros H. right.
    assert (Hl : (len (ev :: events) =? 0) = false)
      by (apply Z.eqb_neq; unfold len; cbn [List.length]; lia).
    cbv zeta in H. rewrite Hl in H.
    destruct (foldM tally_event (ev :: events) (mkTally [] [] [] []))
      as [t|] eqn:Et; cbn [bind try_except] in H; [|discriminate].
    destruct (t_valid_dates t) as [|d ds] eqn:Ev.
    + cbn [bind try_except] in H. injection H as <-.
      exists t, []. rewrite Ev. repeat split; try reflexivity. discriminate.
    + destruct (list_sort (fun d => d) (d :: ds)) as [sorted|] eqn:Es;
        cbn [bind try_except] in H; [|discriminate].
      injection H as <-. exists t, sorted. rewrite Ev.
      repeat split; try assumption. discriminate.
Qed.

(** Whenever [analyze_events] returns: every event is counted under exactly
    one holiday type, every event with a start under one year and one month,
    and there is a date range exactly when some event has a start. *)
Theorem analysis_counts (events : list event) (a : event_statistics) :
  analyze_events events = Ok a ->
  total_events a = len events
  /\ counted (holiday_types a) = len events
  /\ counted (yearly_distribution a) = len (filter has_start events)
  /\ counted (monthly_distribution a) = len (filter has_start events)
  /\ (es_date_range a = None <-> filter has_start events = []).
Proof.
  intros H. apply analyze_events_ok in H.
  destruct H as [[-> ->]|(t & sorted & Hne & Ht & Hs & ->)].
  - cbn. repeat split; reflexivity.
  - cbn [total_events holiday_types yearly_distribution monthly_distribution
         es_date_range].
    destruct (tally_fold _ _ _ Ht) as (H1 & H2 & H3 & H4 & _).
    cbn [t_holiday_types t_yearly t_monthly t_valid_dates] in *.
    change (counted []) with 0 in *. change (len []) with 0 in *.
    split; [reflexivity|]. split; [lia|]. split; [lia|]. split; [lia|].
    apply list_sort_perm in Hs. apply Permutation_length in Hs.
    unfold len in H4. rewrite Hs in H4.
    destruct sorted as [|d ds]; cbn [range_of].
    + split; [intros _|reflexivity].
      cbn [List.length] in H4. destruct (filter has_start events);
        [reflexivity|cbn [List.length] in H4; lia].
    + split; [discriminate|]. intros Hf. rewrite Hf in H4.
      cbn [List.length] in H4. lia.
Qed.

Lemma analysis_counts_witness :
  exists a,
    analyze_events [new_year; new_year_no_start; coming_of_age_day] = Ok a
    /\ counted (holiday_types a) = 3
    /\ counted (yearly_distribution a) = 2.
Proof.
  eexists. split; [reflexivity|].
  destruct (analysis_counts [new_year; new_year_no_start; coming_of_age_day] _
              eq_refl) as (_ & H1 & H2 & _).
  split; [exact H1|exact H2].
Defined.

Lemma tally_event_dates (t t1 : tally) (ev : event) :
  tally_event t ev = Ok t1 ->
  (forall d, In d (t_valid_dates t) -> In d (t_valid_dates t1))
  /\ (forall d, dtstart ev = Val d -> In d (t_valid_dates t1)).
Proof.
  unfold tally_event.
  destruct (holiday_type ev) as [label|]; cbn [bind]; [|discriminate].
  unfold getitem, lookup.
  destruct (dtstart ev) as [| |d0]; cbn [bind truthy]; [discriminate| |];
    intros E.
  - assert (E1 : t1 = mkTally (increment String.eqb (t_holiday_types t) label)
                              (t_yearly t) (t_monthly t) (t_valid_dates t))
      by congruence.
    subst t1. cbn [t_valid_dates]. split; [auto|discriminate].
  - assert (E1 : t1 = mkTally (increment String.eqb (t_holiday_types t) label)
                              (increment Z.eqb (t_yearly t) (year d0))
                              (increment Z.eqb (t_monthly t) (month d0))
                              (t_valid_dates t ++ [d0])%list)
      by congruence.
    subst t1. cbn [t_valid_dates]. split.
    + intros d Hd. apply in_or_app. now left.
    + intros d [= <-]. apply in_or_app. right. now left.
Qed.

Lemma tally_dates (events : list event) (t t' : tally) :
  foldM tally_event events t = Ok t' ->
  (forall d, In d (t_valid_dates t) -> In d (t_valid_dates t'))
  /\ (forall ev d, In ev events -> dtstart ev = Val d ->
                   In d (t_valid_dates t')).
Proof.
  revert t. induction events as [|ev events IH]; intros t; cbn [foldM].
  - intros [= <-]. split; [auto|intros ev d []].
  - destruct (tally_event t ev) as [t1|] eqn:E; cbn [bind]; [|discriminate].
    intros H. destruct (IH _ H) as [H1 H2].
    destruct (tally_event_dates _ _ _ E) as [E1 E2].
    split; [auto|].
    intros e d [<-|He] Hd; [apply H1; now apply E2|now apply (H2 e)].
Qed.

Lemma last_in {A : Type} (a d : A) (l : list A) : In (last (a :: l) d) (a :: l).
Proof.
  revert a. induction l as [|b l IH]; intros a; [now left|].
  change (last (a :: b :: l) d) with (last (b :: l) d). right. apply IH.
Qed.

Lemma sorted_last {A : Type} (R : A -> A -> Prop) (l : list A) (d x : A) :
  StronglySorted R l -> In x l -> x = last l d \/ R x (last l d).
Proof.
  intros Hs. revert x. induction Hs as [|a l Hs IH Hf]; intros x Hx;
    [contradiction|].
  destruct l as [|b l'].
  - destruct Hx as [<-|[]]. now left.
  - change (last (a :: b :: l') d) with (last (b :: l') d).
    destruct Hx as [<-|Hx]; [|now apply IH].
    right. rewrite Forall_forall in Hf. apply Hf. apply last_in.
Qed.

Lemma naive_order (a b : datetime) :
  utcoffset a = None -> utcoffset b = None -> valid_time a -> valid_time b ->
  not_after (fun d => d) a b -> toordinal a <= toordinal b.
Proof.
  intros Ha Hb Va Vb H. unfold not_after in H.
  apply dt_lt_ok in H. destruct H as [_ H].
  symmetry in H. apply Z.ltb_ge in H.
  unfold instant, wall_us in H. rewrite Ha, Hb in H.
  unfold valid_time in *. lia.
Qed.

(** For events whose starts are timezone-naive, the date range of
    [analyze_events] spans the starts of all events: the day of every start
    lies between [start] and [end], and [span_days] is the number of days
    from [start] to [end], which is not negative. *)
Theorem date_range_spans_starts (events : list event) (a : event_statistics)
        (ev : event) (d : datetime) :
  (forall e, In e events -> naive_start e) ->
  analyze_events events = Ok a ->
  In ev events -> dtstart ev = Val d ->
  exists r,
    es_date_range a = Some r
    /\ date_toordinal (range_start r) <= toordinal d
       <= date_toordinal (range_end r)
    /\ span_days r = date_toordinal (range_end r)
                     - date_toordinal (range_start r)
    /\ 0 <= span_days r.
Proof.
  intros Hn H Hev Hd. apply analyze_events_ok in H.
  destruct H as [[-> _]|(t & sorted & _ & Ht & Hs & ->)]; [contradiction|].
  cbn [es_date_range].
  destruct (tally_dates _ _ _ Ht) as [_ Hin].
  destruct (tally_fold _ _ _ Ht) as (_ & _ & _ & _ & Hfrom).
  cbn [t_valid_dates] in Hfrom.
  assert (Hnaive : forall x, In x sorted -> utcoffset x = None /\ valid_time x).
  { intros x Hx.
    apply (Permutation_in _ (Permutation_sym (list_sort_perm _ _ _ Hs))) in Hx.
    destruct (Hfrom x Hx) as [[]|(e & He & Hx')]. now apply (Hn e). }
  assert (Hds : In d sorted).
  { apply (Permutation_in _ (list_sort_perm _ _ _ Hs)). now apply (Hin ev). }
  pose proof (list_sort_sorted _ _ _ Hs) as Hsorted.
  destruct sorted as [|first rest]; [contradiction|].
  cbn [range_of]. eexists. split; [reflexivity|].
  cbn [range_start range_end span_days].
  change (date_toordinal (date_of first)) with (toordinal first).
  change (date_toordinal (date_of (last (first :: rest) first)))
    with (toordinal (last (first :: rest) first)).
  pose proof (last_in first first rest) as Hlast.
  assert (Hlow : forall x, In x (first :: rest) -> toordinal first <= toordinal x).
  { intros x [<-|Hx]; [lia|].
    apply StronglySorted_inv in Hsorted. destruct Hsorted as [_ Hf].
    rewrite Forall_forall in Hf.
    destruct (Hnaive first (or_introl eq_refl)), (Hnaive x (or_intror Hx)).
    apply naive_order; auto. }
  assert (Hhigh : forall x, In x (first :: rest) ->
                            toordinal x <= toordinal (last (first :: rest) first)).
  { intros x Hx.
    destruct (sorted_last _ _ first x Hsorted Hx) as [<-|Hr]; [lia|].
    destruct (Hnaive x Hx), (Hnaive _ Hlast). apply naive_order; auto. }
  pose proof (Hlow d Hds). pose proof (Hhigh d Hds).
  pose proof (Hlow _ Hlast). lia.
Qed.

Lemma date_range_spans_starts_witness :
  exists a r,
    analyze_events [coming_of_age_day; new_year_no_start; new_year] = Ok a
    /\ es_date_range a = Some r
    /\ 0 <= span_days r.
Proof.
  destruct (analyze_events [coming_of_age_day; new_year_no_start; new_year])
    as [a|x] eqn:E; [|vm_compute in E; discriminate E].
  destruct (date_range_spans_starts
              [coming_of_age_day; new_year_no_start; new_year] a
              new_year (naive 2024 1 1)) as (r & Hr & _ & _ & Hspan).
  - intros e [<-|[<-|[<-|[]]]] d [= <-];
      (split; [reflexivity|unfold valid_time; cbn; lia]).
  - exact E.
  - right. right. now left.
  - reflexivity.
  - exists a, r. split; [reflexivity|]. split; [exact Hr|exact Hspan].
Defined.

Lemma tally_raises (events : list event) (t : tally) (ev : event) :
  In ev events ->
  (forall t0, exists x, tally_event t0 ev = Raise x) ->
  exists x, foldM tally_event events t = Raise x.
Proof.
  revert t. induction events as [|e events IH]; intros t Hin Hr;
    [contradiction|].
  cbn [foldM]. destruct (tally_event t e) as [t1|x] eqn:E; cbn [bind]; [|eauto].
  destruct Hin as [->|Hin]; [|now apply IH].
  destruct (Hr t) as [x Hx]. congruence.
Qed.

(** [analyze_events] raises [ICSAnalysisError] when an event lacks the key
    ['dtstart'], read by subscript, or holds [None] under ['categories'],
    where a text is searched. *)
Theorem analysis_rejects (events : list event) (ev : event) :
  In ev events ->
  dtstart ev = Missing \/ categories ev = PyNone ->
  analyze_events events = Raise ICSAnalysisError.
Proof.
  intros Hin Hbad. unfold analyze_events.
  assert (Hl : (len events =? 0) = false).
  { apply Z.eqb_neq. unfold len. destruct events; [contradiction|].
    cbn [List.length]. lia. }
  cbv zeta. rewrite Hl.
  destruct (tally_raises events (mkTally [] [] [] []) ev Hin) as [x ->];
    [|reflexivity].
  intros t0. unfold tally_event.
  destruct Hbad as [Hs|Hc].
  - destruct (holiday_type ev); cbn [bind]; [|eauto].
    unfold getitem, lookup. rewrite Hs. cbn [bind]. eauto.
  - unfold holiday_type, get_default, lookup. rewrite Hc. cbn [py_in bind]. eauto.
Qed.

Lemma analysis_rejects_witness :
  analyze_events [new_year; no_date_event] = Raise ICSAnalysisError.
Proof.
  apply (analysis_rejects [new_year; no_date_event] no_date_event).
  - right. now left.
  - left. reflexivity.
Defined.

(** ** Gaps and busy periods of a year *)

Lemma insert_date_perm (d : Z) (l : list Z) : Permutation (d :: l) (insert_date d l).
Proof.
  induction l as [|x l IH]; cbn [insert_date]; [reflexivity|].
  destruct (d <=? x); [reflexivity|].
  etransitivity; [apply perm_swap|]. now constructor.
Qed.

Lemma sorted_dates_perm (l : list Z) : Permutation l (sorted_dates l).
Proof.
  induction l as [|d l IH]; cbn [sorted_dates fold_right]; [constructor|].
  etransitivity; [|apply insert_date_perm]. now constructor.
Qed.

Lemma insert_date_sorted (d : Z) (l : list Z) :
  StronglySorted Z.le l -> StronglySorted Z.le (insert_date d l).
Proof.
  induction 1 as [|x l Hs IH Hf]; cbn [insert_date].
  - repeat constructor.
  - destruct (Z.leb_spec d x).
    + constructor; [now constructor|].
      constructor; [assumption|].
      eapply Forall_impl; [|exact Hf]. cbv beta. intros; lia.
    + constructor; [assumption|].
      apply (Permutation_Forall (insert_date_perm d l)).
      constructor; [lia|assumption].
Qed.

Lemma sorted_dates_sorted (l : list Z) : StronglySorted Z.le (sorted_dates l).
Proof.
  induction l as [|d l IH]; cbn [sorted_dates fold_right]; [constructor|].
  now apply insert_date_sorted.
Qed.

Lemma firstn_in {A : Type} (n : nat) (l : list A) (x : A) :
  In x (firstn n l) -> In x l.
Proof.
  revert l. induction n as [|n IH]; intros [|a l]; cbn [firstn In]; try tauto.
  intros [<-|H]; [now left|right; now apply IH].
Qed.

Lemma gaps_between_free (l : list Z) (g : gap) :
  StronglySorted Z.le l -> In g (gaps_between l) ->
  gap_days g = gap_end_date g - gap_start_date g + 1
  /\ 7 < gap_days g
  /\ In (gap_start_date g - 1) l /\ In (gap_end_date g + 1) l
  /\ forall d, In d l -> ~ (gap_start_date g <= d <= gap_end_date g).
Proof.
  induction 1 as [|a l Hs IH Hf]; cbn [gaps_between]; [contradiction|].
  destruct l as [|b rest]; [contradiction|].
  rewrite Forall_forall in Hf.
  intros Hg. apply in_app_or in Hg. destruct Hg as [Hg|Hg].
  - destruct (Z.ltb_spec 7 (b - a - 1)); [|contradiction].
    destruct Hg as [<-|[]]. cbn [gap_days gap_start_date gap_end_date].
    split; [lia|]. split; [lia|].
    split; [left; lia|]. split; [right; left; lia|].
    intros d [<-|Hd]; [lia|].
    assert (b <= d).
    { destruct Hd as [<-|Hd]; [lia|].
      apply StronglySorted_inv in Hs. destruct Hs as [_ Hb].
      rewrite Forall_forall in Hb. now apply Hb. }
    lia.
  - destruct (IH Hg) as (H1 & H2 & H3 & H4 & H5).
    split; [exact H1|]. split; [exact H2|].
    split; [now right|]. split; [now right|].
    intros d [<-|Hd]; [|now apply H5].
    pose proof (Hf _ H3). lia.
Qed.

Section CoverageFacts.
Variable year_of : Z -> Z.

Lemma in_year_in (year : Z) (event_dates : list Z) (d : Z) :
  In d (sorted_dates (in_year year_of year event_dates)) <->
  In d event_dates /\ year_of d = year.
Proof.
  split.
  - intros H.
    apply (Permutation_in _ (Permutation_sym (sorted_dates_perm _))) in H.
    apply filter_In in H. now rewrite Z.eqb_eq in H.
  - intros [H1 H2]. apply (Permutation_in _ (sorted_dates_perm _)).
    apply filter_In. now rewrite Z.eqb_eq.
Qed.

Lemma find_gaps_free (event_dates : list Z) (year : Z) (g : gap) :
  In g (_find_gaps year_of event_dates year) ->
  gap_days g = gap_end_date g - gap_start_date g + 1
  /\ 7 < gap_days g
  /\ (In (gap_start_date g - 1) event_dates
      /\ year_of (gap_start_date g - 1) = year)
  /\ (In (gap_end_date g + 1) event_dates
      /\ year_of (gap_end_date g + 1) = year)
  /\ forall d, In d event_dates -> year_of d = year ->
               ~ (gap_start_date g <= d <= gap_end_date g).
Proof.
  unfold _find_gaps. intros H.
  assert (Hg : In g (gaps_between
                       (sorted_dates (in_year year_of year event_dates)))).
  { destruct (in_year year_of year event_dates); [contradiction|].
    now apply firstn_in in H. }
  destruct (gaps_between_free _ g (sorted_dates_sorted _) Hg)
    as (H1 & H2 & H3 & H4 & H5).
  split; [exact H1|]. split; [exact H2|].
  split; [now apply in_year_in|]. split; [now apply in_year_in|].
  intros d Hd Hy. apply H5. now apply in_year_in.
Qed.

Lemma close_period_in (acc : list busy_period) (s e : Z) (p : busy_period) :
  In p (close_period acc s e) ->
  In p acc \/ (p = mkBusyPeriod s e (e - s + 1) /\ 3 < e - s + 1).
Proof.
  unfold close_period. cbv zeta.
  destruct (Z.ltb_spec 3 (e - s + 1)) as [Hlt|Hge]; [|auto].
  intros Hp. apply in_app_or in Hp. destruct Hp as [Hp|[<-|[]]]; auto.
Qed.

Lemma busy_loop_covered (dates rest : list Z) (s e : Z)
      (acc : list busy_period) (p : busy_period) :
  StronglySorted Z.le (e :: rest) ->
  (forall d, In d rest -> In d dates) ->
  s <= e -> (forall d, s <= d <= e -> In d dates) ->
  (forall q, In q acc ->
     duration_days q = busy_end_date q - busy_start_date q + 1
     /\ 3 < duration_days q
     /\ forall d, busy_start_date q <= d <= busy_end_date q -> In d dates) ->
  In p (busy_loop rest s e acc) ->
  duration_days p = busy_end_date p - busy_start_date p + 1
  /\ 3 < duration_days p
  /\ forall d, busy_start_date p <= d <= busy_end_date p -> In d dates.
Proof.
  revert s e acc. induction rest as [|x rest IH]; intros s e acc Hs Hin Hse Hc Ha;
    cbn [busy_loop].
  - intros H. apply close_period_in in H. destruct H as [H|[-> Hd]]; [auto|].
    cbn [duration_days busy_start_date busy_end_date]. auto.
  - apply StronglySorted_inv in Hs. destruct Hs as [Hs He].
    pose proof (Forall_inv He) as Hex. cbv beta in Hex.
    destruct (Z.leb_spec (x - e) 1).
    + apply IH; try assumption.
      * intros d Hd. apply Hin. now right.
      * lia.
      * intros d Hd. destruct (Z.eq_dec d x) as [->|Hne];
          [apply Hin; now left|apply Hc; lia].
    + apply IH; try assumption.
      * intros d Hd. apply Hin. now right.
      * lia.
      * intros d Hd. assert (d = x) by lia. subst d. apply Hin. now left.
      * intros q Hq. apply close_period_in in Hq.
        destruct Hq as [Hq|[-> Hd]]; [auto|].
        cbn [duration_days busy_start_date busy_end_date]. auto.
Qed.

Lemma busy_loop_maximal (dates rest : list Z) (s e : Z)
      (acc : list busy_period) (p : busy_period) :
  StronglySorted Z.le (e :: rest) ->
  s <= e ->
  (forall d, In d dates -> d <= e \/ In d rest) ->
  (forall d, In d dates -> d <= e -> d < s - 1 \/ s <= d) ->
  (forall q, In q acc ->
     ~ In (busy_start_date q - 1) dates /\ ~ In (busy_end_date q + 1) dates) ->
  In p (busy_loop rest s e acc) ->
  ~ In (busy_start_date p - 1) dates /\ ~ In (busy_end_date p + 1) dates.
Proof.
  revert s e acc.
  induction rest as [|x rest IH]; intros s e acc Hs Hse H1 H2 Ha;
    cbn [busy_loop].
  - intros H. apply close_period_in in H. destruct H as [H|[-> Hd]]; [auto|].
    cbn [busy_start_date busy_end_date]. split; intros Hin.
    + destruct (H1 _ Hin) as [Hle|[]]. destruct (H2 _ Hin Hle); lia.
    + destruct (H1 _ Hin) as [Hle|[]]. lia.
  - apply StronglySorted_inv in Hs. destruct Hs as [Hs He].
    pose proof (Forall_inv He) as Hex. cbv beta in Hex.
    assert (Hx : forall d, In d (x :: rest) -> x <= d).
    { intros d [<-|Hd]; [lia|].
      apply StronglySorted_inv in Hs. destruct Hs as [_ Hf].
      rewrite Forall_forall in Hf. now apply Hf. }
    destruct (Z.leb_spec (x - e) 1).
    + apply IH; try assumption.
      * lia.
      * intros d Hd. destruct (H1 d Hd) as [Hle|[<-|Hr]]; [left; lia|left; lia|auto].
      * intros d Hd Hle. destruct (Z.le_gt_cases d e) as [Hde|Hde];
          [now apply H2|right; lia].
    + apply IH; try assumption.
      * lia.
      * intros d Hd. destruct (H1 d Hd) as [Hle|[<-|Hr]]; [left; lia|left; lia|auto].
      * intros d Hd Hle. destruct (H1 d Hd) as [Hde|Hr]; [left; lia|].
        right. now apply Hx.
      * intros q Hq. apply close_period_in in Hq.
        destruct Hq as [Hq|[-> Hd]]; [auto|].
        cbn [busy_start_date busy_end_date]. split; intros Hin.
        -- destruct (H1 _ Hin) as [Hle|Hr];
             [destruct (H2 _ Hin Hle); lia|apply Hx in Hr; lia].
        -- destruct (H1 _ Hin) as [Hle|Hr]; [lia|apply Hx in Hr; lia].
Qed.

Lemma find_busy_periods_covered (event_dates : list Z) (year : Z)
      (p : busy_period) :
  In p (_find_busy_periods year_of event_dates year) ->
  duration_days p = busy_end_date p - busy_start_date p + 1
  /\ 3 < duration_days p
  /\ (forall d, busy_start_date p <= d <= busy_end_date p ->
                In d event_dates /\ year_of d = year)
  /\ ~ (In (busy_start_date p - 1) event_dates
        /\ year_of (busy_start_date p - 1) = year)
  /\ ~ (In (busy_end_date p + 1) event_dates
        /\ year_of (busy_end_date p + 1) = year).
Proof.
  unfold _find_busy_periods. intros H.
  pose proof (sorted_dates_sorted (in_year year_of year event_dates)) as Hs.
  pose proof (in_year_in year event_dates) as Hin.
  destruct (sorted_dates (in_year year_of year event_dates)) as [|first rest];
    [contradiction|].
  apply firstn_in in H.
  destruct (busy_loop_covered (first :: rest) rest first first [] p)
    as (H1 & H2 & H3); try assumption.
  - intros d Hd. now right.
  - lia.
  - intros d Hd. left. lia.
  - intros q [].
  - destruct (busy_loop_maximal (first :: rest) rest first first [] p)
      as (M1 & M2); try assumption.
    + lia.
    + intros d [<-|Hd]; [left; lia|now right].
    + intros d Hd _. right. destruct Hd as [<-|Hd]; [lia|].
      apply StronglySorted_inv in Hs. destruct Hs as [_ Hf].
      rewrite Forall_forall in Hf. now apply Hf.
    + intros q [].
    + split; [exact H1|]. split; [exact H2|]. split.
      * intros d Hd. apply Hin. now apply H3.
      * split; intros Hd; [apply M1|apply M2]; now apply Hin.
Qed.
End CoverageFacts.

(** Every gap [_find_gaps] reports lies between two event days of the
    year: the day before its start and the day after its end are event days
    of the year, no event day of the year lies in it, and it has more than
    seven days, [gap_days] being the number of its days. *)
Theorem gaps_hold_no_event (year_of : Z -> Z) (event_dates : list Z) (year : Z)
        (g : gap) :
  In g (_find_gaps year_of event_dates year) ->
  gap_days g = gap_end_date g - gap_start_date g + 1
  /\ 7 < gap_days g
  /\ (In (gap_start_date g - 1) event_dates
      /\ year_of (gap_start_date g - 1) = year)
  /\ (In (gap_end_date g + 1) event_dates
      /\ year_of (gap_end_date g + 1) = year)
  /\ forall d, In d event_dates -> year_of d = year ->
               ~ (gap_start_date g <= d <= gap_end_date g).
Proof.
  apply find_gaps_free.
Qed.

Lemma gaps_hold_no_event_witness :
  7 < gap_days (mkGap 738888 738899 12)
  /\ In (738899 + 1) [738900; 738886; 738887; 739300].
Proof.
  destruct (gaps_hold_no_event year_2024 [738900; 738886; 738887; 739300] 2024
              (mkGap 738888 738899 12)) as (_ & H1 & _ & [H2 _] & _).
  - left. reflexivity.
  - split; [exact H1|exact H2].
Defined.

(** Every busy period [_find_busy_periods] reports is a maximal run of
    event days of the year: each day from its start to its end is an event
    day of the year, the day before its start and the day after its end are
    not, and it has more than three days, [duration_days] being the number
    of its days. *)
Theorem busy_periods_are_maximal_runs (year_of : Z -> Z) (event_dates : list Z)
        (year : Z) (p : busy_period) :
  In p (_find_busy_periods year_of event_dates year) ->
  duration_days p = busy_end_date p - busy_start_date p + 1
  /\ 3 < duration_days p
  /\ (forall d, busy_start_date p <= d <= busy_end_date p ->
                In d event_dates /\ year_of d = year)
  /\ ~ (In (busy_start_date p - 1) event_dates
        /\ year_of (busy_start_date p - 1) = year)
  /\ ~ (In (busy_end_date p + 1) event_dates
        /\ year_of (busy_end_date p + 1) = year).
Proof.
  apply find_busy_periods_covered.
Qed.

Lemma busy_periods_are_maximal_runs_witness :
  3 < duration_days (mkBusyPeriod 738886 738889 4)
  /\ In 738888 [738889; 738886; 738888; 738900; 738887].
Proof.
  destruct (busy_periods_are_maximal_runs
              year_2024 [738889; 738886; 738888; 738900; 738887] 2024
              (mkBusyPeriod 738886 738889 4)) as (_ & H1 & H2 & _).
  - left. reflexivity.
  - split; [exact H1|]. apply (H2 738888).
    cbn [busy_start_date busy_end_date]. lia.
Defined.

(** ** The two differs side by side *)

Lemma isoformat_sep_long (sep : string) (d : datetime) :
  (10 <= String.length (isoformat_sep sep d))%nat.
Proof.
  unfold isoformat_sep. rewrite !string_length_append, !zero_pad_length.
  cbn [String.length]. lia.
Qed.

Lemma isoformat_sep_not_none (d : datetime) : "None" <> isoformat_sep " " d.
Proof.
  intros H. pose proof (isoformat_sep_long " " d) as Hl. rewrite <- H in Hl.
  cbn in Hl. lia.
Qed.

Lemma truthy_text (s : string) :
  (if truthy (PStr s) then py_str (PStr s) else "") = s.
Proof.
  cbn [truthy py_str]. destruct (String.eqb_spec s ""); cbn [negb]; congruence.
Qed.

Lemma compare_event_properties_lines (event1 event2 : event) :
  List.length (compare_event_properties event1 event2)
  = List.length (filter (line_reported event1 event2) compare_props).
Proof.
  unfold compare_event_properties.
  induction compare_props as [|p l IH]; cbn [flat_map filter]; [reflexivity|].
  rewrite length_app, IH. unfold line_reported at 2.
  destruct (get event1 p) as [|s1|d1], (get event2 p) as [|s2|d2];
    match goal with
    | |- context [if ?c then [_] else []] =>
        destruct c; cbn [List.length Nat.add]; reflexivity
    end.
Qed.

Lemma detailed_changes_entries (event1 event2 : event) :
  map property (_get_detailed_property_changes event1 event2)
  = filter (entry_reported event1 event2) compare_props.
Proof.
  unfold _get_detailed_property_changes.
  induction compare_props as [|p l IH]; cbn [flat_map filter]; [reflexivity|].
  rewrite map_app, IH. unfold entry_reported at 2.
  destruct (property_entry_shape event1 event2 p) as [->|(c & -> & Hp & _)];
    [reflexivity|].
  cbn [map app]. now rewrite Hp.
Qed.

Lemma reported_alike (event1 event2 : event) (p : prop) :
  texts_present event1 -> texts_present event2 ->
  line_reported event1 event2 p = entry_reported event1 event2 p.
Proof.
  intros ([a1 A1] & [b1 B1] & [c1 C1]) ([a2 A2] & [b2 B2] & [c2 C2]).
  unfold line_reported, entry_reported, property_entry, get, get_default, lookup.
  destruct p; rewrite ?A1, ?A2, ?B1, ?B2, ?C1, ?C2; cbv beta iota zeta.
  1-3: rewrite !truthy_text; cbn [py_str];
       match goal with
       | |- context [String.eqb ?x ?y] => destruct (String.eqb x y)
       end; reflexivity.
  - destruct (dtstart event1) as [| |d1], (dtstart event2) as [| |d2];
      cbn [truthy py_str py_ne negb];
      rewrite ?(eqb_neq_false _ _ (isoformat_sep_not_none _)),
        ?(eqb_neq_false _ _ (not_eq_sym (isoformat_sep_not_none _))),
        ?(eqb_neq_false _ _ (isoformat_sep_nonempty _ _)),
        ?(eqb_neq_false _ _ (not_eq_sym (isoformat_sep_nonempty _ _)));
      try reflexivity.
    now destruct (dt_eq d1 d2).
  - destruct (dtend event1) as [| |d1], (dtend event2) as [| |d2];
      cbn [truthy py_str py_ne negb];
      rewrite ?(eqb_neq_false _ _ (isoformat_sep_not_none _)),
        ?(eqb_neq_false _ _ (not_eq_sym (isoformat_sep_not_none _))),
        ?(eqb_neq_false _ _ (isoformat_sep_nonempty _ _)),
        ?(eqb_neq_false _ _ (not_eq_sym (isoformat_sep_nonempty _ _)));
      try reflexivity.
    now destruct (dt_eq d1 d2).
Qed.

(** On events that hold a text under ['summary'], ['description'] and
    ['categories'], the two differs report the same properties: the lines of
    [compare_event_properties] and the entries of
    [_get_detailed_property_changes] are as many, one for each property that
    differs, so that the simple matcher calls a pair modified exactly when
    the detailed differ has an entry for it. *)
Theorem differs_agree_on_texts (event1 event2 : event) :
  texts_present event1 -> texts_present event2 ->
  List.length (compare_event_properties event1 event2)
  = List.length (_get_detailed_property_changes event1 event2)
  /\ (compare_event_properties event1 event2 = []
      <-> _get_detailed_property_changes event1 event2 = []).
Proof.
  intros H1 H2.
  assert (Hl : List.length (compare_event_properties event1 event2)
               = List.length (_get_detailed_property_changes event1 event2)).
  { rewrite compare_event_properties_lines.
    rewrite <- (length_map property), detailed_changes_entries.
    f_equal. apply filter_ext. intros p. now apply reported_alike. }
  split; [exact Hl|].
  split; intros E; rewrite E in Hl; cbn [List.length] in Hl.
  - symmetry in Hl. now apply length_zero_iff_nil in Hl.
  - now apply length_zero_iff_nil in Hl.
Qed.

Lemma differs_agree_on_texts_witness :
  List.length (compare_event_properties new_year new_year_no_start) = 1%nat.
Proof.
  destruct (differs_agree_on_texts new_year new_year_no_start) as [H _].
  - repeat split; eexists; reflexivity.
  - repeat split; eexists; reflexivity.
  - rewrite H. reflexivity.
Defined.
